(** * WhatPulse weekly delta pipeline

    A shallow embedding of the WhatPulse scripts of kochu-apis:

    - [src/whatpulse/build-whatpulse.ts]: the numeric-field locator
      ([pathScore], [collectCandidates], [pickBest]) and the counter
      extractor ([extractSection], [main]);
    - [src/whatpulse/build-weekly.ts]: the snapshot ledger and the weekly
      delta engine ([toNumber], [getCounters], [delta], [main]);
    - the raw snapshot fetcher's [safeSnippet] and [main], the location
      helpers and the birthday countdown.

    Modelling conventions.

    - A JavaScript number is an IEEE 754 binary64 value.  It is modelled
      by the Standard Library's [spec_float] at precision 53 and maximal
      exponent 1024, with its subtraction and comparison; [ofInteger z] is
      the number the integer literal [z] reads as.
    - Strings are Rocq strings, read as sequences of code units below 256
      (the Latin-1 range).  On that range [toLowerCase] stays within it;
      [toUpperCase] does not (it can lengthen the string and leave the
      range), so it is modelled by the code units of its result.  The
      whitespace class of [/\s+/g] and [trim] is the one of that range.
    - A JSON object is the list of its entries in [Object.entries] order.
    - The clock ([new Date().toISOString()]) is an argument [now].
    - Files are modelled by what reading and parsing them yields, and a
      written file by what it reads back as; writing always succeeds.  A
      thrown exception is the [Throw] constructor of [Result].
    - The implicit conversions of JavaScript (a value that is not a string
      used in a template, a value that is not a number used in a
      subtraction) are parameters of the functions that can reach them. *)

From Stdlib Require Import List String Ascii ZArith Lia Bool Arith.
From Stdlib Require Import Numbers.DecimalString.
From Stdlib Require DecimalNat DecimalFacts.
From Stdlib Require Import SpecFloat.
Import ListNotations.

#[local] Set Warnings "-register-all".

Local Open Scope string_scope.
Local Open Scope list_scope.

(* ================================================================== *)
(** ** JavaScript string primitives *)

Module JsString.

(** The code units below 256 matched by [\s] (and stripped by [trim]):
    tab, line feed, vertical tab, form feed, carriage return, space and
    the no-break space. *)
Definition isWhitespace (c : ascii) : bool :=
  let n := nat_of_ascii c in
  ((9 <=? n) && (n <=? 13) || (n =? 32) || (n =? 160))%nat.

(** [c.toLowerCase()] for a code unit below 256: the ASCII capitals and
    the Latin-1 capitals (U+00C0 to U+00DE, the multiplication sign
    apart) move to their small letters. *)
Definition toLowerChar (c : ascii) : ascii :=
  let n := nat_of_ascii c in
  if ((65 <=? n) && (n <=? 90))%nat then ascii_of_nat (n + 32)
  else if ((192 <=? n) && (n <=? 222) && negb (n =? 215))%nat then ascii_of_nat (n + 32)
  else c.

(** [s.toLowerCase()] *)
Fixpoint toLowerCase (s : string) : string :=
  match s with
  | EmptyString => EmptyString
  | String c s' => String (toLowerChar c) (toLowerCase s')
  end.

(** [s.replace(/\s+/g, '')] *)
Fixpoint removeWhitespace (s : string) : string :=
  match s with
  | EmptyString => EmptyString
  | String c s' =>
      if isWhitespace c then removeWhitespace s'
      else String c (removeWhitespace s')
  end.

(** [s.includes(p)] *)
Fixpoint includes (s p : string) : bool :=
  if String.prefix p s then true
  else match s with
       | EmptyString => false
       | String _ s' => includes s' p
       end.

(** [s.split(sep)] for a one-character separator; never the empty list. *)
Fixpoint split (sep : ascii) (s : string) : list string :=
  match s with
  | EmptyString => [EmptyString]
  | String c s' =>
      if Ascii.eqb c sep then EmptyString :: split sep s'
      else match split sep s' with
           | [] => [String c EmptyString]
           | seg :: segs => String c seg :: segs
           end
  end.

(** [arr.pop()]: the last element, [undefined] on the empty array. *)
Definition pop (l : list string) : option string :=
  match rev l with
  | [] => None
  | x :: _ => Some x
  end.

(** [s.slice(0, n)] *)
Definition slice0 (n : nat) (s : string) : string := String.substring 0 n s.

Fixpoint trimStart (s : string) : string :=
  match s with
  | EmptyString => EmptyString
  | String c s' => if isWhitespace c then trimStart s' else s
  end.

Fixpoint trimEnd (s : string) : string :=
  match s with
  | EmptyString => EmptyString
  | String c s' =>
      match trimEnd s' with
      | EmptyString => if isWhitespace c then EmptyString else String c EmptyString
      | t => String c t
      end
  end.

(** [s.trim()] *)
Definition trim (s : string) : string := trimEnd (trimStart s).

(** The decimal text of an array index, as in [`${path}/${i}`]. *)
Definition ofIndex (i : nat) : string :=
  NilEmpty.string_of_uint (Nat.to_uint i).

(** The UTF-16 code units of [c.toUpperCase()] for a code unit [c] below
    256: the ASCII and Latin-1 small letters move to their capitals, the
    micro sign to U+039C, y with diaeresis to U+0178, and sharp s becomes
    two code units, "SS". *)
Definition upperCaseUnits (c : ascii) : list Z :=
  let n := nat_of_ascii c in
  if ((97 <=? n) && (n <=? 122))%nat then [Z.of_nat (n - 32)]
  else if (n =? 181)%nat then [924%Z]
  else if (n =? 223)%nat then [83%Z; 83%Z]
  else if ((224 <=? n) && (n <=? 254) && negb (n =? 247))%nat then [Z.of_nat (n - 32)]
  else if (n =? 255)%nat then [376%Z]
  else [Z.of_nat n].

(** [s.toUpperCase().split('')], each character by its code unit. *)
Fixpoint toUpperCaseUnits (s : string) : list Z :=
  match s with
  | EmptyString => []
  | String c s' => upperCaseUnits c ++ toUpperCaseUnits s'
  end.

(** [s.replace(/\/$/, '')]: drop one trailing slash. *)
Fixpoint stripTrailingSlash (s : string) : string :=
  match s with
  | EmptyString => EmptyString
  | String c s' =>
      match s' with
      | EmptyString => if Ascii.eqb c "/" then EmptyString else s
      | _ => String c (stripTrailingSlash s')
      end
  end.

(** [p] occurs in [s] as a contiguous substring. *)
Definition Substring (p s : string) : Prop :=
  exists pre post, s = (pre ++ p ++ post)%string.

End JsString.

Import JsString.

(* ================================================================== *)
(** ** JSON values *)

(** A JavaScript number: an IEEE 754 binary64 value, NaN included. *)
Definition number : Type := spec_float.

(** The number an integer literal reads as: the nearest binary64 value,
    an infinity beyond the range. *)
Definition ofInteger (z : Z) : number := binary_normalize 53 1024 z 0 false.

(** [Number.isFinite] *)
Definition isFinite (n : number) : bool :=
  match n with
  | S754_zero _ | S754_finite _ _ _ => true
  | S754_infinity _ | S754_nan => false
  end.

Inductive json : Type :=
| JNull
| JBool (b : bool)
| JNumber (n : number)
| JString (s : string)
| JArray (items : list json)
| JObject (entries : list (string * json)).

(** Property read [obj.k]; [None] is [undefined].  Arrays, strings,
    numbers and booleans have no own property among the names read here;
    the one inherited name, the method [keys] of arrays, is only ever
    passed to [toNumber] or subtracted, which treat a function as they
    treat [undefined]. *)
Fixpoint lookupEntry (k : string) (entries : list (string * json)) : option json :=
  match entries with
  | [] => None
  | (k', v) :: rest => if String.eqb k k' then Some v else lookupEntry k rest
  end.

Definition getProp (obj : json) (k : string) : option json :=
  match obj with
  | JObject entries => lookupEntry k entries
  | _ => None
  end.

Definition json_null_dec (j : json) : {j = JNull} + {j <> JNull}.
Proof. destruct j; (now left) || (right; discriminate). Defined.

(** Structural induction on JSON values, through arrays and objects. *)
Section JsonInd.
Variable P : json -> Prop.
Hypothesis HNull : P JNull.
Hypothesis HBool : forall b, P (JBool b).
Hypothesis HNumber : forall n, P (JNumber n).
Hypothesis HString : forall s, P (JString s).
Hypothesis HArray : forall items, Forall P items -> P (JArray items).
Hypothesis HObject :
  forall entries, Forall (fun kv => P (snd kv)) entries -> P (JObject entries).

Fixpoint json_rect' (j : json) : P j :=
  match j with
  | JNull => HNull
  | JBool b => HBool b
  | JNumber n => HNumber n
  | JString s => HString s
  | JArray items =>
      HArray items
        ((fix all (l : list json) : Forall P l :=
            match l with
            | [] => Forall_nil _
            | x :: l' => Forall_cons x (json_rect' x) (all l')
            end) items)
  | JObject entries =>
      HObject entries
        ((fix all (l : list (string * json)) : Forall (fun kv => P (snd kv)) l :=
            match l with
            | [] => Forall_nil _
            | kv :: l' => Forall_cons kv (json_rect' (snd kv)) (all l')
            end) entries)
  end.
End JsonInd.

(* ================================================================== *)
(** ** build-whatpulse.ts: locator and counter extractor *)

Module WhatPulse.

Inductive NumericField : Type := keys | clicks | scrolls | uptimeSeconds.

Definition fields : list NumericField := [keys; clicks; scrolls; uptimeSeconds].

Definition FIELD_PATTERNS (f : NumericField) : list string :=
  match f with
  | keys => ["keys"; "keycount"; "keystrokes"]
  | clicks => ["clicks"; "mouseclicks"]
  | scrolls => ["scrolls"; "scrollcount"; "mousescrolls"]
  | uptimeSeconds => ["uptime"; "uptimeseconds"; "seconds"]
  end.

Definition TOTALS_PATH_HINTS : list string := ["totals"; "total"; "accounttotals"].
Definition UNPULSED_PATH_HINTS : list string := ["unpulsed"; "unpulse"; "pending"].

(** The section a caller asks for. *)
Inductive SectionName : Type := Totals | Unpulsed.

(** The tag a candidate carries: ['totals' | 'unpulsed' | 'none']. *)
Inductive SectionTag : Type := TagTotals | TagUnpulsed | TagNone.

Definition tag_eqb (a b : SectionTag) : bool :=
  match a, b with
  | TagTotals, TagTotals | TagUnpulsed, TagUnpulsed | TagNone, TagNone => true
  | _, _ => false
  end.

Record Candidate : Type := mkCandidate {
  value : number;
  path : string;
  pathLower : string;
  section : SectionTag
}.

Definition pathScore (pathLower : string) (hints : list string) : Z :=
  fold_left (fun score h => if includes pathLower h then (score + 10)%Z else score)
            hints 0%Z.

(** The key of a leaf: [path.split('/').pop()?.toLowerCase().replace(/\s+/g, '') ?? ''] *)
Definition leafKey (path : string) : string :=
  match pop (split "/" path) with
  | Some seg => removeWhitespace (toLowerCase seg)
  | None => EmptyString
  end.

(** [patterns.some((p) => key.includes(p) || p.includes(key))] *)
Definition matchesPatterns (key : string) (patterns : list string) : bool :=
  existsb (fun p => includes key p || includes p key) patterns.

(** The section a lower-cased path is tagged with. *)
Definition sectionOf (pathLower : string) : SectionTag :=
  if includes pathLower "unpulse" || includes pathLower "pending" then TagUnpulsed
  else if includes pathLower "total" then TagTotals
  else TagNone.

(** [nextPath] and [nextLower] of the object branch. *)
Definition nextPath (path k : string) : string :=
  match path with
  | EmptyString => k
  | _ => path ++ "/" ++ k
  end.

Definition nextLower (pathLower k : string) : string :=
  removeWhitespace (pathLower ++ "/" ++ toLowerCase k).

(** [arr.forEach((item, i) => ...)], threading the accumulator the
    callback pushes onto; [i] is the index of the head of [l]. *)
Fixpoint forEachFrom {A B : Type} (f : B -> A -> nat -> B) (l : list A)
    (i : nat) (acc : B) : B :=
  match l with
  | [] => acc
  | item :: rest => forEachFrom f rest (S i) (f acc item i)
  end.

(** [collectCandidates] pushes onto [acc]; the model returns the array
    after the call. *)
Fixpoint collectCandidates (obj : json) (path pathLower : string)
    (field : NumericField) (patterns : list string) (acc : list Candidate)
    {struct obj} : list Candidate :=
  match obj with
  | JNull => acc
  | JNumber n =>
      if isFinite n then
        let key := leafKey path in
        if matchesPatterns key patterns
        then acc ++ [mkCandidate n path pathLower (sectionOf pathLower)]
        else acc
      else acc
  | JArray items =>
      forEachFrom
        (fun acc item i =>
           collectCandidates item (path ++ "/" ++ ofIndex i) pathLower
             field patterns acc)
        items 0 acc
  | JObject entries =>
      fold_left
        (fun acc kv =>
           match kv with
           | (k, v) =>
               collectCandidates v (nextPath path k) (nextLower pathLower k)
                 field patterns acc
           end)
        entries acc
  | JBool _ | JString _ => acc
  end.

(** [Array.prototype.sort(compareFn)]: a stable sort; an element moves in
    front of another only when the comparator is negative. *)
Fixpoint insertBy {A : Type} (cmp : A -> A -> Z) (x : A) (l : list A) : list A :=
  match l with
  | [] => [x]
  | y :: l' => if (cmp x y <=? 0)%Z then x :: l else y :: insertBy cmp x l'
  end.

Definition sort {A : Type} (cmp : A -> A -> Z) (l : list A) : list A :=
  fold_right (insertBy cmp) [] l.

Definition pickBest (candidates : list Candidate) (sec : SectionName)
  : option Candidate :=
  let filtered :=
    filter (fun c => match sec with
                     | Totals => tag_eqb (section c) TagTotals
                     | Unpulsed => tag_eqb (section c) TagUnpulsed
                     end) candidates in
  if (List.length filtered =? 0)%nat then
    let any := filter (fun c => tag_eqb (section c) TagNone) candidates in
    match sec with
    | Totals =>
        let totalsScore c := pathScore (pathLower c) TOTALS_PATH_HINTS in
        let byTotals := sort (fun a b => (totalsScore b - totalsScore a)%Z) candidates in
        hd_error byTotals
    | Unpulsed =>
        let unpulsedScore c := pathScore (pathLower c) UNPULSED_PATH_HINTS in
        let byUnpulsed := sort (fun a b => (unpulsedScore b - unpulsedScore a)%Z) candidates in
        hd_error byUnpulsed
    end
  else
    let hints := match sec with
                 | Totals => TOTALS_PATH_HINTS
                 | Unpulsed => UNPULSED_PATH_HINTS
                 end in
    hd_error (sort (fun a b => (pathScore (pathLower b) hints
                                - pathScore (pathLower a) hints)%Z) filtered).

(** The four-field record of [extractSection]; [None] is [null]. *)
Record CounterSet : Type := mkCounterSet {
  cs_keys : option number;
  cs_clicks : option number;
  cs_scrolls : option number;
  cs_uptimeSeconds : option number
}.

Definition setField (r : CounterSet) (f : NumericField) (v : number) : CounterSet :=
  match f with
  | keys => mkCounterSet (Some v) (cs_clicks r) (cs_scrolls r) (cs_uptimeSeconds r)
  | clicks => mkCounterSet (cs_keys r) (Some v) (cs_scrolls r) (cs_uptimeSeconds r)
  | scrolls => mkCounterSet (cs_keys r) (cs_clicks r) (Some v) (cs_uptimeSeconds r)
  | uptimeSeconds => mkCounterSet (cs_keys r) (cs_clicks r) (cs_scrolls r) (Some v)
  end.

Definition extractSection (data : json) (sec : SectionName) : CounterSet :=
  fold_left
    (fun result field =>
       let acc := collectCandidates data "" "" field (FIELD_PATTERNS field) [] in
       match pickBest acc sec with
       | Some best => setField result field (value best)
       | None => result
       end)
    fields (mkCounterSet None None None None).

Definition fieldName (f : NumericField) : string :=
  match f with
  | keys => "keys"
  | clicks => "clicks"
  | scrolls => "scrolls"
  | uptimeSeconds => "uptimeSeconds"
  end.

Record Debug : Type := mkDebug {
  topLevelKeys : list string;
  detectedPaths : list (string * option string)
}.

Record WhatPulseOutput : Type := mkOutput {
  updatedAt : string;
  source : string;
  totals : CounterSet;
  unpulsed : option CounterSet;
  debug : Debug
}.

(** [Object.keys(data)] when [data] is a non-array object, else [[]]. *)
Definition topLevelKeysOf (data : json) : list string :=
  match data with
  | JObject entries => map fst entries
  | _ => []
  end.

Definition detectPaths (data : json) : list (string * option string) :=
  flat_map
    (fun sec =>
       map (fun field =>
              let acc := collectCandidates data "" "" field (FIELD_PATTERNS field) [] in
              let best := pickBest acc sec in
              let key := match sec with
                         | Totals => String.append "totals." (fieldName field)
                         | Unpulsed => String.append "unpulsed." (fieldName field)
                         end in
              (key, option_map path best))
           fields)
    [Totals; Unpulsed].

(** Lines 150-182 of [main]: from the parsed raw capture to the report.
    [parsed.data ?? parsed] throws a [TypeError] when [parsed] is [null]. *)
Definition unwrapData (parsed : json) : option json :=
  match parsed with
  | JNull => None
  | _ => match getProp parsed "data" with
         | None | Some JNull => Some parsed
         | Some d => Some d
         end
  end.

Definition buildOutput (now : string) (data : json) : WhatPulseOutput :=
  let totals := extractSection data Totals in
  let unpulsedSection := extractSection data Unpulsed in
  let hasUnpulsed :=
    match cs_keys unpulsedSection, cs_clicks unpulsedSection,
          cs_scrolls unpulsedSection, cs_uptimeSeconds unpulsedSection with
    | None, None, None, None => false
    | _, _, _, _ => true
    end in
  mkOutput now "whatpulse-client-api" totals
           (if hasUnpulsed then Some unpulsedSection else None)
           (mkDebug (topLevelKeysOf data) (detectPaths data)).

Definition normalize (now : string) (parsed : json) : option WhatPulseOutput :=
  option_map (buildOutput now) (unwrapData parsed).

End WhatPulse.

(* ================================================================== *)
(** ** Thrown exceptions *)

Inductive Result (A : Type) : Type :=
| Ok (a : A)
| Throw (msg : string).

Arguments Ok {A} a.
Arguments Throw {A} msg.

(** Sequencing of computations that may throw. *)
Definition andThen {A B : Type} (r : Result A) (k : A -> Result B) : Result B :=
  match r with
  | Ok a => k a
  | Throw msg => Throw msg
  end.

(* ================================================================== *)
(** ** JSON written out and read back *)

(** The number a finite number reads back as once [JSON.stringify] has
    printed it: itself, but for -0, which is printed as [0]. *)
Definition asWritten (n : number) : number :=
  match n with
  | S754_zero _ => S754_zero false
  | _ => n
  end.

(** [JSON.parse(JSON.stringify(v))] on a value that came out of
    [JSON.parse]: [JSON.stringify] prints a non-finite number as [null]
    and -0 as [0]. *)
Fixpoint stringifyParse (v : json) : json :=
  match v with
  | JNumber n => if isFinite n then JNumber (asWritten n) else JNull
  | JArray items => JArray (map stringifyParse items)
  | JObject entries =>
      JObject (map (fun kv => match kv with (k, x) => (k, stringifyParse x) end) entries)
  | JNull | JBool _ | JString _ => v
  end.

(* ================================================================== *)
(** ** build-weekly.ts: snapshot ledger and weekly delta engine *)

Module Weekly.

Record Counters : Type := mkCounters {
  keys : number;
  clicks : number;
  scrolls : number;
  uptimeSeconds : number
}.

Record Snapshot : Type := mkSnapshot {
  capturedAt : string;
  source : string;
  counters : Counters
}.

(** [toNumber(v)]; the argument is a property read, [None] for [undefined]. *)
Definition toNumber (v : option json) : option number :=
  match v with
  | Some (JNumber n) => if isFinite n then Some n else None
  | _ => None
  end.

(** [a ?? b] on property reads: [b] when [a] is [null] or [undefined]. *)
Definition nullish (a : option json) (b : json) : json :=
  match a with
  | None | Some JNull => b
  | Some v => v
  end.

Definition missingCounters : string :=
  "api/whatpulse.json missing counters. Prefer unpulsed; fallback totals. Need keys, clicks, scrolls, uptimeSeconds.".

(** [getCounters(api)].  Reading a property of [null] is a [TypeError]. *)
Definition getCounters (api : json) : Result Counters :=
  match api with
  | JNull => Throw "TypeError: Cannot read properties of null"
  | _ =>
      let prefer :=
        nullish (getProp api "unpulsed") (nullish (getProp api "totals") (JObject [])) in
      let keys := toNumber (getProp prefer "keys") in
      let clicks := toNumber (getProp prefer "clicks") in
      let scrolls := toNumber (getProp prefer "scrolls") in
      let uptimeSeconds := toNumber (getProp prefer "uptimeSeconds") in
      match keys, clicks, scrolls, uptimeSeconds with
      | Some k, Some c, Some s, Some u => Ok (mkCounters k c s u)
      | _, _, _, _ => Throw missingCounters
      end
  end.

(** The literal [0]. *)
Definition zero : number := S754_zero false.

(** [a - b] on numbers: binary64 subtraction, rounded to nearest even. *)
Definition minus (a b : number) : number := SFsub 53 1024 a b.

(** [Math.max(a, b)]: NaN when either argument is NaN; of two zeros, +0
    is the larger. *)
Definition Math_max (a b : number) : number :=
  match SFcompare a b with
  | None => S754_nan
  | Some Lt => b
  | Some Gt => a
  | Some Eq => match a with
               | S754_zero true => b
               | _ => a
               end
  end.

(** The objects [main] builds: [{ keys, clicks, scrolls, uptimeSeconds }]
    and [{ capturedAt, source, counters }], as JSON values. *)
Definition countersJson (c : Counters) : json :=
  JObject [("keys", JNumber (keys c));
           ("clicks", JNumber (clicks c));
           ("scrolls", JNumber (scrolls c));
           ("uptimeSeconds", JNumber (uptimeSeconds c))].

Definition snapshotJson (s : Snapshot) : json :=
  JObject [("capturedAt", JString (capturedAt s));
           ("source", JString (source s));
           ("counters", countersJson (counters s))].

(** The object written to [api/whatpulse-weekly.json], as [main] builds
    it. *)
Record WeeklyOutput : Type := mkWeekly {
  w_updatedAt : string;
  w_source : string;
  w_window : string;
  range : option string;
  w_counters : option Counters;
  note : option string
}.

(** *** The three files [main] touches *)

(** [api/whatpulse.json], by what [readFile] and [JSON.parse] make of it. *)
Inductive ApiFile : Type :=
| ApiMissing                       (* readFile fails with ENOENT *)
| ApiUnreadable (err : string)     (* readFile fails otherwise *)
| ApiNotJson (text : string)       (* JSON.parse throws *)
| ApiJson (api : json).

(** [raw-data/whatpulse-weekly-snapshots.json].  The entries of an array
    are whatever JSON values the file holds: the source casts the parsed
    array to [Snapshot[]] without looking at them. *)
Inductive LedgerFile : Type :=
| LedgerMissing                    (* readFile fails *)
| LedgerNotJson (text : string)    (* JSON.parse throws *)
| LedgerNotArray (text : string)   (* valid JSON, Array.isArray is false *)
| LedgerArray (entries : list json).

Record Files : Type := mkFiles {
  apiFile : ApiFile;
  snapshotsFile : LedgerFile;
  weeklyFile : option WeeklyOutput
}.

(** *** A state-and-exception monad over the files *)

Definition Run (A : Type) : Type := Files -> Result A * Files.

Definition ret {A : Type} (a : A) : Run A := fun fs => (Ok a, fs).

Definition throw {A : Type} (msg : string) : Run A := fun fs => (Throw msg, fs).

Definition bind {A B : Type} (m : Run A) (k : A -> Run B) : Run B :=
  fun fs =>
    match m fs with
    | (Ok a, fs') => k a fs'
    | (Throw msg, fs') => (Throw msg, fs')
    end.

Definition lift {A : Type} (r : Result A) : Run A := fun fs => (r, fs).

Declare Scope run_scope.
Delimit Scope run_scope with run.
Notation "x <- m ;; k" := (bind m (fun x => k))
  (at level 61, m at next level, right associativity) : run_scope.
Notation "m ;; k" := (bind m (fun _ => k))
  (at level 61, right associativity) : run_scope.

Local Open Scope run_scope.

(** Lines 57-72: read and parse [api/whatpulse.json]. *)
Definition readApi : Run json :=
  fun fs =>
    match apiFile fs with
    | ApiMissing => (Throw "api/whatpulse.json not found. Run whatpulse:build first.", fs)
    | ApiUnreadable err => (Throw err, fs)
    | ApiNotJson _ => (Throw "api/whatpulse.json is not valid JSON.", fs)
    | ApiJson api => (Ok api, fs)
    end.

(** Lines 82-89: the ledger as read, [[]] unless the file holds an array. *)
Definition readSnapshots : Run (list json) :=
  fun fs =>
    match snapshotsFile fs with
    | LedgerArray parsed => (Ok parsed, fs)
    | LedgerMissing | LedgerNotJson _ | LedgerNotArray _ => (Ok [], fs)
    end.

(** [writeFile(snapshotsPath, JSON.stringify(snapshots, ...))]: the file
    then holds the array as it reads back. *)
Definition writeSnapshots (snapshots : list json) : Run unit :=
  fun fs =>
    (Ok tt, mkFiles (apiFile fs) (LedgerArray (map stringifyParse snapshots))
                    (weeklyFile fs)).

Definition writeWeekly (output : WeeklyOutput) : Run unit :=
  fun fs => (Ok tt, mkFiles (apiFile fs) (snapshotsFile fs) (Some output)).

(** Lines 82-93: push the snapshot and write the ledger back. *)
Definition appendSnapshot (snapshot : Snapshot) : Run (list json) :=
  loaded <- readSnapshots ;;
  let snapshots := loaded ++ [snapshotJson snapshot] in
  writeSnapshots snapshots ;;
  ret snapshots.

(** [v.k] for a value [v] that may be [undefined] ([None]): a [TypeError]
    when [v] is [undefined] or [null]. *)
Definition readProp (v : option json) (k : string) : Result (option json) :=
  match v with
  | None => Throw "TypeError: Cannot read properties of undefined"
  | Some JNull => Throw "TypeError: Cannot read properties of null"
  | Some obj => Ok (getProp obj k)
  end.

Definition notEnoughHistory : string :=
  "Not enough history yet. Run again next week to compute deltas.".

Section Coercions.

(** What a template literal makes of a value that is not a string, and
    what a subtraction makes of an operand that is not a number. *)
Variable ToStringOther : option json -> string.
Variable ToNumberOther : option json -> number.

Definition toStr (v : option json) : string :=
  match v with
  | Some (JString s) => s
  | _ => ToStringOther v
  end.

Definition toNum (v : option json) : number :=
  match v with
  | Some (JNumber n) => n
  | _ => ToNumberOther v
  end.

(** [delta(prev, current)], on the values it is called with: each field is
    [Math.max(0, current.f - prev.f)], and reading a field of an
    [undefined] or [null] argument throws. *)
Definition delta (prev current : option json) : Result Counters :=
  let field (f : string) : Result number :=
    andThen (readProp current f) (fun c =>
    andThen (readProp prev f) (fun p =>
    Ok (Math_max zero (minus (toNum c) (toNum p))))) in
  andThen (field "keys") (fun keys =>
  andThen (field "clicks") (fun clicks =>
  andThen (field "scrolls") (fun scrolls =>
  andThen (field "uptimeSeconds") (fun uptimeSeconds =>
  Ok (mkCounters keys clicks scrolls uptimeSeconds))))).

(** Lines 95-129: the weekly record for the ledger as just written.
    [prev] and [current] are [snapshots[length - 2]] and
    [snapshots[length - 1]], [undefined] when out of range. *)
Definition emitWeekly (capturedAt : string) (snapshots : list json) : Run unit :=
  let updatedAt := capturedAt in
  let source := "whatpulse-client-api" in
  let window := "weekly" in
  if (List.length snapshots <? 2)%nat then
    writeWeekly (mkWeekly updatedAt source window None None (Some notEnoughHistory))
  else
    let prev := nth_error snapshots (List.length snapshots - 2) in
    let current := nth_error snapshots (List.length snapshots - 1) in
    prevAt <- lift (readProp prev "capturedAt") ;;
    currentAt <- lift (readProp current "capturedAt") ;;
    let range := (toStr prevAt ++ "/" ++ toStr currentAt)%string in
    prevCounters <- lift (readProp prev "counters") ;;
    currentCounters <- lift (readProp current "counters") ;;
    countersDelta <- lift (delta prevCounters currentCounters) ;;
    writeWeekly (mkWeekly updatedAt source window (Some range) (Some countersDelta) None).

Definition main (now : string) : Run unit :=
  api <- readApi ;;
  counters <- lift (getCounters api) ;;
  let capturedAt := now in
  let snapshot := mkSnapshot capturedAt "whatpulse-client-api" counters in
  snapshots <- appendSnapshot snapshot ;;
  emitWeekly capturedAt snapshots.

End Coercions.

End Weekly.

(* ================================================================== *)
(** ** Raw snapshot fetcher: the diagnostic snippet *)

Module Fetch.

(** [safeSnippet(text, maxLen = 200)] *)
Definition safeSnippet (text : string) (maxLen : nat) : string :=
  let s := trim text in
  if (String.length s <=? maxLen)%nat then s
  else (slice0 maxLen s ++ "...")%string.

(** The call sites pass no [maxLen]. *)
Definition snippet (responseText : string) : string := safeSnippet responseText 200.

End Fetch.

(* ================================================================== *)
(** ** Process outcomes and the raw capture file *)

(** How a script ends: normally, with what it logged to the standard
    stream, or through [process.exit(1)], with what it logged to the error
    stream. *)
Inductive Outcome : Type :=
| Exit0 (stdout : list string)
| Exit1 (stderr : list string).

(** [raw-data/whatpulse-raw.json], by what [readFile] and [JSON.parse] make
    of it. *)
Inductive RawFile : Type :=
| RawMissing                       (* readFile fails with ENOENT *)
| RawUnreadable (err : string)     (* readFile fails otherwise *)
| RawNotJson (text : string)       (* JSON.parse throws *)
| RawJson (parsed : json).

(* ================================================================== *)
(** ** The raw snapshot fetcher: [main] *)

Module FetchRaw.

(** What [fetch(url)] and [res.text()] deliver; the body by what
    [JSON.parse] makes of it. *)
Inductive Body : Type :=
| BodyNotJson (text : string)
| BodyJson (text : string) (data : json).

Definition bodyText (b : Body) : string :=
  match b with
  | BodyNotJson text => text
  | BodyJson text _ => text
  end.

Inductive FetchResult : Type :=
| Rejected (message : string)
| Response (ok : bool) (status : nat) (statusText : string) (body : Body).

(** [(process.env.WHATPULSE_BASE_URL || 'http://localhost:3490').replace(/\/$/, '')]
    followed by [/v1/all-stats]. *)
Definition requestUrl (env : option string) : string :=
  let configured :=
    match env with
    | None | Some EmptyString => "http://localhost:3490"
    | Some base => base
    end in
  (stripTrailingSlash configured ++ "/v1/all-stats")%string.

(** The object written to the raw capture file, as it reads back. *)
Definition rawOutput (now : string) (data : json) : json :=
  JObject [("_fetchedAt", JString now);
           ("_source", JString "whatpulse-client-api");
           ("data", data)].

Definition main (now : string) (res : FetchResult) (rawFile : RawFile)
  : Outcome * RawFile :=
  match res with
  | Rejected message => (Exit1 [("Fatal error: " ++ message)%string], rawFile)
  | Response ok status statusText body =>
      let responseText := bodyText body in
      if negb ok then
        (Exit1 [("WhatPulse request failed: HTTP " ++ ofIndex status ++ " "
                 ++ statusText ++ ".")%string;
                ("Response snippet (no secrets): "
                 ++ Fetch.safeSnippet responseText 200)%string],
         rawFile)
      else
        match body with
        | BodyNotJson _ =>
            (Exit1 ["WhatPulse response was not valid JSON.";
                    ("Response snippet: " ++ Fetch.safeSnippet responseText 200)%string],
             rawFile)
        | BodyJson _ data =>
            (Exit0 ["Wrote raw-data/whatpulse-raw.json"],
             RawJson (stringifyParse (rawOutput now data)))
        end
  end.

End FetchRaw.

(* ================================================================== *)
(** ** build-whatpulse.ts: [main] *)

Module BuildWhatPulse.

(** Lines 126-188.  The second component is [api/whatpulse.json] after the
    run: [Some] report when it was written, the previous content otherwise. *)
Definition main (now : string) (rawFile : RawFile)
    (apiFile : option WhatPulse.WhatPulseOutput)
  : Outcome * option WhatPulse.WhatPulseOutput :=
  match rawFile with
  | RawMissing =>
      (Exit1 ["raw-data/whatpulse-raw.json not found. Run whatpulse:fetch first."],
       apiFile)
  | RawUnreadable err =>
      (Exit1 [("Failed to read raw-data/whatpulse-raw.json: " ++ err)%string], apiFile)
  | RawNotJson _ =>
      (Exit1 ["raw-data/whatpulse-raw.json is not valid JSON."], apiFile)
  | RawJson parsed =>
      match WhatPulse.normalize now parsed with
      | None =>
          (Exit1 ["Fatal error: Cannot read properties of null (reading 'data')"],
           apiFile)
      | Some output => (Exit0 ["Wrote api/whatpulse.json"], Some output)
      end
  end.

End BuildWhatPulse.

(* ================================================================== *)
(** ** The location script: [extractCity] and [countryCodeToFlag] *)

Module Location.

Record NominatimAddress : Type := mkAddress {
  city : option string;
  town : option string;
  village : option string;
  municipality : option string;
  county : option string;
  country : option string;
  country_code : option string
}.

(** [a || b] on optional strings: [a] unless it is [undefined] or empty. *)
Definition orElse (a b : option string) : option string :=
  match a with
  | None | Some EmptyString => b
  | Some _ => a
  end.

(** [extractCity(address)] *)
Definition extractCity (address : option NominatimAddress) : option string :=
  match address with
  | None => None
  | Some address =>
      orElse (city address)
        (orElse (town address)
           (orElse (village address)
              (orElse (municipality address)
                 (orElse (county address) None))))
  end.

(** [String.fromCodePoint(...codePoints)]: a [RangeError] outside
    [0 .. 0x10FFFF]; the resulting string is kept as its code points. *)
Definition fromCodePoint (codePoints : list Z) : option (list Z) :=
  if forallb (fun cp => (0 <=? cp)%Z && (cp <=? 1114111)%Z) codePoints
  then Some codePoints
  else None.

Definition charCode (c : ascii) : Z := Z.of_nat (nat_of_ascii c).

(** [countryCodeToFlag(countryCode)]; the flag as its code points.
    [code.split('')] is the list of code units of the upper-cased code. *)
Definition countryCodeToFlag (countryCode : option string) : option (list Z) :=
  match countryCode with
  | None | Some EmptyString => None
  | Some countryCode =>
      if negb (String.length countryCode =? 2)%nat then None
      else
        let code := toUpperCaseUnits countryCode in
        let base := 127462%Z in   (* 0x1F1E6, Regional Indicator Symbol Letter A *)
        let codePoints :=
          map (fun char => (base + (char - charCode "A"))%Z) code in
        fromCodePoint codePoints
  end.

End Location.

(* ================================================================== *)
(** ** build-age.ts: [calculateTimeToNextBirthday] *)

Module Age.

Record Countdown : Type := mkCountdown {
  days : Z;
  hours : Z;
  minutes : Z;
  seconds : Z
}.

(** [calculateTimeToNextBirthday(nextBirthday)]; both dates by their
    [getTime()], in milliseconds; [now] is [new Date()]. *)
Definition calculateTimeToNextBirthday (now nextBirthday : Z) : Countdown :=
  let diffMs := Z.max 0 (nextBirthday - now) in
  {| days := diffMs / (24 * 60 * 60 * 1000);
     hours := Z.rem diffMs (24 * 60 * 60 * 1000) / (60 * 60 * 1000);
     minutes := Z.rem diffMs (60 * 60 * 1000) / (60 * 1000);
     seconds := Z.rem diffMs (60 * 1000) / 1000 |}%Z.

End Age.

(* ================================================================== *)
(** ** Vocabulary of the properties *)

(** The numeric leaves of a document.  [Leaf obj path pl n p q]: walking
    [obj] from the path [path] (lower-cased form [pl]) reaches the number
    [n] at path [p], whose lower-cased form is [q]. *)
Inductive Leaf : json -> string -> string -> number -> string -> string -> Prop :=
| Leaf_number n path pl :
    Leaf (JNumber n) path pl n path pl
| Leaf_item items i item path pl n p q :
    nth_error items i = Some item ->
    Leaf item (path ++ "/" ++ ofIndex i)%string pl n p q ->
    Leaf (JArray items) path pl n p q
| Leaf_entry entries k v path pl n p q :
    In (k, v) entries ->
    Leaf v (WhatPulse.nextPath path k) (WhatPulse.nextLower pl k) n p q ->
    Leaf (JObject entries) path pl n p q.

(** The last segment of a slash-delimited path. *)
Definition LastSegment (p seg : string) : Prop :=
  (p = seg \/ exists pre, p = (pre ++ "/" ++ seg)%string) /\ ~ Substring "/" seg.

(** [c] is the first element of [l] on which [f] is largest: what heads
    a stable sort of [l] by descending [f]. *)
Definition FirstMax {A : Type} (f : A -> Z) (l : list A) (c : A) : Prop :=
  exists pre post,
    l = pre ++ c :: post /\
    (forall x, In x pre -> (f x < f c)%Z) /\
    (forall x, In x post -> (f x <= f c)%Z).

Definition hintsOf (sec : WhatPulse.SectionName) : list string :=
  match sec with
  | WhatPulse.Totals => WhatPulse.TOTALS_PATH_HINTS
  | WhatPulse.Unpulsed => WhatPulse.UNPULSED_PATH_HINTS
  end.

Definition tagOf (sec : WhatPulse.SectionName) : WhatPulse.SectionTag :=
  match sec with
  | WhatPulse.Totals => WhatPulse.TagTotals
  | WhatPulse.Unpulsed => WhatPulse.TagUnpulsed
  end.

Definition otherSection (sec : WhatPulse.SectionName) : WhatPulse.SectionName :=
  match sec with
  | WhatPulse.Totals => WhatPulse.Unpulsed
  | WhatPulse.Unpulsed => WhatPulse.Totals
  end.

(** The fallback of [pickBest] as the specification words it: the
    candidates tagged ['none'], ranked against the other section's hints. *)
Definition specFallback (candidates : list WhatPulse.Candidate)
    (sec : WhatPulse.SectionName) : option WhatPulse.Candidate :=
  let score c := WhatPulse.pathScore (WhatPulse.pathLower c) (hintsOf (otherSection sec)) in
  hd_error
    (WhatPulse.sort (fun a b => (score b - score a)%Z)
       (filter (fun c => WhatPulse.tag_eqb (WhatPulse.section c) WhatPulse.TagNone)
          candidates)).

(** All four counters are finite numbers. *)
Definition finiteCounters (c : Weekly.Counters) : Prop :=
  isFinite (Weekly.keys c) = true /\ isFinite (Weekly.clicks c) = true
  /\ isFinite (Weekly.scrolls c) = true /\ isFinite (Weekly.uptimeSeconds c) = true.

(** A section of the normalized report yields the four counters [c]: it
    is present and holds the four fields as finite numbers. *)
Definition Resolves (sec : option json) (c : Weekly.Counters) : Prop :=
  exists j,
    sec = Some j /\
    getProp j "keys" = Some (JNumber (Weekly.keys c)) /\
    getProp j "clicks" = Some (JNumber (Weekly.clicks c)) /\
    getProp j "scrolls" = Some (JNumber (Weekly.scrolls c)) /\
    getProp j "uptimeSeconds" = Some (JNumber (Weekly.uptimeSeconds c)) /\
    finiteCounters c.

Definition Unresolvable (sec : option json) : Prop :=
  forall c, ~ Resolves sec c.

(** The entries a ledger file stands for: those of the array it holds,
    none when it is missing or holds anything else. *)
Definition validSnapshots (f : Weekly.LedgerFile) : list json :=
  match f with
  | Weekly.LedgerArray l => l
  | _ => []
  end.

(** A number as binary64 has it: a finite one has a canonical mantissa
    and an exponent in range. *)
Definition validNumber (n : number) : Prop := valid_binary 53 1024 n = true.

(** The difference of two readings as the specification writes it,
    [max(0, current - prev)], in the arithmetic of the program. *)
Definition clampedDifference (prev current : number) : number :=
  Weekly.Math_max Weekly.zero (Weekly.minus current prev).

(** *** Paths through a document *)

Inductive Segment : Type :=
| Key (k : string)
| Index (i : nat).

(** Following the segments from a document reaches a number. *)
Inductive Walk : json -> list Segment -> number -> Prop :=
| Walk_here n :
    Walk (JNumber n) [] n
| Walk_index items i item segs n :
    nth_error items i = Some item ->
    Walk item segs n ->
    Walk (JArray items) (Index i :: segs) n
| Walk_key entries k v segs n :
    In (k, v) entries ->
    Walk v segs n ->
    Walk (JObject entries) (Key k :: segs) n.

(** The path of a walk that starts at [path]: keys and indices joined
    with "/", a first key standing alone. *)
Fixpoint renderPath (path : string) (segs : list Segment) : string :=
  match segs with
  | [] => path
  | Key k :: rest =>
      renderPath (match path with
                  | EmptyString => k
                  | _ => path ++ "/" ++ k
                  end)%string rest
  | Index i :: rest => renderPath (path ++ "/" ++ ofIndex i)%string rest
  end.

(** The keys of a walk, each lower-cased, stripped of its whitespace and
    preceded by "/"; array indices are left out. *)
Fixpoint normalisedKeys (segs : list Segment) : string :=
  match segs with
  | [] => EmptyString
  | Key k :: rest =>
      ("/" ++ removeWhitespace (toLowerCase k) ++ normalisedKeys rest)%string
  | Index _ :: rest => normalisedKeys rest
  end.

(** *** One choice of the implicit conversions *)

Definition sampleToString (v : option json) : string := "undefined".
Definition sampleToNumber (v : option json) : number := S754_nan.

(** *** Inputs of the scenarios *)

(** End-to-end scenario A: the telemetry document and its raw capture. *)
Definition dataA : json :=
  JObject [("stats", JObject [("totals", JObject [
    ("keys", JNumber (ofInteger 500)); ("clicks", JNumber (ofInteger 300));
    ("scrolls", JNumber (ofInteger 10)); ("uptime", JNumber (ofInteger 7200))])])].

Definition rawA : json := JObject [("data", dataA)].

(** A candidate tagged ['none']. *)
Definition plainCandidate : WhatPulse.Candidate :=
  WhatPulse.mkCandidate (ofInteger 1) "a/keys" "/a/keys" WhatPulse.TagNone.

(** A document whose section key is written with a capital and a space. *)
Definition spacedKeyDocument : json :=
  JObject [("Un Pulsed", JObject [("keys", JNumber (ofInteger 5))])].

(** A document whose section key is written in capitals. *)
Definition capitalKeyDocument : json :=
  JObject [("Account TOTALS", JObject [("Keys", JNumber (ofInteger 7))])].

(** A report with [totals] all-null and [unpulsed] null. *)
Definition unresolvedReport : json :=
  JObject [("updatedAt", JString "2026-02-17T01:06:52.822Z");
           ("source", JString "whatpulse-client-api");
           ("totals", JObject [("keys", JNull); ("clicks", JNull);
                               ("scrolls", JNull); ("uptimeSeconds", JNull)]);
           ("unpulsed", JNull)].

(** A report whose [unpulsed] is null and whose [totals] is resolved. *)
Definition resolvedReport : json :=
  JObject [("totals", JObject [("keys", JNumber (ofInteger 150));
                               ("clicks", JNumber (ofInteger 150));
                               ("scrolls", JNumber (ofInteger 150));
                               ("uptimeSeconds", JNumber (ofInteger 150))]);
           ("unpulsed", JNull)].

Definition snapshotT1 : Weekly.Snapshot :=
  Weekly.mkSnapshot "t1" "whatpulse-client-api"
    (Weekly.mkCounters (ofInteger 100) (ofInteger 100) (ofInteger 100) (ofInteger 100)).

(** A report whose [totals] is resolved and whose [unpulsed] lacks a field. *)
Definition partialUnpulsedReport : json :=
  JObject [("totals", JObject [("keys", JNumber (ofInteger 150));
                               ("clicks", JNumber (ofInteger 150));
                               ("scrolls", JNumber (ofInteger 150));
                               ("uptimeSeconds", JNumber (ofInteger 150))]);
           ("unpulsed", JObject [("keys", JNumber (ofInteger 7));
                                 ("clicks", JNumber (ofInteger 2));
                                 ("scrolls", JNull);
                                 ("uptimeSeconds", JNumber (ofInteger 60))])].

(** A response body of 201 characters. *)
Definition longBody : string := String.concat "" (repeat "a" 201).

(** *** Reading the report *)

(** One field of a counter record. *)
Definition getField (r : WhatPulse.CounterSet) (f : WhatPulse.NumericField)
  : option number :=
  match f with
  | WhatPulse.keys => WhatPulse.cs_keys r
  | WhatPulse.clicks => WhatPulse.cs_clicks r
  | WhatPulse.scrolls => WhatPulse.cs_scrolls r
  | WhatPulse.uptimeSeconds => WhatPulse.cs_uptimeSeconds r
  end.

(** The key of one lookup in [debug.detectedPaths]. *)
Definition pathKey (sec : WhatPulse.SectionName) (f : WhatPulse.NumericField) : string :=
  match sec with
  | WhatPulse.Totals => String.append "totals." (WhatPulse.fieldName f)
  | WhatPulse.Unpulsed => String.append "unpulsed." (WhatPulse.fieldName f)
  end.

(** [record[key]]; [None] when the key is absent. *)
Fixpoint lookupPath (key : string) (record : list (string * option string))
  : option (option string) :=
  match record with
  | [] => None
  | (k, v) :: rest => if String.eqb key k then Some v else lookupPath key rest
  end.

(** The score [pickBest] ranks a candidate by when [sec] is requested. *)
Definition hintScore (sec : WhatPulse.SectionName) (c : WhatPulse.Candidate) : Z :=
  WhatPulse.pathScore (WhatPulse.pathLower c) (hintsOf sec).

(** An optional string that [||] skips: [undefined] or empty. *)
Definition blank (s : option string) : Prop := s = None \/ s = Some EmptyString.

(** *** Character classes *)

Definition isDigit (c : ascii) : bool :=
  let n := nat_of_ascii c in ((48 <=? n) && (n <=? 57))%nat.

Definition isAsciiLetter (c : ascii) : bool :=
  let n := nat_of_ascii c in
  (((65 <=? n) && (n <=? 90)) || ((97 <=? n) && (n <=? 122)))%nat.

Fixpoint allChars (p : ascii -> bool) (s : string) : bool :=
  match s with
  | EmptyString => true
  | String c s' => p c && allChars p s'
  end.

(** The capital of an ASCII letter. *)
Definition capital (c : ascii) : ascii :=
  let n := nat_of_ascii c in
  if ((97 <=? n) && (n <=? 122))%nat then ascii_of_nat (n - 32) else c.

(** The position of a letter in the alphabet, from 0. *)
Definition letterIndex (c : ascii) : Z :=
  (Location.charCode (capital c) - 65)%Z.

(** The sharp s, the one code unit below 256 whose capital is two code
    units long. *)
Definition isSharpS (c : ascii) : bool := (nat_of_ascii c =? 223)%nat.

Fixpoint countChars (p : ascii -> bool) (s : string) : nat :=
  match s with
  | EmptyString => 0
  | String c s' => (if p c then 1 else 0) + countChars p s'
  end.

(** A country code that lengthens in upper case: sharp s, then "a". *)
Definition sharpSCode : string :=
  String (ascii_of_nat 223) (String (ascii_of_nat 97) EmptyString).

(** *** Numbers *)

(** A result that is a zero of either sign, a negative number or the
    negative infinity. *)
Definition nonPositive (r : number) : Prop :=
  match r with
  | S754_zero _ | S754_finite true _ _ | S754_infinity true => True
  | _ => False
  end.

(** The three shapes a rounded result of sign [s] can take. *)
Definition roundedWithSign (s : bool) (r : number) : Prop :=
  r = S754_zero s \/ r = S754_infinity s \/ exists m e, r = S754_finite s m e.

(** The integers every one of which is a binary64 number: those below
    2^53. *)
Definition safeCount (z : Z) : Prop := (0 <= z < 2 ^ 53)%Z.

(** The mantissa of the positive integer [n] as a binary64 number: [n]
    shifted up to 53 binary digits. *)
Definition normalMantissa (n : positive) : positive :=
  Z.to_pos (Zpos n * 2 ^ (53 - Zpos (digits2_pos n))).

(** A document without any -0 in it. *)
Fixpoint noNegativeZero (v : json) : bool :=
  match v with
  | JNumber (S754_zero true) => false
  | JArray items => forallb noNegativeZero items
  | JObject entries =>
      forallb (fun kv => match kv with (_, x) => noNegativeZero x end) entries
  | _ => true
  end.

(** *** Counter sets and ledger entries *)

(** The reading of one counter in a counter set. *)
Definition counterOf (f : WhatPulse.NumericField) (c : Weekly.Counters) : number :=
  match f with
  | WhatPulse.keys => Weekly.keys c
  | WhatPulse.clicks => Weekly.clicks c
  | WhatPulse.scrolls => Weekly.scrolls c
  | WhatPulse.uptimeSeconds => Weekly.uptimeSeconds c
  end.

Definition validCounters (c : Weekly.Counters) : Prop :=
  validNumber (Weekly.keys c) /\ validNumber (Weekly.clicks c)
  /\ validNumber (Weekly.scrolls c) /\ validNumber (Weekly.uptimeSeconds c).

Definition zeroCounters : Weekly.Counters :=
  Weekly.mkCounters Weekly.zero Weekly.zero Weekly.zero Weekly.zero.

(** The delta of two counter sets as the specification writes it. *)
Definition clampedDifferences (prev current : Weekly.Counters) : Weekly.Counters :=
  Weekly.mkCounters
    (clampedDifference (Weekly.keys prev) (Weekly.keys current))
    (clampedDifference (Weekly.clicks prev) (Weekly.clicks current))
    (clampedDifference (Weekly.scrolls prev) (Weekly.scrolls current))
    (clampedDifference (Weekly.uptimeSeconds prev) (Weekly.uptimeSeconds current)).

(** Counter sets of integers. *)
Definition integerCounters (k c s u : Z) : Weekly.Counters :=
  Weekly.mkCounters (ofInteger k) (ofInteger c) (ofInteger s) (ofInteger u).

Definition safeCounters (k c s u : Z) : Prop :=
  safeCount k /\ safeCount c /\ safeCount s /\ safeCount u.

(** The counters a snapshot holds once it is read back from the ledger
    file. *)
Definition countersAsWritten (c : Weekly.Counters) : Weekly.Counters :=
  Weekly.mkCounters (asWritten (Weekly.keys c)) (asWritten (Weekly.clicks c))
                    (asWritten (Weekly.scrolls c)) (asWritten (Weekly.uptimeSeconds c)).

(** Counters that read back from the ledger file as they were written:
    finite, and none of them -0. *)
Definition readBackUnchanged (c : Weekly.Counters) : Prop :=
  finiteCounters c /\ countersAsWritten c = c.

(** The snapshot a run at [now] makes of the counters [c]. *)
Definition snapshotAt (now : string) (c : Weekly.Counters) : json :=
  Weekly.snapshotJson (Weekly.mkSnapshot now "whatpulse-client-api" c).


(* ================================================================== *)
(** ** Facts about the string primitives *)

Section StringFacts.

Local Open Scope string_scope.

Lemma prefix_spec (p s : string) :
  String.prefix p s = true <-> exists post, s = p ++ post.
Proof.
  revert s; induction p as [|a p IH]; intros s.
  - split; [intros _; now exists s | intros _; destruct s; reflexivity].
  - destruct s as [|b s]; simpl.
    + split; [discriminate | intros [post H]; discriminate].
    + destruct (ascii_dec a b) as [->|Hne].
      * rewrite IH. split; intros [post H]; exists post.
        -- now rewrite H.
        -- now injection H.
      * split; [discriminate | intros [post H]; injection H; congruence].
Qed.

Lemma includes_unfold (s p : string) :
  includes s p =
  if String.prefix p s then true
  else match s with
       | EmptyString => false
       | String _ s' => includes s' p
       end.
Proof. destruct s; reflexivity. Qed.

Lemma includes_spec (s p : string) :
  includes s p = true <-> Substring p s.
Proof.
  split.
  - induction s as [|c s IH]; rewrite includes_unfold;
      destruct (String.prefix p _) eqn:Hp.
    + intros _. apply prefix_spec in Hp as [post ->]. now exists "", post.
    + discriminate.
    + intros _. apply prefix_spec in Hp as [post ->]. now exists "", post.
    + intros H. destruct (IH H) as (pre & post & ->).
      now exists (String c pre), post.
  - intros (pre & post & ->).
    induction pre as [|c pre IH]; rewrite includes_unfold.
    + replace (String.prefix p ("" ++ p ++ post)) with true; [reflexivity|].
      symmetry. apply prefix_spec. now exists post.
    + destruct (String.prefix p _); [reflexivity | exact IH].
Qed.

Lemma split_not_nil (sep : ascii) (s : string) : split sep s <> [].
Proof.
  induction s as [|c s IH]; simpl; [discriminate|].
  destruct (Ascii.eqb c sep); [discriminate|].
  destruct (split sep s); discriminate.
Qed.

Lemma split_app_sep (sep : ascii) (pre rest : string) :
  split sep (pre ++ String sep rest) = (split sep pre ++ split sep rest)%list.
Proof.
  induction pre as [|c pre IH]; simpl.
  - now rewrite Ascii.eqb_refl.
  - destruct (Ascii.eqb c sep); [now rewrite IH|].
    rewrite IH. pose proof (split_not_nil sep pre) as Hne.
    destruct (split sep pre); [contradiction | reflexivity].
Qed.

(** A string without the separator is a single segment. *)
Lemma split_no_sep (sep : ascii) (seg : string) :
  ~ Substring (String sep "") seg -> split sep seg = [seg].
Proof.
  induction seg as [|c seg IH]; intros Hno; simpl; [reflexivity|].
  destruct (Ascii.eqb_spec c sep) as [->|Hne].
  - exfalso. apply Hno. now exists "", seg.
  - rewrite IH; [reflexivity|].
    intros (pre & post & ->). apply Hno. now exists (String c pre), post.
Qed.

Lemma pop_snoc (l : list string) (x : string) : pop (l ++ [x]) = Some x.
Proof. unfold pop. now rewrite rev_app_distr. Qed.

Lemma length_slice0 (n : nat) (s : string) :
  String.length (slice0 n s) = Nat.min n (String.length s).
Proof.
  unfold slice0. revert s; induction n as [|n IH]; intros s.
  - destruct s; reflexivity.
  - destruct s as [|c s]; simpl; [reflexivity|]. now rewrite IH.
Qed.

Lemma length_append (a b : string) :
  String.length (a ++ b) = String.length a + String.length b.
Proof. induction a; simpl; [reflexivity | now rewrite IHa]. Qed.

Lemma append_empty_r (s : string) : (s ++ "")%string = s.
Proof. induction s as [|c s IH]; simpl; [reflexivity | now rewrite IH]. Qed.

End StringFacts.

(* ================================================================== *)
(** ** Facts about the locator *)

Section LocatorFacts.

Import WhatPulse.

(** What [collectCandidates] pushes does not depend on what [acc] held. *)
Lemma collectCandidates_acc (obj : json) :
  forall path pl field pats acc,
    collectCandidates obj path pl field pats acc =
    acc ++ collectCandidates obj path pl field pats [].
Proof.
  induction obj as [| b | n | s | items IH | entries IH] using json_rect';
    intros path pl field pats acc; simpl.
  - now rewrite app_nil_r.
  - now rewrite app_nil_r.
  - destruct (isFinite n); [destruct (matchesPatterns _ _)|];
      simpl; now rewrite ?app_nil_r.
  - now rewrite app_nil_r.
  - generalize 0 as i. revert acc.
    induction IH as [|x rest Hx _ IHrest]; intros acc i; simpl.
    + now rewrite app_nil_r.
    + rewrite IHrest. rewrite (IHrest (collectCandidates x _ _ _ _ [])).
      rewrite (Hx _ _ _ _ acc). now rewrite app_assoc.
  - revert acc.
    induction IH as [|[k v] rest Hv _ IHrest]; intros acc; simpl.
    + now rewrite app_nil_r.
    + rewrite IHrest. rewrite (IHrest (collectCandidates v _ _ _ _ [])).
      simpl in Hv. rewrite (Hv _ _ _ _ acc). now rewrite app_assoc.
Qed.

(** A property of freshly built candidates holds of all collected ones. *)
Lemma collectCandidates_Forall (Q : Candidate -> Prop) :
  (forall n p pl, isFinite n = true -> Q (mkCandidate n p pl (sectionOf pl))) ->
  forall obj path pl field pats acc,
    Forall Q acc -> Forall Q (collectCandidates obj path pl field pats acc).
Proof.
  intros HQ obj.
  induction obj as [| b | n | s | items IH | entries IH] using json_rect';
    intros path pl field pats acc Hacc; simpl; try assumption.
  - destruct (isFinite n) eqn:Hfin; [|assumption].
    destruct (matchesPatterns _ _); [|assumption].
    apply Forall_app. split; [assumption|]. constructor; [now apply HQ | constructor].
  - generalize 0 as i. revert acc Hacc.
    induction IH as [|x rest Hx _ IHrest]; intros acc Hacc i; simpl.
    + assumption.
    + apply IHrest. now apply Hx.
  - revert acc Hacc.
    induction IH as [|[k v] rest Hv _ IHrest]; intros acc Hacc; simpl.
    + assumption.
    + apply IHrest. now apply Hv.
Qed.

Lemma forEachFrom_In {A : Type} (F : list Candidate -> A -> nat -> list Candidate)
    (items : list A) :
  (forall acc x i, F acc x i = acc ++ F [] x i) ->
  forall k item c i acc,
    nth_error items k = Some item ->
    In c (F [] item (i + k)) ->
    In c (forEachFrom F items i acc).
Proof.
  intros HF.
  assert (Hmono : forall l i acc c, In c acc -> In c (forEachFrom F l i acc)).
  { induction l as [|x l IHl]; intros i acc c Hc; simpl; [assumption|].
    apply IHl. rewrite HF. apply in_or_app. now left. }
  induction items as [|x rest IHrest]; intros k item c i acc Hk Hc.
  - destruct k; discriminate.
  - destruct k as [|k]; simpl in *.
    + injection Hk as ->. apply Hmono. rewrite HF. apply in_or_app. right.
      now rewrite Nat.add_0_r in Hc.
    + apply (IHrest k item); [assumption|].
      now rewrite Nat.add_succ_r in Hc.
Qed.

Lemma fold_left_In {A : Type} (F : list Candidate -> A -> list Candidate)
    (entries : list A) :
  (forall acc x, F acc x = acc ++ F [] x) ->
  forall x c acc,
    In x entries -> In c (F [] x) -> In c (fold_left F entries acc).
Proof.
  intros HF.
  assert (Hmono : forall l acc c, In c acc -> In c (fold_left F l acc)).
  { induction l as [|y l IHl]; intros acc c Hc; simpl; [assumption|].
    apply IHl. rewrite HF. apply in_or_app. now left. }
  induction entries as [|y rest IHrest]; intros x c acc Hx Hc; [contradiction|].
  simpl. destruct Hx as [->|Hx].
  - apply Hmono. rewrite HF. apply in_or_app. now right.
  - now apply (IHrest x).
Qed.

(** Every finite leaf whose key matches is pushed. *)
Lemma collectCandidates_complete obj path pl n p q :
  Leaf obj path pl n p q ->
  forall field pats,
    isFinite n = true ->
    matchesPatterns (leafKey p) pats = true ->
    In (mkCandidate n p q (sectionOf q))
       (collectCandidates obj path pl field pats []).
Proof.
  induction 1 as [n path pl | items i item path pl n p q Hi _ IH
                 | entries k v path pl n p q Hkv _ IH];
    intros field pats Hfin Hmatch; simpl.
  - rewrite Hfin, Hmatch. now left.
  - apply (forEachFrom_In _ items) with (k := i) (item := item); try assumption.
    + intros acc x j. apply collectCandidates_acc.
    + simpl. now apply IH.
  - apply (fold_left_In _ entries) with (x := (k, v)); try assumption.
    + intros acc [k' v']. apply collectCandidates_acc.
    + now apply IH.
Qed.

Lemma matchesPatterns_spec (key : string) (pats : list string) :
  matchesPatterns key pats = true <->
  exists pat, In pat pats /\ (Substring pat key \/ Substring key pat).
Proof.
  unfold matchesPatterns. rewrite existsb_exists.
  split; intros (pat & Hin & H); exists pat; (split; [assumption|]).
  - apply orb_true_iff in H. now rewrite <- !includes_spec.
  - apply orb_true_iff. now rewrite !includes_spec.
Qed.

Lemma leafKey_spec (p seg : string) :
  LastSegment p seg -> leafKey p = removeWhitespace (toLowerCase seg).
Proof.
  intros [[-> | [pre ->]] Hno]; unfold leafKey.
  - now rewrite (split_no_sep "/" seg Hno).
  - change ("/" ++ seg)%string with (String "/" seg).
    rewrite split_app_sep, (split_no_sep "/" seg Hno), pop_snoc. reflexivity.
Qed.

Lemma sectionOf_spec (pl : string) :
  ((Substring "unpulse" pl \/ Substring "pending" pl) /\ sectionOf pl = TagUnpulsed)
  \/ (~ Substring "unpulse" pl /\ ~ Substring "pending" pl /\ Substring "total" pl
      /\ sectionOf pl = TagTotals)
  \/ (~ Substring "unpulse" pl /\ ~ Substring "pending" pl /\ ~ Substring "total" pl
      /\ sectionOf pl = TagNone).
Proof.
  unfold sectionOf.
  destruct (includes pl "unpulse") eqn:Hu; simpl.
  { left. split; [left; now apply includes_spec | reflexivity]. }
  destruct (includes pl "pending") eqn:Hp; simpl.
  { left. split; [right; now apply includes_spec | reflexivity]. }
  assert (Hnu : ~ Substring "unpulse" pl) by (rewrite <- includes_spec; congruence).
  assert (Hnp : ~ Substring "pending" pl) by (rewrite <- includes_spec; congruence).
  destruct (includes pl "total") eqn:Ht.
  - right; left. repeat split; try assumption. now apply includes_spec.
  - right; right. repeat split; try assumption.
    rewrite <- includes_spec; congruence.
Qed.

Lemma Substring_trans (a b c : string) :
  Substring a b -> Substring b c -> Substring a c.
Proof.
  intros (p1 & q1 & ->) (p2 & q2 & ->).
  exists (p2 ++ p1)%string, (q1 ++ q2)%string.
  induction p2 as [|x p2 IH]; simpl.
  - induction p1 as [|y p1 IH1]; simpl.
    + induction a as [|z a IHa]; simpl; [reflexivity | now rewrite IHa].
    + now rewrite IH1.
  - now rewrite IH.
Qed.

(** What [collectCandidates] pushes are finite leaves whose key matched. *)
Lemma collectCandidates_sound (obj : json) :
  forall path pl field pats acc c,
    In c (collectCandidates obj path pl field pats acc) ->
    In c acc
    \/ (Leaf obj path pl (value c) (WhatPulse.path c) (pathLower c)
        /\ isFinite (value c) = true
        /\ matchesPatterns (leafKey (WhatPulse.path c)) pats = true
        /\ section c = sectionOf (pathLower c)).
Proof.
  induction obj as [| b | n | s | items IH | entries IH] using json_rect';
    intros path pl field pats acc c; simpl; try (now left).
  - destruct (isFinite n) eqn:Hfin; [|now left].
    destruct (matchesPatterns _ _) eqn:Hm; [|now left].
    intros Hc. apply in_app_or in Hc as [Hc | [<- | []]]; [now left|].
    right. simpl. repeat split; try assumption. constructor.
  - intros Hc.
    assert (Hgen : forall rest pre i acc,
               items = pre ++ rest -> i = List.length pre ->
               Forall (fun item => forall path pl field pats acc c,
                         In c (collectCandidates item path pl field pats acc) ->
                         In c acc
                         \/ (Leaf item path pl (value c) (WhatPulse.path c) (pathLower c)
                             /\ isFinite (value c) = true
                             /\ matchesPatterns (leafKey (WhatPulse.path c)) pats = true
                             /\ section c = sectionOf (pathLower c))) rest ->
               In c (forEachFrom
                       (fun acc item i =>
                          collectCandidates item (path ++ "/" ++ ofIndex i) pl
                            field pats acc) rest i acc) ->
               In c acc
               \/ (Leaf (JArray items) path pl (value c) (WhatPulse.path c) (pathLower c)
                   /\ isFinite (value c) = true
                   /\ matchesPatterns (leafKey (WhatPulse.path c)) pats = true
                   /\ section c = sectionOf (pathLower c))).
    { induction rest as [|x rest IHrest]; intros pre i acc0 Hitems Hi Hall Hin;
        simpl in Hin; [now left|].
      inversion Hall as [|? ? Hx Hrest]; subst.
      apply (IHrest (pre ++ [x]) (S (List.length pre))) in Hin;
        [ | now rewrite <- app_assoc | rewrite length_app; simpl; lia | assumption].
      destruct Hin as [Hin | Hin]; [|now right].
      apply Hx in Hin as [Hin | (Hleaf & Hrest')]; [now left|].
      right. split; [|exact Hrest'].
      apply Leaf_item with (i := List.length pre) (item := x); [|exact Hleaf].
      rewrite nth_error_app2 by lia. now rewrite Nat.sub_diag. }
    apply (Hgen items [] 0 acc eq_refl eq_refl IH Hc).
  - intros Hc.
    assert (Hgen : forall rest acc,
               (forall kv, In kv rest -> In kv entries) ->
               Forall (fun kv => forall path pl field pats acc c,
                         In c (collectCandidates (snd kv) path pl field pats acc) ->
                         In c acc
                         \/ (Leaf (snd kv) path pl (value c) (WhatPulse.path c) (pathLower c)
                             /\ isFinite (value c) = true
                             /\ matchesPatterns (leafKey (WhatPulse.path c)) pats = true
                             /\ section c = sectionOf (pathLower c))) rest ->
               In c (fold_left
                       (fun acc kv =>
                          match kv with
                          | (k, v) =>
                              collectCandidates v (nextPath path k) (nextLower pl k)
                                field pats acc
                          end) rest acc) ->
               In c acc
               \/ (Leaf (JObject entries) path pl (value c) (WhatPulse.path c) (pathLower c)
                   /\ isFinite (value c) = true
                   /\ matchesPatterns (leafKey (WhatPulse.path c)) pats = true
                   /\ section c = sectionOf (pathLower c))).
    { induction rest as [|[k v] rest IHrest]; intros acc0 Hsub Hall Hin;
        simpl in Hin; [now left|].
      inversion Hall as [|? ? Hv Hrest]; subst.
      apply IHrest in Hin; [ | intros kv Hkv; apply Hsub; now right | assumption].
      destruct Hin as [Hin | Hin]; [|now right].
      simpl in Hv. apply Hv in Hin as [Hin | (Hleaf & Hrest')]; [now left|].
      right. split; [|exact Hrest'].
      apply Leaf_entry with (k := k) (v := v); [|exact Hleaf].
      apply Hsub. now left. }
    apply (Hgen entries acc (fun kv H => H) IH Hc).
Qed.

End LocatorFacts.

(* ================================================================== *)
(** ** Facts about [sort] and [pickBest] *)

Section PickBestFacts.

Import WhatPulse.

Lemma hd_insertBy {A : Type} (cmp : A -> A -> Z) (x : A) (l : list A) :
  hd_error (insertBy cmp x l) =
  match l with
  | [] => Some x
  | y :: _ => if (cmp x y <=? 0)%Z then Some x else Some y
  end.
Proof. destruct l as [|y l]; simpl; [reflexivity|]. now destruct (cmp x y <=? 0)%Z. Qed.

Lemma FirstMax_bound {A : Type} (f : A -> Z) (l : list A) (c : A) :
  FirstMax f l c -> forall x, In x l -> (f x <= f c)%Z.
Proof.
  intros (pre & post & -> & Hpre & Hpost) x Hx.
  apply in_app_or in Hx as [Hx | [<- | Hx]].
  - specialize (Hpre x Hx). lia.
  - lia.
  - now apply Hpost.
Qed.

(** Sorting by descending score puts the first highest-scoring element
    in front. *)
Lemma sort_hd_FirstMax {A : Type} (f : A -> Z) (l : list A) :
  match hd_error (sort (fun a b => (f b - f a)%Z) l) with
  | Some c => FirstMax f l c
  | None => l = []
  end.
Proof.
  induction l as [|x l IH]; [reflexivity|].
  unfold sort in *. simpl. rewrite hd_insertBy.
  destruct (fold_right _ [] l) as [|y sorted]; simpl in IH.
  - subst l. exists [], []. repeat split; intros ? [].
  - destruct (Z.leb_spec (f y - f x) 0) as [Hle | Hgt].
    + exists [], l. repeat split; [intros ? [] |].
      intros z Hz. pose proof (FirstMax_bound f l y IH z Hz). lia.
    + destruct IH as (pre & post & -> & Hpre & Hpost).
      exists (x :: pre), post. repeat split; [|assumption].
      intros z [<- | Hz]; [lia | now apply Hpre].
Qed.

Lemma filter_none {A : Type} (p : A -> bool) (l : list A) :
  (forall x, In x l -> p x = false) -> filter p l = [].
Proof.
  induction l as [|x l IH]; intros H; simpl; [reflexivity|].
  rewrite (H x (or_introl eq_refl)). apply IH. intros y Hy. apply H. now right.
Qed.

(** With no candidate of the requested section, [pickBest] is the head of
    the whole list sorted against the requested section's hints. *)
Lemma pickBest_fallback (candidates : list Candidate) (sec : SectionName) :
  (forall c, In c candidates -> section c <> tagOf sec) ->
  pickBest candidates sec =
  hd_error (sort (fun a b => (pathScore (pathLower b) (hintsOf sec)
                              - pathScore (pathLower a) (hintsOf sec))%Z)
                 candidates).
Proof.
  intros Hnone. unfold pickBest.
  rewrite filter_none; [now destruct sec|].
  intros c Hc. specialize (Hnone c Hc).
  destruct sec, (section c); simpl in *; congruence.
Qed.

End PickBestFacts.

(* ================================================================== *)
(** ** Facts about paths *)

Section PathFacts.

Import WhatPulse.

Local Open Scope string_scope.

Lemma string_app_assoc (a b c : string) : (a ++ b) ++ c = a ++ (b ++ c).
Proof. induction a as [|x a IH]; simpl; [reflexivity | now rewrite IH]. Qed.

Lemma removeWhitespace_app (a b : string) :
  removeWhitespace (a ++ b) = removeWhitespace a ++ removeWhitespace b.
Proof.
  induction a as [|x a IH]; simpl; [reflexivity|].
  destruct (isWhitespace x); simpl; now rewrite IH.
Qed.

Lemma removeWhitespace_idem (s : string) :
  removeWhitespace (removeWhitespace s) = removeWhitespace s.
Proof.
  induction s as [|x s IH]; simpl; [reflexivity|].
  destruct (isWhitespace x) eqn:Hx; simpl; [assumption|]. now rewrite Hx, IH.
Qed.

(** The lower-cased path the locator threads through an object. *)
Lemma nextLower_stripped (pl k : string) :
  removeWhitespace pl = pl ->
  nextLower pl k = pl ++ "/" ++ removeWhitespace (toLowerCase k).
Proof.
  intros Hpl. unfold nextLower.
  rewrite removeWhitespace_app, Hpl. reflexivity.
Qed.

(** A leaf is the end of a walk; the two paths the locator records for it
    are the rendering of the walk and its normalised keys. *)
Lemma Leaf_Walk obj path pl n p q :
  Leaf obj path pl n p q ->
  removeWhitespace pl = pl ->
  exists segs,
    Walk obj segs n
    /\ p = renderPath path segs
    /\ q = pl ++ normalisedKeys segs.
Proof.
  induction 1 as [n path pl | items i item path pl n p q Hi _ IH
                 | entries k v path pl n p q Hkv _ IH]; intros Hpl.
  - exists []. split; [constructor|]. split; [reflexivity|].
    now rewrite append_empty_r.
  - destruct (IH Hpl) as (segs & Hwalk & Hp & Hq).
    exists (Index i :: segs). split; [now apply Walk_index with (item := item)|].
    split; assumption.
  - destruct IH as (segs & Hwalk & Hp & Hq).
    { unfold nextLower. apply removeWhitespace_idem. }
    exists (Key k :: segs). split; [now apply Walk_key with (v := v)|].
    split; [exact Hp|].
    rewrite Hq, (nextLower_stripped pl k Hpl). cbn [normalisedKeys].
    now rewrite !string_app_assoc.
Qed.

End PathFacts.

(* ================================================================== *)
(** ** The locator and the counter extractor: claims *)

Section LocatorClaims.

Import WhatPulse.

(** C1 (as the code behaves).  For the raw capture of scenario A the
    extractor resolves totals to keys 500, clicks 300, scrolls 10,
    uptimeSeconds 7200, but the unpulsed field is not null: the fallback of
    [pickBest] sorts the whole candidate list, so the candidates tagged
    ['totals'] are selected for the unpulsed section as well. *)
Theorem scenarioA_unpulsed_repeats_totals (now : string) :
  exists out,
    normalize now rawA = Some out /\
    totals out = mkCounterSet (Some (ofInteger 500)) (Some (ofInteger 300))
                              (Some (ofInteger 10)) (Some (ofInteger 7200)) /\
    unpulsed out = Some (mkCounterSet (Some (ofInteger 500)) (Some (ofInteger 300))
                                      (Some (ofInteger 10)) (Some (ofInteger 7200))) /\
    unpulsed out <> None.
Proof.
  eexists. split; [reflexivity|]. simpl. repeat split. discriminate.
Qed.

(** C2 (as the code behaves).  In the document of scenario A the only
    candidate of the keys class is tagged ['totals'].  When the unpulsed
    section is requested no candidate carries the requested tag and none
    is tagged ['none'], so a fallback drawn from the candidates tagged
    ['none'] has nothing to return; [pickBest] sorts the whole candidate
    list instead and returns the candidate tagged ['totals']. *)
Theorem pickBest_fallback_draws_from_all_candidates :
  collectCandidates dataA "" "" keys (FIELD_PATTERNS keys) []
  = [mkCandidate (ofInteger 500) "stats/totals/keys" "/stats/totals/keys" TagTotals]
  /\ (forall c,
         In c (collectCandidates dataA "" "" keys (FIELD_PATTERNS keys) []) ->
         section c <> tagOf Unpulsed /\ section c <> TagNone)
  /\ specFallback (collectCandidates dataA "" "" keys (FIELD_PATTERNS keys) [])
                  Unpulsed
     = None
  /\ pickBest (collectCandidates dataA "" "" keys (FIELD_PATTERNS keys) []) Unpulsed
     = Some (mkCandidate (ofInteger 500) "stats/totals/keys" "/stats/totals/keys"
                         TagTotals).
Proof.
  assert (H : collectCandidates dataA "" "" keys (FIELD_PATTERNS keys) []
              = [mkCandidate (ofInteger 500) "stats/totals/keys" "/stats/totals/keys"
                             TagTotals]) by reflexivity.
  rewrite H. repeat split.
  - destruct H0 as [<- | []]. discriminate.
  - destruct H0 as [<- | []]. discriminate.
Qed.

(** C7.  For every document and each of the four field classes, every
    finite numeric leaf whose key (the last path segment, lower-cased,
    whitespace removed) contains or is contained by one of the class's
    patterns is in the candidate list collected for that class; and every
    collected candidate is a finite number. *)
Theorem locator_collects_matching_finite_leaves (data : json) (field : NumericField) :
  (forall n p q seg pat,
      Leaf data "" "" n p q ->
      isFinite n = true ->
      LastSegment p seg ->
      In pat (FIELD_PATTERNS field) ->
      Substring pat (removeWhitespace (toLowerCase seg))
      \/ Substring (removeWhitespace (toLowerCase seg)) pat ->
      In (mkCandidate n p q (sectionOf q))
         (collectCandidates data "" "" field (FIELD_PATTERNS field) []))
  /\ (forall c,
         In c (collectCandidates data "" "" field (FIELD_PATTERNS field) []) ->
         isFinite (value c) = true).
Proof.
  split.
  - intros n p q seg pat Hleaf Hfin Hseg Hpat Hsub.
    apply (collectCandidates_complete _ _ _ _ _ _ Hleaf); [assumption|].
    apply matchesPatterns_spec. exists pat. split; [assumption|].
    now rewrite (leafKey_spec p seg Hseg).
  - intros c Hc.
    pose proof (collectCandidates_Forall (fun c => isFinite (value c) = true)
                  (fun n _ _ H => H) data "" "" field (FIELD_PATTERNS field) []
                  (Forall_nil _)) as Hall.
    rewrite Forall_forall in Hall. now apply Hall.
Qed.

Lemma locator_collects_matching_finite_leaves_witness :
  In (mkCandidate (ofInteger 7200) "stats/totals/uptime" "/stats/totals/uptime" TagTotals)
     (collectCandidates dataA "" "" uptimeSeconds (FIELD_PATTERNS uptimeSeconds) []).
Proof.
  apply (proj1 (locator_collects_matching_finite_leaves dataA uptimeSeconds)
           (ofInteger 7200) "stats/totals/uptime" "/stats/totals/uptime"
           "uptime" "uptimeseconds").
  - apply Leaf_entry with (k := "stats")
      (v := JObject [("totals", JObject [
         ("keys", JNumber (ofInteger 500)); ("clicks", JNumber (ofInteger 300));
         ("scrolls", JNumber (ofInteger 10)); ("uptime", JNumber (ofInteger 7200))])]);
      [now left|].
    apply Leaf_entry with (k := "totals")
      (v := JObject [
         ("keys", JNumber (ofInteger 500)); ("clicks", JNumber (ofInteger 300));
         ("scrolls", JNumber (ofInteger 10)); ("uptime", JNumber (ofInteger 7200))]);
      [now left|].
    apply Leaf_entry with (k := "uptime") (v := JNumber (ofInteger 7200));
      [right; right; right; now left|].
    exact (Leaf_number _ _ _).
  - reflexivity.
  - split; [right; now exists "stats/totals" |].
    intros (pre & post & H).
    destruct pre as [|a0 [|a1 [|a2 [|a3 [|a4 [|a5 [|a6 pre]]]]]]]; discriminate.
  - right; now left.
  - right. now exists "", "seconds".
Defined.

(** C8 (counterexample).  Under the key "Un Pulsed" the candidate's path
    is "Un Pulsed/keys"; lower-cased it is "un pulsed/keys", which contains
    none of "unpulse", "pending" and "total", so by the stated priority the
    tag would be ['none'].  The candidate is tagged ['unpulsed']: the tag
    is computed from the path with the whitespace removed as well. *)
Lemma spaced_key_is_tagged_from_the_stripped_path :
  In (mkCandidate (ofInteger 5) "Un Pulsed/keys" "/unpulsed/keys" TagUnpulsed)
     (collectCandidates spacedKeyDocument "" "" keys (FIELD_PATTERNS keys) [])
  /\ toLowerCase "Un Pulsed/keys" = "un pulsed/keys"
  /\ ~ Substring "unpulse" (toLowerCase "Un Pulsed/keys")
  /\ ~ Substring "pending" (toLowerCase "Un Pulsed/keys")
  /\ ~ Substring "total" (toLowerCase "Un Pulsed/keys")
  /\ section (mkCandidate (ofInteger 5) "Un Pulsed/keys" "/unpulsed/keys" TagUnpulsed)
     <> TagNone.
Proof.
  assert (Hno : forall p, includes (toLowerCase "Un Pulsed/keys") p = false ->
                          ~ Substring p (toLowerCase "Un Pulsed/keys")).
  { intros p Hf Hs. apply includes_spec in Hs. congruence. }
  split; [now left|]. split; [reflexivity|].
  split; [apply Hno; reflexivity|]. split; [apply Hno; reflexivity|].
  split; [apply Hno; reflexivity | discriminate].
Qed.

(** C8 (amended).  Every collected candidate lies at the end of a walk
    through the document; its path is that walk's keys and indices joined
    with "/", and its tag is determined by the walk's normalised keys
    (each key lower-cased and stripped of its whitespace, preceded by "/",
    array indices left out), which is the candidate's lower-cased path:
    ['unpulsed'] if they contain "unpulse" or "pending"; otherwise
    ['totals'] if they contain "total"; otherwise ['none']. *)
Theorem candidate_section_tag_normalised (data : json) (field : NumericField)
    (c : Candidate) :
  In c (collectCandidates data "" "" field (FIELD_PATTERNS field) []) ->
  exists segs,
    Walk data segs (value c)
    /\ WhatPulse.path c = renderPath "" segs
    /\ pathLower c = normalisedKeys segs
    /\ (Substring "unpulse" (normalisedKeys segs)
        \/ Substring "pending" (normalisedKeys segs) ->
        section c = TagUnpulsed)
    /\ (~ Substring "unpulse" (normalisedKeys segs) ->
        ~ Substring "pending" (normalisedKeys segs) ->
        Substring "total" (normalisedKeys segs) -> section c = TagTotals)
    /\ (~ Substring "unpulse" (normalisedKeys segs) ->
        ~ Substring "pending" (normalisedKeys segs) ->
        ~ Substring "total" (normalisedKeys segs) -> section c = TagNone).
Proof.
  intros Hc.
  apply collectCandidates_sound in Hc as [[] | (Hleaf & _ & _ & Htag)].
  destruct (Leaf_Walk _ _ _ _ _ _ Hleaf eq_refl) as (segs & Hwalk & Hpath & Hlower).
  simpl in Hlower. exists segs.
  split; [exact Hwalk|]. split; [exact Hpath|]. split; [exact Hlower|].
  rewrite Htag, Hlower.
  destruct (sectionOf_spec (normalisedKeys segs))
    as [[Hup ->] | [(Hnu & Hnp & Ht & ->) | (Hnu & Hnp & Hnt & ->)]].
  - repeat split; [intros; tauto | intros; tauto].
  - repeat split; [intros [?|?]; contradiction | intros; contradiction].
  - repeat split; [intros [?|?]; contradiction | intros; contradiction].
Qed.

Lemma candidate_section_tag_normalised_witness :
  exists segs,
    renderPath "" segs = "Account TOTALS/Keys"
    /\ normalisedKeys segs = "/accounttotals/keys"
    /\ section (mkCandidate (ofInteger 7) "Account TOTALS/Keys" "/accounttotals/keys"
                            TagTotals)
       = TagTotals.
Proof.
  destruct (candidate_section_tag_normalised capitalKeyDocument keys
              (mkCandidate (ofInteger 7) "Account TOTALS/Keys" "/accounttotals/keys"
                           TagTotals))
    as (segs & _ & Hpath & Hlower & _ & Htotals & _); [now left|].
  simpl in Hpath, Hlower. exists segs.
  split; [now symmetry|]. split; [now symmetry|].
  assert (Hno : forall p, includes "/accounttotals/keys" p = false ->
                          ~ Substring p (normalisedKeys segs)).
  { intros p Hf Hs. rewrite <- Hlower in Hs. apply includes_spec in Hs. congruence. }
  apply Htotals.
  - apply Hno; reflexivity.
  - apply Hno; reflexivity.
  - rewrite <- Hlower. now exists "/account", "s/keys".
Defined.

(** C10.  When the document is a single finite number [n], the leaf's key
    is the empty string, which every pattern contains; the leaf is
    therefore the one candidate, tagged ['none'], of every field class,
    the fallback selects it for both sections, and the report has all four
    fields of totals equal to [n] and a non-null unpulsed with all four
    fields equal to [n]. *)
Theorem bare_number_fills_both_sections (now : string) (n : number) :
  isFinite n = true ->
  leafKey "" = ""
  /\ (forall pat, Substring "" pat)
  /\ (forall field,
         collectCandidates (JNumber n) "" "" field (FIELD_PATTERNS field) []
         = [mkCandidate n "" "" TagNone])
  /\ (forall sec,
         pickBest [mkCandidate n "" "" TagNone] sec
         = Some (mkCandidate n "" "" TagNone))
  /\ exists out,
       normalize now (JNumber n) = Some out /\
       totals out = mkCounterSet (Some n) (Some n) (Some n) (Some n) /\
       unpulsed out = Some (mkCounterSet (Some n) (Some n) (Some n) (Some n)).
Proof.
  intros Hfin.
  assert (Hcollect : forall field,
             collectCandidates (JNumber n) "" "" field (FIELD_PATTERNS field) []
             = [mkCandidate n "" "" TagNone]).
  { intros []; cbn [collectCandidates]; rewrite Hfin; reflexivity. }
  split; [reflexivity|].
  split; [intros pat; now exists "", pat|].
  split; [exact Hcollect|].
  split; [intros []; reflexivity|].
  eexists. split; [reflexivity|].
  unfold buildOutput, extractSection, fields. cbn [fold_left totals unpulsed].
  rewrite !Hcollect. split; reflexivity.
Qed.

Lemma bare_number_fills_both_sections_witness :
  exists out,
    normalize "t" (JNumber (ofInteger 42)) = Some out
    /\ totals out = mkCounterSet (Some (ofInteger 42)) (Some (ofInteger 42))
                                 (Some (ofInteger 42)) (Some (ofInteger 42))
    /\ unpulsed out = Some (mkCounterSet (Some (ofInteger 42)) (Some (ofInteger 42))
                                         (Some (ofInteger 42)) (Some (ofInteger 42))).
Proof.
  destruct (bare_number_fills_both_sections "t" (ofInteger 42) eq_refl)
    as (_ & _ & _ & _ & out & Hout & Htotals & Hunpulsed).
  exists out. split; [exact Hout|]. split; [exact Htotals | exact Hunpulsed].
Defined.

End LocatorClaims.

(* ================================================================== *)
(** ** Facts about binary64 subtraction and [Math.max] *)

Section NumberFacts.

Import Weekly.

Local Open Scope Z_scope.

Lemma Math_max_zero_never_negative (x : number) :
  SFltb (Math_max zero x) zero = false.
Proof. destruct x as [[]|[]| |[] m e]; reflexivity. Qed.

Lemma Math_max_zero_ge_zero (x : number) :
  x <> S754_nan -> SFleb zero (Math_max zero x) = true.
Proof. destruct x as [[]|[]| |[] m e]; intros H; try reflexivity. contradiction. Qed.

Lemma Math_max_zero_nonPositive (x : number) :
  nonPositive x -> Math_max zero x = zero.
Proof. destruct x as [[]|[]| |[] m e]; simpl; intros H; try reflexivity; contradiction. Qed.

(** *** Rounding never yields NaN and keeps the sign *)

Lemma iter_pos_invariant {A : Type} (P : A -> Prop) (f : A -> A) :
  (forall x, P x -> P (f x)) -> forall n x, P x -> P (iter_pos f n x).
Proof.
  intros Hf. induction n as [n IH | n IH |]; intros x Hx; simpl; auto.
Qed.

Lemma shr_1_nonneg (r : shr_record) : 0 <= shr_m r -> 0 <= shr_m (shr_1 r).
Proof.
  destruct r as [m r s]. simpl.
  destruct m as [|[p|p|]|[p|p|]]; simpl; lia.
Qed.

Lemma shr_nonneg (r : shr_record) (e n : Z) :
  0 <= shr_m r -> 0 <= shr_m (fst (shr r e n)).
Proof.
  intros Hr. unfold shr. destruct n as [|p|p]; simpl; try assumption.
  apply (iter_pos_invariant (fun r => 0 <= shr_m r)); [apply shr_1_nonneg | assumption].
Qed.

Lemma shr_fexp_nonneg (m e : Z) (l : location) :
  0 <= m -> 0 <= shr_m (fst (shr_fexp 53 1024 m e l)).
Proof.
  intros Hm. unfold shr_fexp. apply shr_nonneg.
  destruct l as [|[]]; exact Hm.
Qed.

Lemma round_nearest_even_nonneg (m : Z) (l : location) :
  0 <= m -> 0 <= round_nearest_even m l.
Proof.
  intros Hm. destruct l as [|[]]; simpl; try lia.
  destruct (Z.even m); lia.
Qed.

Lemma binary_round_aux_sign (s : bool) (m e : Z) (l : location) :
  0 <= m -> roundedWithSign s (binary_round_aux 53 1024 s m e l).
Proof.
  intros Hm. unfold binary_round_aux.
  pose proof (shr_fexp_nonneg m e l Hm) as H1.
  destruct (shr_fexp 53 1024 m e l) as [mrs' e'] eqn:E1. simpl in H1.
  pose proof (shr_fexp_nonneg
                (round_nearest_even (shr_m mrs') (loc_of_shr_record mrs')) e' loc_Exact
                (round_nearest_even_nonneg _ _ H1)) as H2.
  destruct (shr_fexp 53 1024 _ e' loc_Exact) as [mrs'' e''] eqn:E2. simpl in H2.
  destruct (shr_m mrs'') as [|p|p].
  - now left.
  - destruct (Z.leb e'' (1024 - 53)); [right; right; now exists p, e'' | right; now left].
  - lia.
Qed.

Lemma binary_round_sign (s : bool) (m : positive) (e : Z) :
  roundedWithSign s (binary_round 53 1024 s m e).
Proof.
  unfold binary_round. destruct (shl_align m e _) as [mz ez].
  apply binary_round_aux_sign. lia.
Qed.

Lemma binary_normalize_cases (d e : Z) :
  match d with
  | Z0 => binary_normalize 53 1024 d e false = S754_zero false
  | Zpos _ => roundedWithSign false (binary_normalize 53 1024 d e false)
  | Zneg _ => roundedWithSign true (binary_normalize 53 1024 d e false)
  end.
Proof. destruct d; simpl; [reflexivity | apply binary_round_sign ..]. Qed.

Lemma roundedWithSign_not_nan (s : bool) (r : number) :
  roundedWithSign s r -> r <> S754_nan.
Proof. intros [-> | [-> | (m & e & ->)]]; discriminate. Qed.

Lemma roundedWithSign_true_nonPositive (r : number) :
  roundedWithSign true r -> nonPositive r.
Proof. intros [-> | [-> | (m & e & ->)]]; exact I. Qed.

(** The difference of two finite numbers is a number. *)
Lemma minus_finite_not_nan (x y : number) :
  isFinite x = true -> isFinite y = true -> minus x y <> S754_nan.
Proof.
  intros Hx Hy.
  destruct x as [sx|sx| |sx mx ex]; try discriminate Hx;
    destruct y as [sy|sy| |sy my ey]; try discriminate Hy;
    unfold minus, SFsub.
  - destruct sx, sy; discriminate.
  - discriminate.
  - discriminate.
  - set (d := cond_Zopp sx _ - cond_Zopp sy _).
    pose proof (binary_normalize_cases d (Z.min ex ey)) as H.
    destruct d; [rewrite H; discriminate | now apply roundedWithSign_not_nan in H ..].
Qed.

(** A finite number minus itself is +0. *)
Lemma minus_self (x : number) : isFinite x = true -> minus x x = zero.
Proof.
  intros Hx.
  destruct x as [[]|sx| |sx mx ex]; try discriminate Hx; try reflexivity.
  unfold minus, SFsub. rewrite Z.sub_diag. reflexivity.
Qed.

(** *** The sign of a difference *)

Lemma digits2_pos_bounds (m : positive) :
  2 ^ (Zpos (digits2_pos m) - 1) <= Zpos m < 2 ^ Zpos (digits2_pos m).
Proof.
  induction m as [m IH | m IH |]; simpl digits2_pos.
  - rewrite Pos2Z.inj_succ, (Pos2Z.inj_xI m).
    replace (Z.succ (Zpos (digits2_pos m)) - 1) with (Z.succ (Zpos (digits2_pos m) - 1)) by lia.
    rewrite !Z.pow_succ_r by lia.
    assert (E : 2 ^ Zpos (digits2_pos m) = 2 * 2 ^ (Zpos (digits2_pos m) - 1)).
    { rewrite <- Z.pow_succ_r by lia. f_equal. lia. }
    lia.
  - rewrite Pos2Z.inj_succ, (Pos2Z.inj_xO m).
    replace (Z.succ (Zpos (digits2_pos m)) - 1) with (Z.succ (Zpos (digits2_pos m) - 1)) by lia.
    rewrite !Z.pow_succ_r by lia.
    assert (E : 2 ^ Zpos (digits2_pos m) = 2 * 2 ^ (Zpos (digits2_pos m) - 1)).
    { rewrite <- Z.pow_succ_r by lia. f_equal. lia. }
    lia.
  - simpl. lia.
Qed.

Lemma iter_xO_value (m d : positive) :
  Zpos (Pos.iter xO m d) = Zpos m * 2 ^ Zpos d.
Proof.
  induction d as [|d IH] using Pos.peano_ind.
  - simpl. lia.
  - rewrite Pos.iter_succ, (Pos2Z.inj_xO (Pos.iter xO m d)), IH, Pos2Z.inj_succ, Z.pow_succ_r by lia. lia.
Qed.

(** Aligning a mantissa to a smaller exponent multiplies it by the power
    of two between the exponents. *)
Lemma shl_align_value (m : positive) (e e' : Z) :
  e' <= e -> Zpos (fst (shl_align m e e')) = Zpos m * 2 ^ (e - e').
Proof.
  intros Hle. unfold shl_align.
  destruct (e' - e) as [|p|p] eqn:E; simpl fst.
  - replace (e - e') with 0 by lia. simpl. lia.
  - lia.
  - rewrite iter_xO_value. f_equal. f_equal. lia.
Qed.

Lemma canonical_exponent (s : bool) (m : positive) (e : Z) :
  validNumber (S754_finite s m e) ->
  Zpos (digits2_pos m) <= 53
  /\ -1074 <= e
  /\ (-1074 < e -> Zpos (digits2_pos m) = 53).
Proof.
  unfold validNumber, valid_binary, bounded, canonical_mantissa, fexp, emin.
  intros H. apply andb_true_iff in H as [H _]. apply Z.eqb_eq in H. lia.
Qed.

(** Of two binary64 numbers, the one with the smaller exponent has the
    smaller magnitude. *)
Lemma smaller_exponent_smaller_magnitude (s1 s2 : bool) (m1 m2 : positive) (e1 e2 : Z) :
  validNumber (S754_finite s1 m1 e1) ->
  validNumber (S754_finite s2 m2 e2) ->
  e1 < e2 ->
  Zpos m1 < Zpos m2 * 2 ^ (e2 - e1).
Proof.
  intros V1 V2 Hlt.
  destruct (canonical_exponent _ _ _ V1) as (D1 & E1 & _).
  destruct (canonical_exponent _ _ _ V2) as (_ & _ & D2).
  specialize (D2 ltac:(lia)).
  pose proof (digits2_pos_bounds m1) as [_ B1].
  pose proof (digits2_pos_bounds m2) as [B2 _].
  rewrite D2 in B2.
  assert (P1 : 2 ^ Zpos (digits2_pos m1) <= 2 ^ 53) by (apply Z.pow_le_mono_r; lia).
  assert (P2 : 2 ^ 1 <= 2 ^ (e2 - e1)) by (apply Z.pow_le_mono_r; lia).
  change (2 ^ 1) with 2 in P2.
  change (2 ^ (53 - 1)) with 4503599627370496 in B2.
  change (2 ^ 53) with 9007199254740992 in P1.
  nia.
Qed.

(** A smaller number minus a larger one is not positive. *)
Lemma minus_of_smaller_nonPositive (x y : number) :
  isFinite x = true -> isFinite y = true ->
  validNumber x -> validNumber y ->
  SFltb x y = true ->
  nonPositive (minus x y).
Proof.
  intros Fx Fy.
  destruct x as [sx|sx| |sx mx ex]; try discriminate Fx;
    destruct y as [sy|sy| |sy my ey]; try discriminate Fy;
    intros Vx Vy Hlt; unfold SFltb in Hlt; simpl in Hlt.
  - discriminate.
  - destruct sy; [discriminate | exact I].
  - destruct sx; [exact I | discriminate].
  - unfold minus, SFsub.
    set (ez := Z.min ex ey).
    assert (Hx : Zpos (fst (shl_align mx ex ez)) = Zpos mx * 2 ^ (ex - ez))
      by (apply shl_align_value; unfold ez; lia).
    assert (Hy : Zpos (fst (shl_align my ey ez)) = Zpos my * 2 ^ (ey - ez))
      by (apply shl_align_value; unfold ez; lia).
    assert (Hneg : cond_Zopp sx (Zpos (fst (shl_align mx ex ez)))
                   - cond_Zopp sy (Zpos (fst (shl_align my ey ez))) < 0).
    { rewrite Hx, Hy.
      assert (Px : 0 < 2 ^ (ex - ez)) by (apply Z.pow_pos_nonneg; unfold ez; lia).
      assert (Py : 0 < 2 ^ (ey - ez)) by (apply Z.pow_pos_nonneg; unfold ez; lia).
      destruct sx, sy; unfold cond_Zopp; simpl in Hlt.
      - (* both negative: x < y when |x| > |y| *)
        destruct (Z.compare_spec ex ey) as [Heq | Hlt' | Hgt]; simpl in Hlt;
          try discriminate Hlt.
        + subst ey. unfold ez in *. rewrite Z.min_id, Z.sub_diag in *.
          rewrite Pos.compare_cont_spec in Hlt. simpl in Hlt.
          destruct (Pos.compare_spec mx my) as [E | E | E]; simpl in Hlt;
            try discriminate Hlt.
          change (2 ^ 0) with 1. lia.
        + pose proof (smaller_exponent_smaller_magnitude _ _ _ _ _ _ Vy Vx Hgt) as Hmag.
          unfold ez in *. rewrite Z.min_r in * by lia.
          rewrite Z.sub_diag in *. change (2 ^ 0) with 1. lia.
      - nia.
      - discriminate Hlt.
      - destruct (Z.compare_spec ex ey) as [Heq | Hlt' | Hgt]; simpl in Hlt;
          try discriminate Hlt.
        + subst ey. unfold ez in *. rewrite Z.min_id, Z.sub_diag in *.
          rewrite Pos.compare_cont_spec in Hlt. simpl in Hlt.
          destruct (Pos.compare_spec mx my) as [E | E | E]; simpl in Hlt;
            try discriminate Hlt.
          change (2 ^ 0) with 1. lia.
        + pose proof (smaller_exponent_smaller_magnitude _ _ _ _ _ _ Vx Vy Hlt') as Hmag.
          unfold ez in *. rewrite Z.min_l in * by lia.
          rewrite Z.sub_diag in *. change (2 ^ 0) with 1. lia. }
    pose proof (binary_normalize_cases
                  (cond_Zopp sx (Zpos (fst (shl_align mx ex ez)))
                   - cond_Zopp sy (Zpos (fst (shl_align my ey ez)))) ez) as H.
    destruct (cond_Zopp sx _ - cond_Zopp sy _) as [|p|p]; try lia.
    now apply roundedWithSign_true_nonPositive.
Qed.

End NumberFacts.
(* ================================================================== *)
(** ** Facts about the weekly engine *)

Section WeeklyFacts.

Import Weekly.

Lemma toNumber_Some (v : option json) (n : number) :
  toNumber v = Some n <-> v = Some (JNumber n) /\ isFinite n = true.
Proof.
  split.
  - destruct v as [[| b | m | s | l | l]|]; simpl; try discriminate.
    destruct (isFinite m) eqn:E; [|discriminate]. now intros [= <-].
  - intros [-> H]. simpl. now rewrite H.
Qed.

(** The section [getCounters] reads: [api.unpulsed ?? api.totals ?? {}]. *)
Lemma getCounters_unfold (api : json) :
  api <> JNull ->
  getCounters api =
  let prefer :=
    nullish (getProp api "unpulsed") (nullish (getProp api "totals") (JObject [])) in
  match toNumber (getProp prefer "keys"), toNumber (getProp prefer "clicks"),
        toNumber (getProp prefer "scrolls"), toNumber (getProp prefer "uptimeSeconds") with
  | Some k, Some c, Some s, Some u => Ok (mkCounters k c s u)
  | _, _, _, _ => Throw missingCounters
  end.
Proof. destruct api; [contradiction | reflexivity ..]. Qed.

Lemma read_resolved (prefer : json) (c : Counters) :
  Resolves (Some prefer) c ->
  match toNumber (getProp prefer "keys"), toNumber (getProp prefer "clicks"),
        toNumber (getProp prefer "scrolls"), toNumber (getProp prefer "uptimeSeconds") with
  | Some k, Some c, Some s, Some u => Ok (mkCounters k c s u)
  | _, _, _, _ => Throw missingCounters
  end = Ok c.
Proof.
  intros (j & [= <-] & Hk & Hc & Hs & Hu & Fk & Fc & Fs & Fu).
  rewrite (proj2 (toNumber_Some _ _) (conj Hk Fk)),
          (proj2 (toNumber_Some _ _) (conj Hc Fc)),
          (proj2 (toNumber_Some _ _) (conj Hs Fs)),
          (proj2 (toNumber_Some _ _) (conj Hu Fu)).
  now destruct c.
Qed.

Lemma read_ok_inv (prefer : json) (c : Counters) :
  match toNumber (getProp prefer "keys"), toNumber (getProp prefer "clicks"),
        toNumber (getProp prefer "scrolls"), toNumber (getProp prefer "uptimeSeconds") with
  | Some k, Some c, Some s, Some u => Ok (mkCounters k c s u)
  | _, _, _, _ => Throw missingCounters
  end = Ok c ->
  Resolves (Some prefer) c.
Proof.
  destruct (toNumber (getProp prefer "keys")) as [k|] eqn:Hk; [|discriminate].
  destruct (toNumber (getProp prefer "clicks")) as [c'|] eqn:Hc; [|discriminate].
  destruct (toNumber (getProp prefer "scrolls")) as [s|] eqn:Hs; [|discriminate].
  destruct (toNumber (getProp prefer "uptimeSeconds")) as [u|] eqn:Hu; [|discriminate].
  intros [= <-].
  apply toNumber_Some in Hk as [Hk Fk]. apply toNumber_Some in Hc as [Hc Fc].
  apply toNumber_Some in Hs as [Hs Fs]. apply toNumber_Some in Hu as [Hu Fu].
  exists prefer. unfold finiteCounters. simpl. now repeat split.
Qed.

Lemma read_unresolvable (prefer : json) :
  Unresolvable (Some prefer) ->
  match toNumber (getProp prefer "keys"), toNumber (getProp prefer "clicks"),
        toNumber (getProp prefer "scrolls"), toNumber (getProp prefer "uptimeSeconds") with
  | Some k, Some c, Some s, Some u => Ok (mkCounters k c s u)
  | _, _, _, _ => Throw missingCounters
  end = Throw missingCounters.
Proof.
  intros Hun.
  pose proof (read_ok_inv prefer) as Hinv.
  destruct (toNumber (getProp prefer "keys")) as [k|]; [|reflexivity].
  destruct (toNumber (getProp prefer "clicks")) as [c|]; [|reflexivity].
  destruct (toNumber (getProp prefer "scrolls")) as [s|]; [|reflexivity].
  destruct (toNumber (getProp prefer "uptimeSeconds")) as [u|]; [|reflexivity].
  exfalso. exact (Hun _ (Hinv _ eq_refl)).
Qed.

Lemma Unresolvable_empty : Unresolvable (Some (JObject [])).
Proof. intros c (j & [= <-] & Hk & _). discriminate. Qed.

Lemma Unresolvable_null : Unresolvable (Some JNull).
Proof. intros c (j & [= <-] & Hk & _). discriminate. Qed.

(** [getCounters] fails when neither section yields four counters. *)
Lemma getCounters_unresolvable (api : json) :
  Unresolvable (getProp api "unpulsed") ->
  Unresolvable (getProp api "totals") ->
  exists msg, getCounters api = Throw msg.
Proof.
  intros Hu Ht.
  destruct (json_null_dec api) as [-> | Hnn]; [now eexists|].
  exists missingCounters. rewrite (getCounters_unfold api Hnn). cbv zeta.
  apply read_unresolvable.
  destruct (getProp api "unpulsed") as [u|]; simpl.
  - destruct u; try exact Hu.
    destruct (getProp api "totals") as [t|]; simpl.
    + destruct t; try exact Ht. apply Unresolvable_empty.
    + apply Unresolvable_empty.
  - destruct (getProp api "totals") as [t|]; simpl.
    + destruct t; try exact Ht. apply Unresolvable_empty.
    + apply Unresolvable_empty.
Qed.

(** Extracted counters are the four resolved fields of one section. *)
Lemma getCounters_Ok_resolves (api : json) (c : Counters) :
  getCounters api = Ok c ->
  Resolves (getProp api "unpulsed") c \/ Resolves (getProp api "totals") c.
Proof.
  destruct (json_null_dec api) as [-> | Hnn]; [discriminate|].
  rewrite (getCounters_unfold api Hnn). cbv zeta. intros H.
  apply read_ok_inv in H.
  destruct (getProp api "unpulsed") as [u|]; simpl in H.
  - destruct u; try (now left).
    destruct (getProp api "totals") as [t|]; simpl in H.
    + destruct t; try (now right). now apply Unresolvable_empty in H.
    + now apply Unresolvable_empty in H.
  - destruct (getProp api "totals") as [t|]; simpl in H.
    + destruct t; try (now right). now apply Unresolvable_empty in H.
    + now apply Unresolvable_empty in H.
Qed.

Lemma getCounters_finite (api : json) (c : Counters) :
  getCounters api = Ok c -> finiteCounters c.
Proof.
  intros H. apply getCounters_Ok_resolves in H.
  destruct H as [(j & _ & _ & _ & _ & _ & F) | (j & _ & _ & _ & _ & _ & F)]; exact F.
Qed.

(** *** Snapshots through the ledger file *)

Lemma asWritten_finite (n : number) : isFinite (asWritten n) = isFinite n.
Proof. now destruct n. Qed.

Lemma asWritten_idempotent (n : number) : asWritten (asWritten n) = asWritten n.
Proof. now destruct n. Qed.

Lemma stringifyParse_idempotent (v : json) :
  stringifyParse (stringifyParse v) = stringifyParse v.
Proof.
  induction v as [| b | n | s | items IH | entries IH] using json_rect';
    try reflexivity.
  - cbn [stringifyParse]. destruct (isFinite n) eqn:E; [|reflexivity].
    cbn [stringifyParse]. now rewrite asWritten_finite, E, asWritten_idempotent.
  - cbn [stringifyParse]. f_equal.
    induction IH as [|x rest Hx _ IHrest]; [reflexivity|].
    cbn [map]. now rewrite Hx, IHrest.
  - cbn [stringifyParse]. f_equal.
    induction IH as [|[k x] rest Hx _ IHrest]; [reflexivity|].
    cbn [map]. simpl in Hx. now rewrite Hx, IHrest.
Qed.

Lemma map_stringifyParse_idempotent (l : list json) :
  map stringifyParse (map stringifyParse l) = map stringifyParse l.
Proof.
  induction l as [|x l IH]; [reflexivity|].
  cbn [map]. now rewrite stringifyParse_idempotent, IH.
Qed.

Lemma countersAsWritten_finite (c : Counters) :
  finiteCounters c -> finiteCounters (countersAsWritten c).
Proof.
  intros (Fk & Fc & Fs & Fu). unfold finiteCounters, countersAsWritten.
  cbn [keys clicks scrolls uptimeSeconds]. now rewrite !asWritten_finite.
Qed.

Lemma countersAsWritten_idempotent (c : Counters) :
  countersAsWritten (countersAsWritten c) = countersAsWritten c.
Proof.
  unfold countersAsWritten. cbn [keys clicks scrolls uptimeSeconds].
  now rewrite !asWritten_idempotent.
Qed.

(** A snapshot of finite counters reads back with its counters as
    written. *)
Lemma stringifyParse_snapshot (s : Snapshot) :
  finiteCounters (counters s) ->
  stringifyParse (snapshotJson s)
  = snapshotJson (mkSnapshot (capturedAt s) (source s) (countersAsWritten (counters s))).
Proof.
  intros (Fk & Fc & Fs & Fu). unfold snapshotJson, countersJson.
  cbn [stringifyParse map capturedAt source counters countersAsWritten
       keys clicks scrolls uptimeSeconds].
  now rewrite Fk, Fc, Fs, Fu.
Qed.

Lemma stringifyParse_snapshotAt (now : string) (c : Counters) :
  finiteCounters c ->
  stringifyParse (snapshotAt now c) = snapshotAt now (countersAsWritten c).
Proof. intros F. unfold snapshotAt. now rewrite stringifyParse_snapshot. Qed.

Lemma appendSnapshot_run (s : Snapshot) (fs : Files) :
  appendSnapshot s fs
  = (Ok (validSnapshots (snapshotsFile fs) ++ [snapshotJson s]),
     mkFiles (apiFile fs)
       (LedgerArray (map stringifyParse
                       (validSnapshots (snapshotsFile fs) ++ [snapshotJson s])))
       (weeklyFile fs)).
Proof.
  unfold appendSnapshot, bind, readSnapshots, writeSnapshots, ret.
  destruct (snapshotsFile fs); reflexivity.
Qed.

(** The ledger file after a run whose extraction gave [c]. *)
Lemma ledger_after_append (now : string) (c : Counters) (l : list json) :
  finiteCounters c ->
  map stringifyParse (l ++ [snapshotAt now c])
  = map stringifyParse l ++ [snapshotAt now (countersAsWritten c)].
Proof.
  intros F. rewrite map_app. cbn [map]. now rewrite stringifyParse_snapshotAt.
Qed.

(** *** The run, step by step *)

Section WithCoercions.

Variable ToStringOther : option json -> string.
Variable ToNumberOther : option json -> number.

(** Once the counters are extracted, [main] appends and emits. *)
Lemma main_extracted (now : string) (fs : Files) (api : json) (c : Counters) :
  apiFile fs = ApiJson api ->
  getCounters api = Ok c ->
  main ToStringOther ToNumberOther now fs =
  emitWeekly ToStringOther ToNumberOther now
    (validSnapshots (snapshotsFile fs) ++ [snapshotAt now c])
    (mkFiles (apiFile fs)
       (LedgerArray (map stringifyParse (validSnapshots (snapshotsFile fs))
                     ++ [snapshotAt now (countersAsWritten c)]))
       (weeklyFile fs)).
Proof.
  intros Hapi Hc.
  rewrite <- (ledger_after_append now c _ (getCounters_finite api c Hc)).
  unfold main, bind at 1, readApi. rewrite Hapi.
  unfold bind at 1, lift. rewrite Hc.
  unfold bind at 1. rewrite appendSnapshot_run. now rewrite Hapi.
Qed.

Lemma main_not_extracted (now : string) (fs : Files) (api : json) (msg : string) :
  apiFile fs = ApiJson api ->
  getCounters api = Throw msg ->
  main ToStringOther ToNumberOther now fs = (Throw msg, fs).
Proof.
  intros Hapi Hc. unfold main, bind, readApi, lift. now rewrite Hapi, Hc.
Qed.


(** [emitWeekly] writes the weekly record or nothing. *)
Lemma emitWeekly_outcome (now : string) (snapshots : list json) (fs : Files) :
  (exists w, emitWeekly ToStringOther ToNumberOther now snapshots fs
             = (Ok tt, mkFiles (apiFile fs) (snapshotsFile fs) (Some w)))
  \/ (exists msg, emitWeekly ToStringOther ToNumberOther now snapshots fs
                  = (Throw msg, fs)).
Proof.
  unfold emitWeekly.
  destruct (List.length snapshots <? 2)%nat; [left; eexists; reflexivity|].
  unfold bind, lift, writeWeekly.
  destruct (readProp (nth_error snapshots (List.length snapshots - 2)) "capturedAt");
    [|right; eexists; reflexivity].
  destruct (readProp (nth_error snapshots (List.length snapshots - 1)) "capturedAt");
    [|right; eexists; reflexivity].
  destruct (readProp (nth_error snapshots (List.length snapshots - 2)) "counters");
    [|right; eexists; reflexivity].
  destruct (readProp (nth_error snapshots (List.length snapshots - 1)) "counters");
    [|right; eexists; reflexivity].
  destruct (delta ToNumberOther _ _); [left | right]; eexists; reflexivity.
Qed.

Lemma emitWeekly_single (now : string) (e : json) (fs : Files) :
  emitWeekly ToStringOther ToNumberOther now [e] fs =
  (Ok tt, mkFiles (apiFile fs) (snapshotsFile fs)
            (Some (mkWeekly now "whatpulse-client-api" "weekly"
                            None None (Some notEnoughHistory)))).
Proof. reflexivity. Qed.

(** With two entries or more, [prev] and [current] are the last two. *)
Lemma emitWeekly_last_two (now : string) (older : list json) (prev current : json)
    (fs : Files) :
  emitWeekly ToStringOther ToNumberOther now (older ++ [prev; current]) fs =
  match readProp (Some prev) "capturedAt" with
  | Throw msg => (Throw msg, fs)
  | Ok prevAt =>
    match readProp (Some current) "capturedAt" with
    | Throw msg => (Throw msg, fs)
    | Ok currentAt =>
      match readProp (Some prev) "counters" with
      | Throw msg => (Throw msg, fs)
      | Ok prevCounters =>
        match readProp (Some current) "counters" with
        | Throw msg => (Throw msg, fs)
        | Ok currentCounters =>
          match delta ToNumberOther prevCounters currentCounters with
          | Throw msg => (Throw msg, fs)
          | Ok countersDelta =>
              (Ok tt, mkFiles (apiFile fs) (snapshotsFile fs)
                 (Some (mkWeekly now "whatpulse-client-api" "weekly"
                          (Some (toStr ToStringOther prevAt ++ "/"
                                 ++ toStr ToStringOther currentAt)%string)
                          (Some countersDelta) None)))
          end
        end
      end
    end
  end.
Proof.
  unfold emitWeekly.
  assert (Hlen : List.length (older ++ [prev; current]) = S (S (List.length older))).
  { rewrite length_app. simpl. lia. }
  rewrite Hlen.
  replace (S (S (List.length older)) <? 2)%nat with false
    by (symmetry; apply Nat.ltb_ge; lia).
  replace (S (S (List.length older)) - 2) with (List.length older + 0) by lia.
  replace (S (S (List.length older)) - 1) with (List.length older + 1) by lia.
  rewrite !nth_error_app2 by lia.
  replace (List.length older + 0 - List.length older) with 0 by lia.
  replace (List.length older + 1 - List.length older) with 1 by lia.
  cbn [nth_error]. unfold bind, lift, writeWeekly.
  destruct (readProp (Some prev) "capturedAt"); [|reflexivity].
  destruct (readProp (Some current) "capturedAt"); [|reflexivity].
  destruct (readProp (Some prev) "counters"); [|reflexivity].
  destruct (readProp (Some current) "counters"); [|reflexivity].
  destruct (delta ToNumberOther _ _); reflexivity.
Qed.

Lemma readProp_nonnull (e : json) (k : string) :
  e <> JNull -> readProp (Some e) k = Ok (getProp e k).
Proof. destruct e; [contradiction | reflexivity ..]. Qed.

(** [delta] against the counters of a fresh snapshot. *)
Lemma delta_present (o : json) (c : Counters) :
  o <> JNull ->
  delta ToNumberOther (Some o) (Some (countersJson c))
  = Ok (mkCounters
          (Math_max zero (minus (keys c) (toNum ToNumberOther (getProp o "keys"))))
          (Math_max zero (minus (clicks c) (toNum ToNumberOther (getProp o "clicks"))))
          (Math_max zero (minus (scrolls c) (toNum ToNumberOther (getProp o "scrolls"))))
          (Math_max zero (minus (uptimeSeconds c)
                                (toNum ToNumberOther (getProp o "uptimeSeconds"))))).
Proof.
  intros Hnn. unfold delta. rewrite !(readProp_nonnull o) by exact Hnn. reflexivity.
Qed.


Lemma delta_counters (prev current : Counters) :
  delta ToNumberOther (Some (countersJson prev)) (Some (countersJson current))
  = Ok (clampedDifferences prev current).
Proof. reflexivity. Qed.



Lemma emitWeekly_after_entry (now : string) (older : list json) (prev o : json)
    (c : Counters) (fs : Files) :
  prev <> JNull -> getProp prev "counters" = Some o -> o <> JNull ->
  emitWeekly ToStringOther ToNumberOther now (older ++ [prev; snapshotAt now c]) fs
  = (Ok tt, mkFiles (apiFile fs) (snapshotsFile fs)
       (Some (mkWeekly now "whatpulse-client-api" "weekly"
                (Some (toStr ToStringOther (getProp prev "capturedAt") ++ "/" ++ now)%string)
                (Some (mkCounters
                   (Math_max zero (minus (keys c) (toNum ToNumberOther (getProp o "keys"))))
                   (Math_max zero (minus (clicks c) (toNum ToNumberOther (getProp o "clicks"))))
                   (Math_max zero (minus (scrolls c) (toNum ToNumberOther (getProp o "scrolls"))))
                   (Math_max zero (minus (uptimeSeconds c)
                                         (toNum ToNumberOther (getProp o "uptimeSeconds"))))))
                None))).
Proof.
  intros Hnn Ho Hon. rewrite emitWeekly_last_two.
  rewrite !(readProp_nonnull prev) by exact Hnn. rewrite Ho.
  assert (Hs : snapshotAt now c <> JNull) by discriminate.
  rewrite !(readProp_nonnull _ _ Hs).
  replace (getProp (snapshotAt now c) "counters") with (Some (countersJson c))
    by reflexivity.
  replace (getProp (snapshotAt now c) "capturedAt") with (Some (JString now))
    by reflexivity.
  rewrite (delta_present o c Hon). reflexivity.
Qed.

Lemma emitWeekly_after_snapshot (now : string) (older : list json) (prev : Snapshot)
    (c : Counters) (fs : Files) :
  emitWeekly ToStringOther ToNumberOther now
    (older ++ [snapshotJson prev; snapshotAt now c]) fs
  = (Ok tt, mkFiles (apiFile fs) (snapshotsFile fs)
       (Some (mkWeekly now "whatpulse-client-api" "weekly"
                (Some (capturedAt prev ++ "/" ++ now)%string)
                (Some (clampedDifferences (counters prev) c))
                None))).
Proof.
  rewrite (emitWeekly_after_entry now older (snapshotJson prev)
             (countersJson (counters prev)) c fs); [reflexivity | discriminate | reflexivity | discriminate].
Qed.

End WithCoercions.

End WeeklyFacts.
(* ================================================================== *)
(** ** Integers as binary64 numbers *)

Section IntegerFacts.

Import Weekly.

Local Open Scope Z_scope.

Lemma iter_pos_nat {A : Type} (f : A -> A) (n : positive) (x : A) :
  iter_pos f n x = Nat.iter (Pos.to_nat n) f x.
Proof.
  revert x. induction n as [n IH | n IH |]; intros x; simpl iter_pos.
  - rewrite !IH, Pos2Nat.inj_xI.
    replace (S (2 * Pos.to_nat n))%nat with (Pos.to_nat n + S (Pos.to_nat n))%nat by lia.
    rewrite Nat.iter_add. f_equal. now rewrite Nat.iter_succ_r.
  - rewrite !IH, Pos2Nat.inj_xO.
    replace (2 * Pos.to_nat n)%nat with (Pos.to_nat n + Pos.to_nat n)%nat by lia.
    now rewrite Nat.iter_add.
  - reflexivity.
Qed.

(** Shifting out zeros is exact. *)
Lemma shr_1_exact_steps (j : nat) :
  forall m q : positive,
    Zpos m = Zpos q * 2 ^ Z.of_nat j ->
    Nat.iter j shr_1 {| shr_m := Zpos m; shr_r := false; shr_s := false |}
    = {| shr_m := Zpos q; shr_r := false; shr_s := false |}.
Proof.
  induction j as [|j IH]; intros m q Hm.
  - simpl in *. f_equal. lia.
  - rewrite Nat.iter_succ_r.
    rewrite Nat2Z.inj_succ, Z.pow_succ_r in Hm by lia.
    destruct m as [m | m |]; [lia | | lia].
    cbn [shr_1 orb]. apply IH. lia.
Qed.

Lemma shr_exact (m q : positive) (e n : Z) :
  0 <= n -> Zpos m = Zpos q * 2 ^ n ->
  shr {| shr_m := Zpos m; shr_r := false; shr_s := false |} e n
  = ({| shr_m := Zpos q; shr_r := false; shr_s := false |}, e + n).
Proof.
  intros Hn Hm. destruct n as [|p|p]; [| |lia].
  - simpl in *. rewrite Z.add_0_r. do 2 f_equal. lia.
  - cbn [shr]. f_equal. rewrite iter_pos_nat.
    apply shr_1_exact_steps. now rewrite positive_nat_Z.
Qed.

(** The number of binary digits, by the value. *)
Lemma digits2_pos_unique (m : positive) (d : Z) :
  2 ^ (d - 1) <= Zpos m < 2 ^ d -> Zpos (digits2_pos m) = d.
Proof.
  intros [Hlo Hhi]. pose proof (digits2_pos_bounds m) as [Blo Bhi].
  assert (Hd : 0 < d).
  { destruct (Z.ltb_spec 0 d) as [H | H]; [exact H|].
    exfalso. destruct (Z.eq_dec d 0) as [-> | Hne].
    - simpl in Hhi. lia.
    - rewrite (Z.pow_neg_r 2 d) in Hhi by lia. lia. }
  destruct (Z.lt_trichotomy (Zpos (digits2_pos m)) d) as [H | [H | H]]; [|exact H|].
  - assert (2 ^ Zpos (digits2_pos m) <= 2 ^ (d - 1)) by (apply Z.pow_le_mono_r; lia).
    lia.
  - assert (2 ^ d <= 2 ^ (Zpos (digits2_pos m) - 1)) by (apply Z.pow_le_mono_r; lia).
    lia.
Qed.

Lemma digits2_pos_scaled (m n : positive) (k : Z) :
  0 <= k -> Zpos m = Zpos n * 2 ^ k ->
  Zpos (digits2_pos m) = Zpos (digits2_pos n) + k.
Proof.
  intros Hk Hm. apply digits2_pos_unique.
  pose proof (digits2_pos_bounds n) as [Blo Bhi].
  replace (Zpos (digits2_pos n) + k - 1) with ((Zpos (digits2_pos n) - 1) + k) by lia.
  rewrite !Z.pow_add_r by lia.
  assert (0 < 2 ^ k) by (apply Z.pow_pos_nonneg; lia).
  rewrite Hm. nia.
Qed.

Lemma normalMantissa_value (n : positive) :
  Zpos (digits2_pos n) <= 53 ->
  Zpos (normalMantissa n) = Zpos n * 2 ^ (53 - Zpos (digits2_pos n)).
Proof.
  intros Hd. unfold normalMantissa. rewrite Z2Pos.id; [reflexivity|].
  assert (0 < 2 ^ (53 - Zpos (digits2_pos n))) by (apply Z.pow_pos_nonneg; lia).
  nia.
Qed.

Lemma normalMantissa_digits (n : positive) :
  Zpos (digits2_pos n) <= 53 ->
  Zpos (digits2_pos (normalMantissa n)) = 53.
Proof.
  intros Hd.
  rewrite (digits2_pos_scaled (normalMantissa n) n (53 - Zpos (digits2_pos n)));
    [lia | lia | now apply normalMantissa_value].
Qed.

(** Rounding a mantissa of 53 digits followed by zeros. *)
Lemma binary_round_aux_exact (s : bool) (m M : positive) (e sft : Z) :
  0 <= sft ->
  Zpos m = Zpos M * 2 ^ sft ->
  Zpos (digits2_pos M) = 53 ->
  -1074 <= e + sft <= 971 ->
  binary_round_aux 53 1024 s (Zpos m) e loc_Exact = S754_finite s M (e + sft).
Proof.
  intros Hs Hm HM HE.
  pose proof (digits2_pos_scaled m M sft Hs Hm) as Hdm.
  unfold binary_round_aux, shr_fexp.
  cbn [Zdigits2 shr_record_of_loc]. rewrite Hdm, HM.
  replace (fexp 53 1024 (53 + sft + e) - e) with sft
    by (unfold fexp, emin; lia).
  rewrite (shr_exact m M e sft Hs Hm).
  cbn [shr_m loc_of_shr_record round_nearest_even Zdigits2 shr_record_of_loc].
  rewrite HM.
  replace (fexp 53 1024 (53 + (e + sft)) - (e + sft)) with 0
    by (unfold fexp, emin; lia).
  cbn [shr shr_m].
  replace (e + sft <=? 1024 - 53) with true by (symmetry; apply Z.leb_le; lia).
  reflexivity.
Qed.

(** Rounding an integer below 2^53 scaled by a power of two is exact. *)
Lemma binary_round_exact (s : bool) (m n : positive) (e k : Z) :
  0 <= k ->
  Zpos m = Zpos n * 2 ^ k ->
  Zpos (digits2_pos n) <= 53 ->
  -1074 <= e + k + Zpos (digits2_pos n) - 53 <= 971 ->
  binary_round 53 1024 s m e
  = S754_finite s (normalMantissa n) (e + k + Zpos (digits2_pos n) - 53).
Proof.
  intros Hk Hm Hd HE.
  pose proof (digits2_pos_scaled m n k Hk Hm) as Hdm.
  pose proof (normalMantissa_value n Hd) as HM.
  pose proof (normalMantissa_digits n Hd) as HMd.
  unfold binary_round. rewrite Hdm.
  replace (fexp 53 1024 (Zpos (digits2_pos n) + k + e))
    with (e + k + Zpos (digits2_pos n) - 53) by (unfold fexp, emin; lia).
  unfold shl_align.
  destruct (e + k + Zpos (digits2_pos n) - 53 - e) as [|p|p] eqn:Hsh.
  - replace (e + k + Zpos (digits2_pos n) - 53) with (e + 0) by lia.
    apply binary_round_aux_exact; [lia | | exact HMd | lia].
    rewrite HM, Hm. replace (53 - Zpos (digits2_pos n)) with k by lia. simpl. lia.
  - replace (e + k + Zpos (digits2_pos n) - 53) with (e + Zpos p) by lia.
    apply binary_round_aux_exact; [lia | | exact HMd | lia].
    rewrite HM, Hm.
    replace k with ((53 - Zpos (digits2_pos n)) + Zpos p) by lia.
    rewrite Z.pow_add_r by lia. lia.
  - replace (e + k + Zpos (digits2_pos n) - 53)
      with ((e + k + Zpos (digits2_pos n) - 53) + 0) at 2 by lia.
    apply binary_round_aux_exact; [lia | | exact HMd | lia].
    rewrite iter_xO_value, HM, Hm.
    replace (53 - Zpos (digits2_pos n)) with (k + Zpos p) by lia.
    rewrite Z.pow_add_r by lia. simpl (2 ^ 0). lia.
Qed.

Lemma safeCount_digits (n : positive) :
  safeCount (Zpos n) -> Zpos (digits2_pos n) <= 53.
Proof.
  intros [_ Hn]. pose proof (digits2_pos_bounds n) as [Blo _].
  destruct (Z.leb_spec (Zpos (digits2_pos n)) 53) as [H | H]; [exact H|].
  assert (2 ^ 53 <= 2 ^ (Zpos (digits2_pos n) - 1)) by (apply Z.pow_le_mono_r; lia).
  lia.
Qed.

(** The binary64 number of a positive integer below 2^53. *)
Lemma ofInteger_pos (n : positive) :
  safeCount (Zpos n) ->
  ofInteger (Zpos n)
  = S754_finite false (normalMantissa n) (Zpos (digits2_pos n) - 53).
Proof.
  intros Hn. pose proof (safeCount_digits n Hn) as Hd.
  unfold ofInteger. cbn [binary_normalize].
  rewrite (binary_round_exact false n n 0 0); [f_equal; lia | lia | simpl; lia | exact Hd |].
  pose proof (Pos2Z.is_pos (digits2_pos n)). lia.
Qed.

Lemma ofInteger_zero : ofInteger 0 = zero.
Proof. reflexivity. Qed.

(** An integer scaled by a power of two normalises to the integer. *)
Lemma binary_normalize_scaled_pos (n : positive) (k : Z) :
  safeCount (Zpos n) -> 0 <= k -> k <= 53 ->
  binary_normalize 53 1024 (Zpos n * 2 ^ k) (- k) false = ofInteger (Zpos n).
Proof.
  intros Hn Hk Hk53. pose proof (safeCount_digits n Hn) as Hd.
  rewrite (ofInteger_pos n Hn).
  assert (Hpos : 0 < Zpos n * 2 ^ k).
  { assert (0 < 2 ^ k) by (apply Z.pow_pos_nonneg; lia). nia. }
  destruct (Zpos n * 2 ^ k) as [|m|m] eqn:Hm; [lia | | lia].
  cbn [binary_normalize].
  rewrite (binary_round_exact false m n (- k) k Hk (eq_sym Hm) Hd); [f_equal; lia|].
  pose proof (Pos2Z.is_pos (digits2_pos n)). lia.
Qed.

Lemma Math_max_zero_ofInteger (z : Z) :
  safeCount z -> Math_max zero (ofInteger z) = ofInteger z.
Proof.
  intros Hz. destruct z as [|n|n]; [reflexivity | | destruct Hz; lia].
  now rewrite (ofInteger_pos n Hz).
Qed.

(** The difference of two integers below 2^53, as numbers. *)
Lemma minus_ofInteger_pos (c p : positive) :
  safeCount (Zpos c) -> safeCount (Zpos p) ->
  minus (ofInteger (Zpos c)) (ofInteger (Zpos p))
  = binary_normalize 53 1024
      ((Zpos c - Zpos p)
       * 2 ^ (53 - Z.min (Zpos (digits2_pos c)) (Zpos (digits2_pos p))))
      (- (53 - Z.min (Zpos (digits2_pos c)) (Zpos (digits2_pos p)))) false.
Proof.
  intros Hc Hp.
  pose proof (safeCount_digits c Hc) as Hdc.
  pose proof (safeCount_digits p Hp) as Hdp.
  rewrite (ofInteger_pos c Hc), (ofInteger_pos p Hp).
  unfold minus, SFsub. cbn [cond_Zopp].
  set (ez := Z.min (Zpos (digits2_pos c) - 53) (Zpos (digits2_pos p) - 53)).
  rewrite (shl_align_value (normalMantissa c) _ ez) by (unfold ez; lia).
  rewrite (shl_align_value (normalMantissa p) _ ez) by (unfold ez; lia).
  rewrite (normalMantissa_value c Hdc), (normalMantissa_value p Hdp).
  assert (Hez : - (53 - Z.min (Zpos (digits2_pos c)) (Zpos (digits2_pos p))) = ez)
    by (unfold ez; lia).
  rewrite Hez. f_equal.
  replace (53 - Z.min (Zpos (digits2_pos c)) (Zpos (digits2_pos p))) with (- ez)
    by lia.
  rewrite <- !Z.mul_assoc, <- !Z.pow_add_r by (unfold ez; lia).
  replace (53 - Zpos (digits2_pos c) + (Zpos (digits2_pos c) - 53 - ez)) with (- ez)
    by lia.
  replace (53 - Zpos (digits2_pos p) + (Zpos (digits2_pos p) - 53 - ez)) with (- ez)
    by lia.
  lia.
Qed.

(** On integers below 2^53 the clamped difference is the one of integer
    arithmetic. *)
Lemma clampedDifference_ofInteger (p c : Z) :
  safeCount p -> safeCount c ->
  clampedDifference (ofInteger p) (ofInteger c) = ofInteger (Z.max 0 (c - p)).
Proof.
  intros Hp Hc. unfold clampedDifference.
  destruct p as [|p|p]; [| |destruct Hp; lia];
    (destruct c as [|c|c]; [| |destruct Hc; lia]).
  - reflexivity.
  - rewrite Z.sub_0_r, Z.max_r by lia.
    rewrite ofInteger_zero. rewrite (ofInteger_pos c Hc). reflexivity.
  - rewrite Z.max_l by lia. rewrite ofInteger_zero, (ofInteger_pos p Hp). reflexivity.
  - rewrite (minus_ofInteger_pos c p Hc Hp).
    set (k := 53 - Z.min (Zpos (digits2_pos c)) (Zpos (digits2_pos p))).
    assert (Hk : 0 <= k <= 53).
    { pose proof (safeCount_digits c Hc). pose proof (safeCount_digits p Hp).
      pose proof (Pos2Z.is_pos (digits2_pos c)).
      pose proof (Pos2Z.is_pos (digits2_pos p)). unfold k. lia. }
    assert (Hpow : 0 < 2 ^ k) by (apply Z.pow_pos_nonneg; lia).
    destruct (Z.lt_trichotomy (Zpos c) (Zpos p)) as [Hlt | [Heq | Hgt]].
    + rewrite Z.max_l by lia.
      pose proof (binary_normalize_cases ((Zpos c - Zpos p) * 2 ^ k) (- k)) as H.
      destruct ((Zpos c - Zpos p) * 2 ^ k) as [|m|m] eqn:E; [nia | nia |].
      apply Math_max_zero_nonPositive. now apply roundedWithSign_true_nonPositive.
    + rewrite Heq, Z.sub_diag, Z.max_l by lia. reflexivity.
    + rewrite Z.max_r by lia.
      destruct (Zpos c - Zpos p) as [|n|n] eqn:E; [lia | | lia].
      assert (Hn : safeCount (Zpos n)) by (destruct Hc, Hp; split; lia).
      rewrite (binary_normalize_scaled_pos n k Hn) by lia.
      now apply Math_max_zero_ofInteger.
Qed.

(** Distinct integers below 2^53 are distinct numbers, and every one of
    them is a binary64 number in canonical form. *)
Lemma ofInteger_injective (a b : Z) :
  safeCount a -> safeCount b -> ofInteger a = ofInteger b -> a = b.
Proof.
  intros Ha Hb.
  destruct a as [|a|a]; [| |destruct Ha; lia];
    (destruct b as [|b|b]; [| |destruct Hb; lia]).
  - reflexivity.
  - rewrite (ofInteger_pos b Hb). discriminate.
  - rewrite (ofInteger_pos a Ha). discriminate.
  - rewrite (ofInteger_pos a Ha), (ofInteger_pos b Hb). intros H.
    assert (HM : normalMantissa a = normalMantissa b) by congruence.
    assert (HE : Zpos (digits2_pos a) - 53 = Zpos (digits2_pos b) - 53) by congruence.
    pose proof (normalMantissa_value a (safeCount_digits a Ha)) as Va.
    pose proof (normalMantissa_value b (safeCount_digits b Hb)) as Vb.
    rewrite HM in Va. rewrite Va in Vb.
    replace (Zpos (digits2_pos b)) with (Zpos (digits2_pos a)) in Vb by lia.
    assert (0 < 2 ^ (53 - Zpos (digits2_pos a))).
    { apply Z.pow_pos_nonneg; [lia|]. pose proof (safeCount_digits a Ha). lia. }
    nia.
Qed.

Lemma ofInteger_valid (z : Z) : safeCount z -> validNumber (ofInteger z).
Proof.
  intros Hz. destruct z as [|n|n]; [reflexivity | | destruct Hz; lia].
  rewrite (ofInteger_pos n Hz).
  pose proof (safeCount_digits n Hz) as Hd.
  pose proof (Pos2Z.is_pos (digits2_pos n)) as Hpos.
  unfold validNumber, valid_binary, bounded, canonical_mantissa.
  rewrite (normalMantissa_digits n Hd).
  apply andb_true_iff. split.
  - apply Z.eqb_eq. unfold fexp, emin. lia.
  - apply Z.leb_le. lia.
Qed.

End IntegerFacts.
(* ================================================================== *)
(** ** The ledger and the weekly delta engine: claims *)

Section WeeklyClaims.

Import Weekly.

Variable ToStringOther : option json -> string.
Variable ToNumberOther : option json -> number.

(** C3.  Snapshot extraction reads unpulsed when it is non-null and falls
    back to totals when unpulsed is null; the counters it extracts are
    the four finite fields of one of the two sections; whenever neither
    section yields four such counters, the run fails and leaves every
    file, the ledger included, exactly as it was; a failed extraction
    always leaves every file as it was; and what a run appends to the
    ledger is a snapshot of four finite counters (the extracted ones, as
    [JSON.stringify] writes them), never a partial one. *)
Theorem extraction_fails_before_ledger_append (now : string) (fs : Files) (api : json) :
  apiFile fs = ApiJson api ->
  (forall u c, getProp api "unpulsed" = Some u -> u <> JNull ->
               Resolves (Some u) c -> getCounters api = Ok c)
  /\ (forall c, getProp api "unpulsed" = None \/ getProp api "unpulsed" = Some JNull ->
                Resolves (getProp api "totals") c -> getCounters api = Ok c)
  /\ (forall c, getCounters api = Ok c ->
                Resolves (getProp api "unpulsed") c \/ Resolves (getProp api "totals") c)
  /\ (Unresolvable (getProp api "unpulsed") -> Unresolvable (getProp api "totals") ->
      exists msg, main ToStringOther ToNumberOther now fs = (Throw msg, fs))
  /\ (forall msg, getCounters api = Throw msg ->
                  main ToStringOther ToNumberOther now fs = (Throw msg, fs))
  /\ (forall c, getCounters api = Ok c ->
                finiteCounters c
                /\ finiteCounters (countersAsWritten c)
                /\ snapshotsFile (snd (main ToStringOther ToNumberOther now fs))
                   = LedgerArray (map stringifyParse (validSnapshots (snapshotsFile fs))
                                  ++ [snapshotAt now (countersAsWritten c)])).
Proof.
  intros Hapi.
  split; [|split; [|split; [|split; [|split]]]].
  - intros u c Hu Hnn Hres.
    assert (Hapinn : api <> JNull) by (intros ->; discriminate).
    rewrite (getCounters_unfold api Hapinn). cbv zeta. rewrite Hu.
    replace (nullish (Some u) _) with u by (now destruct u).
    now apply read_resolved.
  - intros c Hu (t & Ht & Hres).
    assert (Hapinn : api <> JNull) by (intros ->; discriminate).
    assert (Htnn : t <> JNull) by (intros ->; now destruct Hres).
    rewrite (getCounters_unfold api Hapinn). cbv zeta. rewrite Ht.
    replace (nullish (getProp api "unpulsed") (nullish (Some t) (JObject [])))
      with t by (destruct Hu as [-> | ->]; now destruct t).
    apply read_resolved. now exists t.
  - apply getCounters_Ok_resolves.
  - intros Hu Ht.
    destruct (getCounters_unresolvable api Hu Ht) as [msg Hmsg].
    exists msg. now apply (main_not_extracted _ _ now fs api).
  - intros msg Hmsg. now apply (main_not_extracted _ _ now fs api).
  - intros c Hc. pose proof (getCounters_finite api c Hc) as F.
    split; [exact F|]. split; [now apply countersAsWritten_finite|].
    rewrite (main_extracted ToStringOther ToNumberOther now fs api c Hapi Hc).
    destruct (emitWeekly_outcome ToStringOther ToNumberOther now
                (validSnapshots (snapshotsFile fs) ++ [snapshotAt now c])
                (mkFiles (apiFile fs)
                   (LedgerArray (map stringifyParse (validSnapshots (snapshotsFile fs))
                                 ++ [snapshotAt now (countersAsWritten c)]))
                   (weeklyFile fs))) as [(w & ->) | (msg & ->)]; reflexivity.
Qed.

(** C4.  For all pairs of counter sets, [delta] returns a counter set
    each of whose fields is [max(0, current - prev)] of that field alone,
    in binary64 arithmetic.  No field is ever below zero; for finite
    readings every field is at least zero, and a field whose current
    reading is below the previous one (both finite binary64 values in
    canonical form) is exactly zero. *)
Theorem delta_clamps_each_field (prev current : Counters) :
  exists d,
    delta ToNumberOther (Some (countersJson prev)) (Some (countersJson current)) = Ok d
    /\ forall f,
         counterOf f d = clampedDifference (counterOf f prev) (counterOf f current)
         /\ SFltb (counterOf f d) zero = false
         /\ (isFinite (counterOf f prev) = true -> isFinite (counterOf f current) = true ->
             SFleb zero (counterOf f d) = true)
         /\ (isFinite (counterOf f prev) = true -> isFinite (counterOf f current) = true ->
             validNumber (counterOf f prev) -> validNumber (counterOf f current) ->
             SFltb (counterOf f current) (counterOf f prev) = true ->
             counterOf f d = zero).
Proof.
  exists (clampedDifferences prev current).
  split; [apply delta_counters|].
  intros f.
  assert (E : counterOf f (clampedDifferences prev current)
              = clampedDifference (counterOf f prev) (counterOf f current))
    by (destruct f; reflexivity).
  rewrite E. unfold clampedDifference.
  split; [reflexivity|]. split; [apply Math_max_zero_never_negative|]. split.
  - intros Fp Fc. apply Math_max_zero_ge_zero. now apply minus_finite_not_nan.
  - intros Fp Fc Vp Vc Hlt. apply Math_max_zero_nonPositive.
    now apply minus_of_smaller_nonPositive.
Qed.

(** C5.  Over a ledger of snapshots, a run whose extraction succeeds
    writes the ledger extended by the new snapshot and a weekly record
    decided by the new ledger's length: with fewer than 2 snapshots the
    record has range null, counters null and a non-null note; with 2 or
    more it has range "<prev.capturedAt>/<current.capturedAt>" for the two
    most recent entries, non-null counters (their delta) and note null.
    So exactly one of range-and-counters or note is populated. *)
Theorem weekly_record_two_states (now : string) (fs : Files) (api : json) (c : Counters)
    (prior : list Snapshot) :
  apiFile fs = ApiJson api ->
  getCounters api = Ok c ->
  validSnapshots (snapshotsFile fs) = map snapshotJson prior ->
  exists ledger w,
    main ToStringOther ToNumberOther now fs
    = (Ok tt, mkFiles (apiFile fs)
                (LedgerArray (map stringifyParse (map snapshotJson prior)
                              ++ [snapshotAt now (countersAsWritten c)]))
                (Some w))
    /\ ledger = prior ++ [mkSnapshot now "whatpulse-client-api" c]
    /\ ((List.length ledger < 2
         /\ range w = None /\ w_counters w = None /\ note w <> None)
        \/ (2 <= List.length ledger
            /\ (exists older prev current d,
                   ledger = older ++ [prev; current]
                   /\ range w = Some (capturedAt prev ++ "/" ++ capturedAt current)%string
                   /\ delta ToNumberOther (Some (countersJson (counters prev)))
                                          (Some (countersJson (counters current))) = Ok d
                   /\ w_counters w = Some d)
            /\ range w <> None /\ w_counters w <> None /\ note w = None)).
Proof.
  intros Hapi Hc Hvalid.
  rewrite (main_extracted ToStringOther ToNumberOther now fs api c Hapi Hc).
  rewrite Hvalid.
  destruct prior as [|p prior' _] using rev_ind.
  - cbn [map app]. rewrite emitWeekly_single. cbn [apiFile snapshotsFile].
    eexists _, _. split; [reflexivity|]. split; [reflexivity|].
    left. simpl. repeat split; [lia | discriminate].
  - replace (map snapshotJson (prior' ++ [p]) ++ [snapshotAt now c])
      with (map snapshotJson prior' ++ [snapshotJson p; snapshotAt now c])
      by (rewrite map_app, <- app_assoc; reflexivity).
    rewrite emitWeekly_after_snapshot. cbn [apiFile snapshotsFile].
    eexists _, _. split; [reflexivity|]. split; [reflexivity|].
    right. split; [rewrite !length_app; simpl; lia|]. split.
    + exists prior', p, (mkSnapshot now "whatpulse-client-api" c),
             (clampedDifferences (counters p) c).
      split; [now rewrite <- app_assoc|]. repeat split.
    + repeat split; discriminate.
Qed.

(** C6.  Appending to the ledger never fails: a missing file, content that
    is not valid JSON, or valid JSON that is not an array counts as an
    empty ledger.  After appending [s] the persisted ledger is the prior
    valid history followed by [s], each as [JSON.stringify] writes it: its
    last element is [s] with its counters as written, which is exactly [s]
    when the counters are finite and none is -0, and its length is the
    prior valid length plus 1, hence 1 from a missing or corrupt file. *)
Theorem append_extends_valid_history (s : Snapshot) (fs : Files) :
  exists ledger persisted,
    appendSnapshot s fs
    = (Ok ledger, mkFiles (apiFile fs) (LedgerArray persisted) (weeklyFile fs))
    /\ ledger = validSnapshots (snapshotsFile fs) ++ [snapshotJson s]
    /\ persisted = map stringifyParse (validSnapshots (snapshotsFile fs))
                   ++ [stringifyParse (snapshotJson s)]
    /\ nth_error ledger (List.length ledger - 1) = Some (snapshotJson s)
    /\ nth_error persisted (List.length persisted - 1)
       = Some (stringifyParse (snapshotJson s))
    /\ (finiteCounters (counters s) ->
        nth_error persisted (List.length persisted - 1)
        = Some (snapshotJson (mkSnapshot (capturedAt s) (source s)
                                         (countersAsWritten (counters s)))))
    /\ (readBackUnchanged (counters s) ->
        nth_error persisted (List.length persisted - 1) = Some (snapshotJson s))
    /\ List.length ledger = List.length (validSnapshots (snapshotsFile fs)) + 1
    /\ List.length persisted = List.length (validSnapshots (snapshotsFile fs)) + 1
    /\ (forall l, snapshotsFile fs = LedgerArray l ->
                  persisted = map stringifyParse l ++ [stringifyParse (snapshotJson s)]
                  /\ List.length persisted = List.length l + 1)
    /\ (snapshotsFile fs = LedgerMissing
        \/ (exists text, snapshotsFile fs = LedgerNotJson text)
        \/ (exists text, snapshotsFile fs = LedgerNotArray text) ->
        ledger = [snapshotJson s]
        /\ persisted = [stringifyParse (snapshotJson s)]
        /\ List.length persisted = 1).
Proof.
  exists (validSnapshots (snapshotsFile fs) ++ [snapshotJson s]),
         (map stringifyParse (validSnapshots (snapshotsFile fs))
          ++ [stringifyParse (snapshotJson s)]).
  split.
  { rewrite appendSnapshot_run. now rewrite map_app. }
  split; [reflexivity|]. split; [reflexivity|].
  assert (Hlen : forall (l : list json) (x : json),
             List.length (map stringifyParse l ++ [x]) = List.length l + 1).
  { intros l x. rewrite length_app, length_map. reflexivity. }
  assert (Hlast : forall (l : list json) (x : json),
             nth_error (map stringifyParse l ++ [x])
                       (List.length (map stringifyParse l ++ [x]) - 1) = Some x).
  { intros l x. rewrite Hlen, nth_error_app2 by (rewrite length_map; lia).
    rewrite length_map. replace (_ - _) with 0 by lia. reflexivity. }
  split.
  { rewrite length_app, nth_error_app2 by (simpl; lia).
    replace (_ - _) with 0 by (simpl; lia). reflexivity. }
  split; [apply Hlast|]. split.
  { intros F. rewrite Hlast. f_equal. now apply stringifyParse_snapshot. }
  split.
  { intros [F E]. rewrite Hlast. f_equal.
    rewrite (stringifyParse_snapshot s F), E. now destruct s. }
  split; [rewrite length_app; reflexivity|].
  split; [apply Hlen|]. split.
  - intros l ->. simpl. split; [reflexivity | apply Hlen].
  - intros [-> | [[text ->] | [text ->]]]; simpl; now repeat split.
Qed.

End WeeklyClaims.

(** *** The claims on concrete runs *)

Lemma extraction_fails_before_ledger_append_witness :
  exists msg,
    Weekly.main sampleToString sampleToNumber "2026-02-24T01:00:00.000Z"
         (Weekly.mkFiles (Weekly.ApiJson unresolvedReport)
                         (Weekly.LedgerArray [Weekly.snapshotJson snapshotT1]) None)
    = (Throw msg, Weekly.mkFiles (Weekly.ApiJson unresolvedReport)
                    (Weekly.LedgerArray [Weekly.snapshotJson snapshotT1]) None).
Proof.
  refine (proj1 (proj2 (proj2 (proj2
            (extraction_fails_before_ledger_append sampleToString sampleToNumber
               "2026-02-24T01:00:00.000Z"
               (Weekly.mkFiles (Weekly.ApiJson unresolvedReport)
                               (Weekly.LedgerArray [Weekly.snapshotJson snapshotT1]) None)
               unresolvedReport eq_refl)))) _ _).
  - exact Unresolvable_null.
  - intros c (j & [= <-] & Hk & _). discriminate.
Defined.

Lemma delta_clamps_each_field_witness :
  SFltb (ofInteger 10) (ofInteger 500) = true
  /\ exists d,
       Weekly.delta sampleToNumber
         (Some (Weekly.countersJson
                  (Weekly.mkCounters (ofInteger 500) (ofInteger 300)
                                     (ofInteger 10) (ofInteger 1))))
         (Some (Weekly.countersJson
                  (Weekly.mkCounters (ofInteger 10) (ofInteger 350)
                                     (ofInteger 20) (ofInteger 9007199254740994))))
       = Ok d
       /\ Weekly.keys d = Weekly.zero
       /\ Weekly.clicks d = ofInteger 50
       /\ Weekly.uptimeSeconds d = ofInteger 9007199254740992.
Proof.
  split; [vm_compute; reflexivity|].
  destruct (delta_clamps_each_field sampleToNumber
              (Weekly.mkCounters (ofInteger 500) (ofInteger 300)
                                 (ofInteger 10) (ofInteger 1))
              (Weekly.mkCounters (ofInteger 10) (ofInteger 350)
                                 (ofInteger 20) (ofInteger 9007199254740994)))
    as (d & Hd & Hf).
  exists d. split; [exact Hd|]. split; [|split].
  - destruct (Hf WhatPulse.keys) as (_ & _ & _ & Hreset).
    apply Hreset; vm_compute; reflexivity.
  - destruct (Hf WhatPulse.clicks) as (E & _). simpl in E.
    rewrite E. vm_compute. reflexivity.
  - destruct (Hf WhatPulse.uptimeSeconds) as (E & _). simpl in E.
    rewrite E. vm_compute. reflexivity.
Defined.

Lemma weekly_record_two_states_witness :
  exists w,
    Weekly.main sampleToString sampleToNumber "t2"
      (Weekly.mkFiles (Weekly.ApiJson resolvedReport)
                      (Weekly.LedgerArray [Weekly.snapshotJson snapshotT1]) None)
    = (Ok tt, Weekly.mkFiles (Weekly.ApiJson resolvedReport)
                (Weekly.LedgerArray
                   [Weekly.snapshotJson snapshotT1;
                    snapshotAt "t2" (Weekly.mkCounters (ofInteger 150) (ofInteger 150)
                                                       (ofInteger 150) (ofInteger 150))])
                (Some w))
    /\ Weekly.range w = Some "t1/t2"
    /\ Weekly.w_counters w
       = Some (Weekly.mkCounters (ofInteger 50) (ofInteger 50) (ofInteger 50) (ofInteger 50))
    /\ Weekly.note w = None.
Proof.
  destruct (weekly_record_two_states sampleToString sampleToNumber "t2"
              (Weekly.mkFiles (Weekly.ApiJson resolvedReport)
                              (Weekly.LedgerArray [Weekly.snapshotJson snapshotT1]) None)
              resolvedReport
              (Weekly.mkCounters (ofInteger 150) (ofInteger 150)
                                 (ofInteger 150) (ofInteger 150))
              [snapshotT1] eq_refl eq_refl eq_refl)
    as (ledger & w & Hrun & Hledger & Hstate).
  exists w. simpl in Hledger. subst ledger. split; [exact Hrun|].
  destruct Hstate
    as [(Hlt & _) | (_ & (older & prev & current & d & Hl & Hr & Hd & Hcs) & _ & _ & Hn)].
  - simpl in Hlt. lia.
  - destruct older as [|o [|o' older]]; simpl in Hl.
    + injection Hl as <- <-. split; [exact Hr|]. split; [|exact Hn].
      rewrite Hcs. f_equal. vm_compute in Hd. now injection Hd as <-.
    + injection Hl as _ Hl. discriminate.
    + injection Hl as _ Hl. destruct older; discriminate.
Defined.

Lemma append_extends_valid_history_witness :
  Weekly.appendSnapshot snapshotT1
    (Weekly.mkFiles Weekly.ApiMissing (Weekly.LedgerNotJson "{oops") None)
  = (Ok [Weekly.snapshotJson snapshotT1],
     Weekly.mkFiles Weekly.ApiMissing
       (Weekly.LedgerArray [Weekly.snapshotJson snapshotT1]) None).
Proof.
  destruct (append_extends_valid_history snapshotT1
              (Weekly.mkFiles Weekly.ApiMissing (Weekly.LedgerNotJson "{oops") None))
    as (ledger & persisted & Hrun & _ & _ & _ & _ & _ & _ & _ & _ & _ & Hcorrupt).
  destruct Hcorrupt as (-> & -> & _); [right; left; now exists "{oops"|].
  exact Hrun.
Defined.

(* ================================================================== *)
(** ** The fetcher's diagnostic snippet: claims *)

Section FetchClaims.

Import Fetch.

(** C9 (counterexample).  A response body of 201 characters yields a
    snippet of 203 characters: 200 of the body and the three dots. *)
Lemma snippet_exceeds_200 :
  String.length longBody = 201
  /\ String.length (snippet longBody) = 203
  /\ ~ String.length (snippet longBody) <= 200.
Proof.
  assert (H : String.length (snippet longBody) = 203) by (vm_compute; reflexivity).
  split; [vm_compute; reflexivity|]. split; [exact H|]. rewrite H. lia.
Qed.

(** C9 (amended).  For every response body text the snippet is at most 203
    characters long: the trimmed text itself when that has at most 200
    characters, otherwise its first 200 characters followed by "...". *)
Theorem snippet_bounded (text : string) :
  String.length (snippet text) <= 203
  /\ (String.length (trim text) <= 200 -> snippet text = trim text)
  /\ (200 < String.length (trim text) ->
      snippet text = (slice0 200 (trim text) ++ "...")%string
      /\ String.length (slice0 200 (trim text)) = 200
      /\ String.length (snippet text) = 203).
Proof.
  unfold snippet, safeSnippet.
  destruct (Nat.leb_spec (String.length (trim text)) 200) as [Hle | Hgt].
  - split; [lia|]. split; [reflexivity | lia].
  - assert (Hs : String.length (slice0 200 (trim text)) = 200).
    { rewrite length_slice0. lia. }
    assert (Hl : String.length (slice0 200 (trim text) ++ "...")%string = 203).
    { rewrite length_append, Hs. reflexivity. }
    split; [lia|]. split; [lia|]. intros _. now repeat split.
Qed.

Lemma snippet_bounded_witness :
  200 < String.length (trim longBody)
  /\ String.length (snippet longBody) = 203.
Proof.
  assert (H : 200 < String.length (trim longBody)).
  { apply Nat.ltb_lt. vm_compute. reflexivity. }
  split; [exact H|].
  exact (proj2 (proj2 (proj2 (proj2 (snippet_bounded longBody)) H))).
Defined.

End FetchClaims.

(* ================================================================== *)
(** ** The locator: further properties *)

Section LocatorProperties.

Import WhatPulse.

(** X1.  Every candidate collected for a field class is a finite numeric
    leaf of the document, recorded with the leaf's own path and
    lower-cased path, whose key contains or is contained by one of the
    class's patterns. *)
Theorem collected_candidates_are_matching_leaves (data : json)
    (field : NumericField) (c : Candidate) :
  In c (collectCandidates data "" "" field (FIELD_PATTERNS field) []) ->
  Leaf data "" "" (value c) (WhatPulse.path c) (pathLower c)
  /\ isFinite (value c) = true
  /\ exists pat,
       In pat (FIELD_PATTERNS field)
       /\ (Substring pat (leafKey (WhatPulse.path c))
           \/ Substring (leafKey (WhatPulse.path c)) pat).
Proof.
  intros Hc.
  apply collectCandidates_sound in Hc as [[] | (Hleaf & Hfin & Hm & _)].
  repeat split; try assumption. now apply matchesPatterns_spec.
Qed.

Lemma collected_candidates_are_matching_leaves_witness :
  Leaf dataA "" "" (ofInteger 300) "stats/totals/clicks" "/stats/totals/clicks"
  /\ exists pat,
       In pat (FIELD_PATTERNS clicks)
       /\ (Substring pat (leafKey "stats/totals/clicks")
           \/ Substring (leafKey "stats/totals/clicks") pat).
Proof.
  destruct (collected_candidates_are_matching_leaves dataA clicks
              (mkCandidate (ofInteger 300) "stats/totals/clicks"
                           "/stats/totals/clicks" TagTotals))
    as (Hleaf & _ & Hpat).
  - now left.
  - split; [exact Hleaf | exact Hpat].
Defined.

Lemma pathScore_three (pl h1 h2 h3 : string) :
  pathScore pl [h1; h2; h3] =
  ((if includes pl h1 then 10 else 0)
   + (if includes pl h2 then 10 else 0)
   + (if includes pl h3 then 10 else 0))%Z.
Proof.
  unfold pathScore. simpl.
  destruct (includes pl h1), (includes pl h2), (includes pl h3); reflexivity.
Qed.

Lemma pathScore_bounds (pl : string) (hints : list string) :
  (0 <= pathScore pl hints <= 10 * Z.of_nat (List.length hints))%Z.
Proof.
  unfold pathScore.
  assert (H : forall start,
             (start <= fold_left (fun score h => if includes pl h then score + 10 else score)
                                 hints start
              <= start + 10 * Z.of_nat (List.length hints))%Z).
  { induction hints as [|h hints IH]; intros start; simpl List.length; simpl fold_left.
    - lia.
    - destruct (includes pl h); [specialize (IH (start + 10)%Z) | specialize (IH start)];
        lia. }
  specialize (H 0%Z). lia.
Qed.

(** X2.  A path scores between 0 and ten times the number of hints.
    Against the totals hints it scores above 0 exactly when it contains
    "total", against the unpulsed hints exactly when it contains "unpulse"
    or "pending"; so a path tagged ['none'] scores 0 against both lists,
    and a path tagged ['totals'] or ['unpulsed'] scores at least 10 against
    its own section's list. *)
Theorem pathScore_agrees_with_tag (pl : string) :
  (forall hints, 0 <= pathScore pl hints <= 10 * Z.of_nat (List.length hints))%Z
  /\ ((0 < pathScore pl TOTALS_PATH_HINTS)%Z <-> Substring "total" pl)
  /\ ((0 < pathScore pl UNPULSED_PATH_HINTS)%Z <->
      Substring "unpulse" pl \/ Substring "pending" pl)
  /\ (sectionOf pl = TagNone ->
      pathScore pl TOTALS_PATH_HINTS = 0%Z /\ pathScore pl UNPULSED_PATH_HINTS = 0%Z)
  /\ (sectionOf pl = TagTotals -> (10 <= pathScore pl TOTALS_PATH_HINTS)%Z)
  /\ (sectionOf pl = TagUnpulsed -> (10 <= pathScore pl UNPULSED_PATH_HINTS)%Z).
Proof.
  assert (Ht : (0 < pathScore pl TOTALS_PATH_HINTS)%Z <-> Substring "total" pl).
  { unfold TOTALS_PATH_HINTS. rewrite pathScore_three.
    destruct (includes pl "total") eqn:H2.
    - split; [intros _; now apply includes_spec|].
      intros _. destruct (includes pl "totals"), (includes pl "accounttotals"); lia.
    - assert (Hn : ~ Substring "total" pl) by (rewrite <- includes_spec; congruence).
      destruct (includes pl "totals") eqn:H1.
      { exfalso. apply Hn. apply includes_spec in H1.
        apply (Substring_trans _ "totals"); [now exists "", "s" | assumption]. }
      destruct (includes pl "accounttotals") eqn:H3.
      { exfalso. apply Hn. apply includes_spec in H3.
        apply (Substring_trans _ "accounttotals"); [now exists "account", "s" | assumption]. }
      split; [lia | contradiction]. }
  assert (Hu : (0 < pathScore pl UNPULSED_PATH_HINTS)%Z <->
               Substring "unpulse" pl \/ Substring "pending" pl).
  { unfold UNPULSED_PATH_HINTS. rewrite pathScore_three.
    destruct (includes pl "unpulse") eqn:H2.
    { split; [intros _; left; now apply includes_spec|].
      intros _. destruct (includes pl "unpulsed"), (includes pl "pending"); lia. }
    assert (Hn : ~ Substring "unpulse" pl) by (rewrite <- includes_spec; congruence).
    destruct (includes pl "unpulsed") eqn:H1.
    { exfalso. apply Hn. apply includes_spec in H1.
      apply (Substring_trans _ "unpulsed"); [now exists "", "d" | assumption]. }
    destruct (includes pl "pending") eqn:H3.
    - split; [intros _; right; now apply includes_spec | intros _; lia].
    - split; [lia|]. intros [H | H]; [contradiction|].
      apply includes_spec in H. congruence. }
  assert (Hmul : forall hints, (pathScore pl hints <= 0 \/ 10 <= pathScore pl hints)%Z).
  { intros hints. unfold pathScore.
    assert (H : forall start,
               (fold_left (fun score h => if includes pl h then score + 10 else score)
                          hints start = start
                \/ start + 10 <=
                   fold_left (fun score h => if includes pl h then score + 10 else score)
                             hints start)%Z).
    { induction hints as [|h hints IH]; intros start; simpl; [now left|].
      destruct (includes pl h).
      - right. destruct (IH (start + 10)%Z) as [-> | H]; lia.
      - apply IH. }
    destruct (H 0%Z) as [-> | H0]; lia. }
  split; [intros hints; apply pathScore_bounds|].
  split; [exact Ht|]. split; [exact Hu|].
  destruct (sectionOf_spec pl)
    as [[Hup ->] | [(Hnu & Hnp & Htot & ->) | (Hnu & Hnp & Hnt & ->)]].
  - repeat split; try discriminate. intros _.
    apply Hu in Hup. destruct (Hmul UNPULSED_PATH_HINTS); lia.
  - repeat split; try discriminate. intros _.
    apply Ht in Htot. destruct (Hmul TOTALS_PATH_HINTS); lia.
  - repeat split; try discriminate.
    + pose proof (pathScore_bounds pl TOTALS_PATH_HINTS).
      destruct (Z.eq_dec (pathScore pl TOTALS_PATH_HINTS) 0) as [|Hne]; [assumption|].
      exfalso. apply Hnt. apply Ht. lia.
    + pose proof (pathScore_bounds pl UNPULSED_PATH_HINTS).
      destruct (Z.eq_dec (pathScore pl UNPULSED_PATH_HINTS) 0) as [|Hne]; [assumption|].
      exfalso. assert (Hpos : (0 < pathScore pl UNPULSED_PATH_HINTS)%Z) by lia.
      apply Hu in Hpos. tauto.
Qed.

Lemma pathScore_agrees_with_tag_witness :
  sectionOf "/stats/totals/keys" = TagTotals
  /\ (10 <= pathScore "/stats/totals/keys" TOTALS_PATH_HINTS)%Z.
Proof.
  split; [reflexivity|].
  exact (proj1 (proj2 (proj2 (proj2 (proj2
           (pathScore_agrees_with_tag "/stats/totals/keys"))))) eq_refl).
Defined.

End LocatorProperties.

Section LocatorSelection.

Import WhatPulse.

Lemma tag_eqb_eq (a b : SectionTag) : tag_eqb a b = true <-> a = b.
Proof. destruct a, b; simpl; split; congruence. Qed.

Lemma FirstMax_In {A : Type} (f : A -> Z) (l : list A) (c : A) :
  FirstMax f l c -> In c l.
Proof.
  intros (pre & post & -> & _). apply in_or_app. right. now left.
Qed.

Lemma pickBest_unfold (candidates : list Candidate) (sec : SectionName) :
  pickBest candidates sec =
  if (List.length (filter (fun c => tag_eqb (section c) (tagOf sec)) candidates) =? 0)%nat
  then hd_error (sort (fun a b => (hintScore sec b - hintScore sec a)%Z) candidates)
  else hd_error (sort (fun a b => (hintScore sec b - hintScore sec a)%Z)
                      (filter (fun c => tag_eqb (section c) (tagOf sec)) candidates)).
Proof. destruct sec; reflexivity. Qed.

Lemma hd_sort_FirstMax {A : Type} (f : A -> Z) (l : list A) (c : A) :
  hd_error (sort (fun a b => (f b - f a)%Z) l) = Some c -> FirstMax f l c.
Proof. intros H. pose proof (sort_hd_FirstMax f l) as Hs. now rewrite H in Hs. Qed.

Lemma hd_sort_nonempty {A : Type} (f : A -> Z) (l : list A) :
  l <> [] -> exists c, hd_error (sort (fun a b => (f b - f a)%Z) l) = Some c.
Proof.
  intros Hne. pose proof (sort_hd_FirstMax f l) as Hs.
  destruct (hd_error _) as [c|]; [now exists c | contradiction].
Qed.

(** X3.  [pickBest] only ever returns a member of the candidate list; and
    whenever some candidate carries the requested section tag, it returns
    a candidate carrying that tag: the first one, among those carrying it,
    whose score against the section's hints is highest. *)
Theorem pickBest_prefers_requested_section (candidates : list Candidate)
    (sec : SectionName) :
  (forall c, pickBest candidates sec = Some c -> In c candidates)
  /\ ((exists c0, In c0 candidates /\ section c0 = tagOf sec) ->
      exists best,
        pickBest candidates sec = Some best
        /\ In best candidates
        /\ section best = tagOf sec
        /\ FirstMax (hintScore sec)
                    (filter (fun c => tag_eqb (section c) (tagOf sec)) candidates)
                    best).
Proof.
  rewrite pickBest_unfold.
  destruct (filter (fun c => tag_eqb (section c) (tagOf sec)) candidates)
    as [|x filtered] eqn:Hf; simpl List.length; simpl Nat.eqb; cbv iota.
  - split.
    + intros c Hc. apply hd_sort_FirstMax in Hc. now apply FirstMax_In in Hc.
    + intros (c0 & Hin & Htag). exfalso.
      assert (Hin' : In c0 (filter (fun c => tag_eqb (section c) (tagOf sec)) candidates)).
      { apply filter_In. split; [assumption | now apply tag_eqb_eq]. }
      rewrite Hf in Hin'. contradiction.
  - destruct (hd_sort_nonempty (hintScore sec) (x :: filtered)) as [best Hbest];
      [discriminate|].
    rewrite Hbest. apply hd_sort_FirstMax in Hbest.
    assert (Hin : In best (x :: filtered)) by now apply FirstMax_In in Hbest.
    rewrite <- Hf in Hin. apply filter_In in Hin as [Hin Htag].
    apply tag_eqb_eq in Htag. split.
    + now intros c [= <-].
    + intros _. exists best. now repeat split.
Qed.

Lemma pickBest_prefers_requested_section_witness :
  exists best,
    pickBest [plainCandidate;
              mkCandidate (ofInteger 3) "t/keys" "/total/keys" TagTotals;
              mkCandidate (ofInteger 4) "t/totals/keys" "/t/totals/keys" TagTotals] Totals
    = Some best
    /\ section best = TagTotals.
Proof.
  destruct (proj2 (pickBest_prefers_requested_section
                     [plainCandidate;
                      mkCandidate (ofInteger 3) "t/keys" "/total/keys" TagTotals;
                      mkCandidate (ofInteger 4) "t/totals/keys" "/t/totals/keys" TagTotals]
                     Totals))
    as (best & Hbest & _ & Htag & _).
  - eexists. split; [right; left; reflexivity | reflexivity].
  - exists best. split; [exact Hbest | exact Htag].
Defined.

Lemma extractSection_field (data : json) (sec : SectionName) (f : NumericField) :
  getField (extractSection data sec) f =
  option_map value (pickBest (collectCandidates data "" "" f (FIELD_PATTERNS f) []) sec).
Proof.
  unfold extractSection, fields. cbn [fold_left].
  destruct f;
    destruct (pickBest (collectCandidates data "" "" keys (FIELD_PATTERNS keys) []) sec),
      (pickBest (collectCandidates data "" "" clicks (FIELD_PATTERNS clicks) []) sec),
      (pickBest (collectCandidates data "" "" scrolls (FIELD_PATTERNS scrolls) []) sec),
      (pickBest (collectCandidates data "" "" uptimeSeconds
                   (FIELD_PATTERNS uptimeSeconds) []) sec);
    reflexivity.
Qed.

Lemma detectPaths_lookup (data : json) (sec : SectionName) (f : NumericField) :
  lookupPath (pathKey sec f) (detectPaths data) =
  Some (option_map WhatPulse.path
          (pickBest (collectCandidates data "" "" f (FIELD_PATTERNS f) []) sec)).
Proof.
  unfold detectPaths, fields. cbn [flat_map map app].
  destruct sec, f; reflexivity.
Qed.

(** X4.  In every report the debug record and the counters agree: the
    detected paths are the eight keys totals.* and unpulsed.* in order; a
    totals field is null exactly when its detected path is null; and the
    same holds for the fields of a non-null unpulsed, while a null
    unpulsed has all four of its detected paths null. *)
Theorem report_paths_agree_with_counters (now : string) (data : json)
    (f : NumericField) :
  map fst (detectedPaths (debug (buildOutput now data)))
  = ["totals.keys"; "totals.clicks"; "totals.scrolls"; "totals.uptimeSeconds";
     "unpulsed.keys"; "unpulsed.clicks"; "unpulsed.scrolls"; "unpulsed.uptimeSeconds"]
  /\ (getField (totals (buildOutput now data)) f = None <->
      lookupPath (pathKey Totals f) (detectedPaths (debug (buildOutput now data)))
      = Some None)
  /\ match unpulsed (buildOutput now data) with
     | Some u =>
         getField u f = None <->
         lookupPath (pathKey Unpulsed f) (detectedPaths (debug (buildOutput now data)))
         = Some None
     | None =>
         lookupPath (pathKey Unpulsed f) (detectedPaths (debug (buildOutput now data)))
         = Some None
     end.
Proof.
  assert (Hagree : forall sec,
             getField (extractSection data sec) f = None <->
             lookupPath (pathKey sec f) (detectPaths data) = Some None).
  { intros sec. rewrite extractSection_field, detectPaths_lookup.
    destruct (pickBest _ sec); simpl; split; congruence. }
  split; [reflexivity|]. split; [apply Hagree|].
  unfold buildOutput. cbn [unpulsed debug detectedPaths].
  pose proof (Hagree Unpulsed) as Hu.
  remember (extractSection data Unpulsed) as u.
  destruct u as [[k|] [c|] [s|] [t|]]; try exact Hu.
  cbn [cs_keys cs_clicks cs_scrolls cs_uptimeSeconds].
  apply Hu. now destruct f.
Qed.

End LocatorSelection.

Section ArrayElements.

Import WhatPulse.

Local Open Scope string_scope.

Lemma allChars_app (p : ascii -> bool) (a b : string) :
  allChars p (a ++ b) = allChars p a && allChars p b.
Proof. induction a as [|c a IH]; simpl; [reflexivity|]. now rewrite IH, andb_assoc. Qed.

Lemma string_of_uint_digits (d : Decimal.uint) :
  allChars isDigit (NilEmpty.string_of_uint d) = true.
Proof. induction d; simpl; auto. Qed.

Lemma ofIndex_digits (i : nat) : allChars isDigit (ofIndex i) = true.
Proof. apply string_of_uint_digits. Qed.

Lemma ofIndex_nonempty (i : nat) : ofIndex i <> "".
Proof.
  unfold ofIndex.
  assert (Hnn : Nat.to_uint i <> Decimal.Nil).
  { rewrite <- (DecimalNat.Unsigned.of_to i) at 1.
    rewrite DecimalNat.Unsigned.to_of. apply DecimalFacts.unorm_nonnil. }
  destruct (Nat.to_uint i); simpl; [contradiction | discriminate ..].
Qed.

(** A string made of one class of characters shares no non-empty
    substring with a string made of the complementary class. *)
Lemma disjoint_classes_not_included (p : ascii -> bool) (s t : string) :
  allChars p s = true ->
  allChars (fun c => negb (p c)) t = true ->
  t <> "" ->
  includes s t = false.
Proof.
  intros Hs Ht Hne.
  destruct (includes s t) eqn:Hinc; [|reflexivity].
  apply includes_spec in Hinc as (pre & post & ->).
  rewrite !allChars_app in Hs.
  apply andb_true_iff in Hs as [_ Hs]. apply andb_true_iff in Hs as [Hs _].
  destruct t as [|c t]; [contradiction|]. simpl in Hs, Ht.
  apply andb_true_iff in Hs as [Hc _]. apply andb_true_iff in Ht as [Hc' _].
  rewrite Hc in Hc'. discriminate.
Qed.

Lemma digits_fixed_by_key_normalisation (s : string) :
  allChars isDigit s = true -> removeWhitespace (toLowerCase s) = s.
Proof.
  induction s as [|c s IH]; simpl; [reflexivity|].
  intros H. apply andb_true_iff in H as [Hc Hs].
  assert (Hlow : toLowerChar c = c).
  { unfold toLowerChar, isDigit in *.
    apply andb_true_iff in Hc as [H1 H2].
    apply Nat.leb_le in H1, H2.
    replace (65 <=? nat_of_ascii c)%nat with false
      by (symmetry; apply Nat.leb_gt; lia).
    replace (192 <=? nat_of_ascii c)%nat with false
      by (symmetry; apply Nat.leb_gt; lia).
    reflexivity. }
  assert (Hws : isWhitespace c = false).
  { unfold isWhitespace, isDigit in *.
    apply andb_true_iff in Hc as [H1 H2].
    apply Nat.leb_le in H1, H2.
    replace (nat_of_ascii c <=? 13)%nat with false
      by (symmetry; apply Nat.leb_gt; lia).
    replace (nat_of_ascii c =? 32)%nat with false
      by (symmetry; apply Nat.eqb_neq; lia).
    replace (nat_of_ascii c =? 160)%nat with false
      by (symmetry; apply Nat.eqb_neq; lia).
    now rewrite andb_false_r. }
  rewrite Hlow, Hws. now rewrite (IH Hs).
Qed.

Lemma leafKey_of_index (path : string) (i : nat) :
  leafKey (path ++ "/" ++ ofIndex i) = ofIndex i.
Proof.
  rewrite (leafKey_spec _ (ofIndex i)).
  - apply digits_fixed_by_key_normalisation, ofIndex_digits.
  - split; [right; now exists path|].
    intros Hsub. apply includes_spec in Hsub.
    rewrite (disjoint_classes_not_included isDigit (ofIndex i) "/") in Hsub;
      [discriminate | apply ofIndex_digits | reflexivity | discriminate].
Qed.

Lemma index_matches_no_pattern (i : nat) (field : NumericField) :
  matchesPatterns (ofIndex i) (FIELD_PATTERNS field) = false.
Proof.
  assert (Hkp : forall p, allChars (fun c => negb (isDigit c)) p = true -> p <> "" ->
                          includes (ofIndex i) p || includes p (ofIndex i) = false).
  { intros p Hp Hne. apply orb_false_iff. split.
    - now apply (disjoint_classes_not_included isDigit); [apply ofIndex_digits | |].
    - apply (disjoint_classes_not_included (fun c => negb (isDigit c)));
        [assumption | | apply ofIndex_nonempty].
      pose proof (ofIndex_digits i) as Hd.
      induction (ofIndex i) as [|c s IH]; simpl in *; [reflexivity|].
      apply andb_true_iff in Hd as [Hc Hs]. rewrite Hc. simpl. now apply IH. }
  destruct field; unfold matchesPatterns; simpl existsb;
    rewrite ?Hkp by (reflexivity || discriminate); reflexivity.
Qed.

(** X5.  A number that sits directly in an array is never a candidate for
    any field class: its key is the decimal index, which matches none of
    the configured patterns.  An array of numbers adds nothing to the
    accumulator. *)
Theorem array_elements_are_never_candidates (items : list json) (path pl : string)
    (field : NumericField) (acc : list Candidate) :
  Forall (fun item => exists n, item = JNumber n) items ->
  collectCandidates (JArray items) path pl field (FIELD_PATTERNS field) acc = acc.
Proof.
  intros Hall. cbn [collectCandidates]. generalize 0 as i.
  induction Hall as [|item rest [n ->] _ IH]; intros i;
    cbn [forEachFrom collectCandidates]; [reflexivity|].
  rewrite leafKey_of_index, index_matches_no_pattern.
  destruct (isFinite n); apply IH.
Qed.

Lemma array_elements_are_never_candidates_witness :
  collectCandidates (JArray [JNumber (ofInteger 500); JNumber (ofInteger 300)])
                    "keys" "/keys" keys (FIELD_PATTERNS keys) []
  = [].
Proof.
  apply (array_elements_are_never_candidates
           [JNumber (ofInteger 500); JNumber (ofInteger 300)] "keys" "/keys" keys []).
  repeat constructor; eexists; reflexivity.
Defined.

End ArrayElements.

(* ================================================================== *)
(** ** The weekly engine: further properties *)

Section WeeklyProperties.

Import Weekly.

Variable ToStringOther : option json -> string.
Variable ToNumberOther : option json -> number.

Lemma clampedDifferences_same (c : Counters) :
  finiteCounters c -> clampedDifferences c c = zeroCounters.
Proof.
  intros (Fk & Fc & Fs & Fu).
  unfold clampedDifferences, clampedDifference, zeroCounters.
  now rewrite !minus_self.
Qed.

Lemma clampedDifference_as_written (n : number) :
  isFinite n = true -> clampedDifference (asWritten n) n = zero.
Proof.
  intros F. destruct n as [[]|[]| |s m e]; try discriminate F; try reflexivity.
  unfold clampedDifference. cbn [asWritten]. now rewrite minus_self.
Qed.

Lemma clampedDifferences_as_written (c : Counters) :
  finiteCounters c -> clampedDifferences (countersAsWritten c) c = zeroCounters.
Proof.
  intros (Fk & Fc & Fs & Fu).
  unfold clampedDifferences, countersAsWritten, zeroCounters.
  cbn [keys clicks scrolls uptimeSeconds].
  now rewrite !clampedDifference_as_written.
Qed.

(** X6.  The delta of a finite reading with itself is +0 in every
    field. *)
Theorem delta_of_same_reading_is_zero (c : Counters) :
  finiteCounters c ->
  delta ToNumberOther (Some (countersJson c)) (Some (countersJson c)) = Ok zeroCounters.
Proof.
  intros F. rewrite delta_counters. now rewrite clampedDifferences_same.
Qed.

(** X7.  Two runs in a row over the same report.  Whatever the ledger
    held before and however the first run ended after its append, the
    second run succeeds: it finds the first run's snapshot, appends its own
    after it, and writes a weekly record whose range runs from the first
    run's timestamp to the second's and whose counters are all zero. *)
Theorem second_run_reports_zero_delta (now1 now2 : string) (fs : Files)
    (api : json) (c : Counters) :
  apiFile fs = ApiJson api ->
  getCounters api = Ok c ->
  exists w2,
    main ToStringOther ToNumberOther now2
         (snd (main ToStringOther ToNumberOther now1 fs))
    = (Ok tt, mkFiles (apiFile fs)
                (LedgerArray (map stringifyParse (validSnapshots (snapshotsFile fs))
                              ++ [snapshotAt now1 (countersAsWritten c);
                                  snapshotAt now2 (countersAsWritten c)]))
                (Some w2))
    /\ range w2 = Some (now1 ++ "/" ++ now2)%string
    /\ w_counters w2 = Some zeroCounters
    /\ note w2 = None.
Proof.
  intros Hapi Hc.
  pose proof (getCounters_finite api c Hc) as F.
  rewrite (main_extracted ToStringOther ToNumberOther now1 fs api c Hapi Hc).
  set (fs1 := mkFiles (apiFile fs)
                (LedgerArray (map stringifyParse (validSnapshots (snapshotsFile fs))
                              ++ [snapshotAt now1 (countersAsWritten c)]))
                (weeklyFile fs)).
  assert (Hfs1 : exists weekly,
             snd (emitWeekly ToStringOther ToNumberOther now1
                    (validSnapshots (snapshotsFile fs) ++ [snapshotAt now1 c]) fs1)
             = mkFiles (apiFile fs)
                 (LedgerArray (map stringifyParse (validSnapshots (snapshotsFile fs))
                               ++ [snapshotAt now1 (countersAsWritten c)]))
                 weekly).
  { destruct (emitWeekly_outcome ToStringOther ToNumberOther now1
                (validSnapshots (snapshotsFile fs) ++ [snapshotAt now1 c]) fs1)
      as [(w & ->) | (msg & ->)]; eexists; reflexivity. }
  destruct Hfs1 as [weekly ->].
  rewrite (main_extracted ToStringOther ToNumberOther now2
             (mkFiles (apiFile fs)
                (LedgerArray (map stringifyParse (validSnapshots (snapshotsFile fs))
                              ++ [snapshotAt now1 (countersAsWritten c)]))
                weekly) api c Hapi Hc).
  cbn [apiFile snapshotsFile weeklyFile validSnapshots].
  rewrite <- app_assoc. cbn [app].
  rewrite (emitWeekly_after_snapshot ToStringOther ToNumberOther now2 _
             (mkSnapshot now1 "whatpulse-client-api" (countersAsWritten c)) c).
  cbn [apiFile snapshotsFile capturedAt counters].
  rewrite (ledger_after_append now1 _ _ (countersAsWritten_finite c F)).
  rewrite map_stringifyParse_idempotent, countersAsWritten_idempotent.
  rewrite <- app_assoc. cbn [app].
  eexists. split; [reflexivity|].
  cbn [range w_counters note]. rewrite (clampedDifferences_as_written c F).
  now repeat split.
Qed.


(** X9.  A non-null unpulsed section that lacks any of the four counters
    makes extraction fail, whatever totals holds: the fallback to totals
    is taken only when unpulsed is null or absent, and the fields of the
    two sections are never mixed. *)
Theorem partial_unpulsed_blocks_fallback (api u : json) :
  getProp api "unpulsed" = Some u ->
  u <> JNull ->
  Unresolvable (Some u) ->
  getCounters api = Throw missingCounters.
Proof.
  intros Hu Hnn Hun.
  assert (Hapinn : api <> JNull) by (intros ->; discriminate).
  rewrite (getCounters_unfold api Hapinn). cbv zeta. rewrite Hu.
  replace (nullish (Some u) _) with u by (now destruct u).
  now apply read_unresolvable.
Qed.

(** X21.  On integer counters below 2^53, where every integer is a
    binary64 number, [delta] is the delta of integer arithmetic: each field
    is the number of the integer [max 0 (current - prev)].  Those numbers
    are finite and in canonical form, and distinct integers are distinct
    numbers. *)
Theorem delta_exact_on_integer_counters (k1 c1 s1 u1 k2 c2 s2 u2 : Z) :
  safeCounters k1 c1 s1 u1 ->
  safeCounters k2 c2 s2 u2 ->
  delta ToNumberOther (Some (countersJson (integerCounters k1 c1 s1 u1)))
                      (Some (countersJson (integerCounters k2 c2 s2 u2)))
  = Ok (integerCounters (Z.max 0 (k2 - k1)) (Z.max 0 (c2 - c1))
                        (Z.max 0 (s2 - s1)) (Z.max 0 (u2 - u1)))
  /\ safeCounters (Z.max 0 (k2 - k1)) (Z.max 0 (c2 - c1))
                  (Z.max 0 (s2 - s1)) (Z.max 0 (u2 - u1))
  /\ (forall z, safeCount z -> isFinite (ofInteger z) = true /\ validNumber (ofInteger z))
  /\ (forall a b, safeCount a -> safeCount b -> ofInteger a = ofInteger b -> a = b).
Proof.
  intros (Hk1 & Hc1 & Hs1 & Hu1) (Hk2 & Hc2 & Hs2 & Hu2).
  split; [|split; [|split]].
  - rewrite delta_counters. unfold clampedDifferences, integerCounters.
    cbn [keys clicks scrolls uptimeSeconds].
    now rewrite !clampedDifference_ofInteger.
  - unfold safeCounters, safeCount in *. repeat split; lia.
  - intros z Hz. split; [|now apply ofInteger_valid].
    destruct z as [|n|n]; [reflexivity | | destruct Hz; lia].
    now rewrite (ofInteger_pos n Hz).
  - apply ofInteger_injective.
Qed.

End WeeklyProperties.

Lemma delta_of_same_reading_is_zero_witness :
  Weekly.delta sampleToNumber
    (Some (Weekly.countersJson (Weekly.counters snapshotT1)))
    (Some (Weekly.countersJson (Weekly.counters snapshotT1)))
  = Ok zeroCounters.
Proof.
  apply (delta_of_same_reading_is_zero sampleToNumber (Weekly.counters snapshotT1)).
  repeat split.
Defined.

Lemma second_run_reports_zero_delta_witness :
  exists w2,
    Weekly.main sampleToString sampleToNumber "t2"
      (snd (Weekly.main sampleToString sampleToNumber "t1"
              (Weekly.mkFiles (Weekly.ApiJson resolvedReport)
                              (Weekly.LedgerArray [JNull]) None)))
    = (Ok tt, Weekly.mkFiles (Weekly.ApiJson resolvedReport)
                (Weekly.LedgerArray
                   [JNull;
                    snapshotAt "t1" (Weekly.mkCounters (ofInteger 150) (ofInteger 150)
                                                       (ofInteger 150) (ofInteger 150));
                    snapshotAt "t2" (Weekly.mkCounters (ofInteger 150) (ofInteger 150)
                                                       (ofInteger 150) (ofInteger 150))])
                (Some w2))
    /\ Weekly.range w2 = Some "t1/t2"
    /\ Weekly.w_counters w2 = Some zeroCounters.
Proof.
  destruct (second_run_reports_zero_delta sampleToString sampleToNumber "t1" "t2"
              (Weekly.mkFiles (Weekly.ApiJson resolvedReport)
                              (Weekly.LedgerArray [JNull]) None)
              resolvedReport
              (Weekly.mkCounters (ofInteger 150) (ofInteger 150)
                                 (ofInteger 150) (ofInteger 150))
              eq_refl eq_refl)
    as (w2 & Hrun & Hrange & Hcounters & _).
  exists w2. split; [exact Hrun|]. split; [exact Hrange | exact Hcounters].
Defined.


Lemma partial_unpulsed_blocks_fallback_witness :
  Resolves (getProp partialUnpulsedReport "totals")
           (Weekly.mkCounters (ofInteger 150) (ofInteger 150) (ofInteger 150) (ofInteger 150))
  /\ Weekly.getCounters partialUnpulsedReport = Throw Weekly.missingCounters.
Proof.
  split.
  - eexists. split; [reflexivity|]. repeat split.
  - refine (partial_unpulsed_blocks_fallback partialUnpulsedReport _ eq_refl _ _).
    + discriminate.
    + intros c (j & [= <-] & _ & _ & Hs & _). discriminate.
Defined.

Lemma delta_exact_on_integer_counters_witness :
  Weekly.delta sampleToNumber
    (Some (Weekly.countersJson (integerCounters 100 300 10 7200)))
    (Some (Weekly.countersJson (integerCounters 150 250 10 9000)))
  = Ok (integerCounters 50 0 0 1800).
Proof.
  refine (proj1 (delta_exact_on_integer_counters sampleToNumber
                   100 300 10 7200 150 250 10 9000 _ _));
    repeat split; try lia; reflexivity.
Defined.

(* ================================================================== *)
(** ** The fetcher and the extractor's [main]: properties *)

Section CaptureProperties.

Import WhatPulse.

Local Open Scope string_scope.



Lemma stripTrailingSlash_snoc (base : string) :
  stripTrailingSlash (base ++ "/") = base.
Proof.
  induction base as [|c base IH]; [reflexivity|].
  simpl. rewrite IH. destruct base; reflexivity.
Qed.

Lemma stripTrailingSlash_id (base : string) :
  (forall pre, base <> pre ++ "/") -> stripTrailingSlash base = base.
Proof.
  induction base as [|c base IH]; intros Hno; [reflexivity|].
  simpl. destruct base as [|d base].
  - destruct (Ascii.eqb_spec c "/") as [-> | _]; [|reflexivity].
    exfalso. now apply (Hno "").
  - rewrite IH; [reflexivity|].
    intros pre Hpre. apply (Hno (String c pre)). simpl. now rewrite Hpre.
Qed.

(** X11.  The request URL is the configured base followed by
    /v1/all-stats, with one trailing slash of the base dropped: a base
    written with or without a final slash gives the same URL, a second
    final slash is kept, and an unset or empty variable selects
    http://localhost:3490. *)
Theorem requestUrl_drops_one_trailing_slash (base : string) :
  FetchRaw.requestUrl (Some (base ++ "/")) = base ++ "/v1/all-stats"
  /\ FetchRaw.requestUrl (Some (base ++ "//")) = base ++ "//v1/all-stats"
  /\ (base <> "" -> (forall pre, base <> pre ++ "/") ->
      FetchRaw.requestUrl (Some base) = base ++ "/v1/all-stats")
  /\ FetchRaw.requestUrl None = "http://localhost:3490/v1/all-stats"
  /\ FetchRaw.requestUrl (Some "") = "http://localhost:3490/v1/all-stats".
Proof.
  assert (Hsome : forall s, s <> "" ->
                            FetchRaw.requestUrl (Some s)
                            = stripTrailingSlash s ++ "/v1/all-stats").
  { intros s Hs. destruct s; [contradiction | reflexivity]. }
  assert (Hne : forall s t, s ++ String "/" t <> "").
  { intros s t. destruct s; discriminate. }
  repeat split.
  - rewrite Hsome by apply Hne. now rewrite stripTrailingSlash_snoc.
  - rewrite Hsome by apply Hne.
    replace (base ++ "//") with ((base ++ "/") ++ "/").
    + rewrite stripTrailingSlash_snoc.
      induction base as [|c base IH]; simpl; [reflexivity | now rewrite IH].
    + induction base as [|c base IH]; simpl; [reflexivity | now rewrite IH].
  - intros Hbase Hno. rewrite Hsome by assumption. now rewrite stripTrailingSlash_id.
Qed.

Lemma requestUrl_drops_one_trailing_slash_witness :
  FetchRaw.requestUrl (Some "http://10.0.0.5:3490")
  = "http://10.0.0.5:3490/v1/all-stats".
Proof.
  refine (proj1 (proj2 (proj2
            (requestUrl_drops_one_trailing_slash "http://10.0.0.5:3490"))) _ _).
  - discriminate.
  - intros pre Hpre.
    assert (Hlast : forall s t : string, s = t ->
              String.get (String.length s - 1) s = String.get (String.length t - 1) t)
      by (intros s t ->; reflexivity).
    apply Hlast in Hpre. simpl in Hpre.
    assert (Hget : forall p : string,
              String.get (String.length (p ++ "/") - 1) (p ++ "/") = Some "/"%char).
    { induction p as [|c p IHp]; [reflexivity|].
      simpl. destruct p; [reflexivity|]. simpl in *. rewrite Nat.sub_0_r in IHp.
      exact IHp. }
    rewrite Hget in Hpre. discriminate.
Defined.

End CaptureProperties.

Section PipelineProperties.

Import WhatPulse.

Local Open Scope string_scope.



(** Writing a document out and reading it back does not change what the
    locator finds in it, -0 apart: that one reads back as 0. *)
Lemma collectCandidates_stringifyParse (obj : json) :
  noNegativeZero obj = true ->
  forall path pl field pats acc,
    collectCandidates (stringifyParse obj) path pl field pats acc
    = collectCandidates obj path pl field pats acc.
Proof.
  induction obj as [| b | n | s | items IH | entries IH] using json_rect';
    intros Hnz path pl field pats acc; try reflexivity.
  - destruct n as [[]|[]| |sn m e]; try reflexivity. discriminate Hnz.
  - cbn [stringifyParse collectCandidates]. cbn [noNegativeZero] in Hnz.
    generalize 0 as i. revert acc.
    induction IH as [|x rest Hx _ IHrest]; intros acc i; [reflexivity|].
    cbn [forallb] in Hnz. apply andb_true_iff in Hnz as [Hnx Hnrest].
    cbn [map forEachFrom]. rewrite (Hx Hnx). now apply IHrest.
  - cbn [stringifyParse collectCandidates]. cbn [noNegativeZero] in Hnz. revert acc.
    induction IH as [|[k v] rest Hv _ IHrest]; intros acc; [reflexivity|].
    cbn [forallb] in Hnz. apply andb_true_iff in Hnz as [Hnv Hnrest].
    cbn [map fold_left]. simpl in Hv. rewrite (Hv Hnv). now apply IHrest.
Qed.

Lemma buildOutput_stringifyParse (now : string) (data : json) :
  noNegativeZero data = true ->
  buildOutput now (stringifyParse data) = buildOutput now data.
Proof.
  intros Hnz.
  assert (Hkeys : topLevelKeysOf (stringifyParse data) = topLevelKeysOf data).
  { destruct data as [| b | n | s | items | entries]; try reflexivity.
    - simpl. destruct (isFinite n); reflexivity.
    - simpl. clear Hnz. induction entries as [|[k v] rest IH]; simpl; [reflexivity|].
      now rewrite IH. }
  unfold buildOutput, extractSection, detectPaths.
  rewrite Hkeys. cbn [fields fold_left map flat_map app].
  now rewrite !(collectCandidates_stringifyParse data Hnz).
Qed.

(** X13.  Fetch, then extract.  When the fetch succeeds with a body that
    is neither null nor a non-finite number, the extractor's report is the
    one built from the body as it reads back from the file; when the body
    holds no -0 that is the report built from the body itself: the wrapper
    the fetcher adds is transparent, and so is the trip through the file.
    When the body is null (or prints as null), the extractor reads the
    wrapper instead and resolves nothing. *)
Theorem fetch_then_extract (now1 now2 : string) (status : nat)
    (statusText text : string) (data : json) (rawFile : RawFile)
    (apiFile : option WhatPulseOutput) :
  (stringifyParse data <> JNull ->
   BuildWhatPulse.main now2
     (snd (FetchRaw.main now1
             (FetchRaw.Response true status statusText (FetchRaw.BodyJson text data))
             rawFile))
     apiFile
   = (Exit0 ["Wrote api/whatpulse.json"], Some (buildOutput now2 (stringifyParse data))))
  /\ (stringifyParse data <> JNull ->
      noNegativeZero data = true ->
      BuildWhatPulse.main now2
        (snd (FetchRaw.main now1
                (FetchRaw.Response true status statusText (FetchRaw.BodyJson text data))
                rawFile))
        apiFile
      = (Exit0 ["Wrote api/whatpulse.json"], Some (buildOutput now2 data)))
  /\ (stringifyParse data = JNull ->
      exists out,
        BuildWhatPulse.main now2
          (snd (FetchRaw.main now1
                  (FetchRaw.Response true status statusText (FetchRaw.BodyJson text data))
                  rawFile))
          apiFile
        = (Exit0 ["Wrote api/whatpulse.json"], Some out)
        /\ totals out = mkCounterSet None None None None
        /\ unpulsed out = None
        /\ topLevelKeys (debug out) = ["_fetchedAt"; "_source"; "data"]).
Proof.
  assert (Hread : stringifyParse data <> JNull ->
            BuildWhatPulse.main now2
              (snd (FetchRaw.main now1
                      (FetchRaw.Response true status statusText
                                         (FetchRaw.BodyJson text data))
                      rawFile))
              apiFile
            = (Exit0 ["Wrote api/whatpulse.json"],
               Some (buildOutput now2 (stringifyParse data)))).
  { intros Hnn.
    cbn [FetchRaw.main negb FetchRaw.bodyText snd BuildWhatPulse.main].
    assert (Hnorm : normalize now2 (stringifyParse (FetchRaw.rawOutput now1 data))
                    = Some (buildOutput now2 (stringifyParse data))).
    { unfold normalize. cbn [FetchRaw.rawOutput stringifyParse map].
      unfold unwrapData. cbn [getProp lookupEntry String.eqb Ascii.eqb Bool.eqb].
      simpl. destruct (stringifyParse data); try reflexivity. contradiction. }
    now rewrite Hnorm. }
  split; [exact Hread|]. split.
  - intros Hnn Hnz. rewrite (Hread Hnn). now rewrite buildOutput_stringifyParse.
  - intros Hnull.
    cbn [FetchRaw.main negb FetchRaw.bodyText snd BuildWhatPulse.main].
    cbn [FetchRaw.rawOutput stringifyParse map]. rewrite Hnull.
    eexists. split; [reflexivity|]. repeat split.
Qed.

Lemma fetch_then_extract_witness :
  BuildWhatPulse.main "t2"
    (snd (FetchRaw.main "t1"
            (FetchRaw.Response true 200 "OK" (FetchRaw.BodyJson "..." dataA))
            RawMissing))
    None
  = (Exit0 ["Wrote api/whatpulse.json"], Some (buildOutput "t2" dataA)).
Proof.
  apply (proj1 (proj2 (fetch_then_extract "t1" "t2" 200 "OK" "..." dataA RawMissing None))).
  - discriminate.
  - reflexivity.
Defined.

End PipelineProperties.

(* ================================================================== *)
(** ** The location helpers: properties *)

Section LocationProperties.

Import Location.

Local Open Scope string_scope.

Lemma orElse_cases (a b : option string) :
  (blank a /\ orElse a b = b)
  \/ (exists name, a = Some name /\ name <> "" /\ orElse a b = Some name).
Proof.
  destruct a as [[|c s]|]; simpl.
  - left. split; [now right | reflexivity].
  - right. exists (String c s). repeat split. discriminate.
  - left. split; [now left | reflexivity].
Qed.

(** X14.  [extractCity] returns the first of city, town, village,
    municipality, county that is present and non-empty; it returns null
    exactly when there is no address or all five are absent or empty; it
    never returns the empty string. *)
Theorem extractCity_first_nonempty (address : option NominatimAddress) :
  extractCity address <> Some ""
  /\ (extractCity address = None <->
      match address with
      | None => True
      | Some a => blank (city a) /\ blank (town a) /\ blank (village a)
                  /\ blank (municipality a) /\ blank (county a)
      end)
  /\ (forall a name,
         address = Some a ->
         extractCity address = Some name ->
         city a = Some name
         \/ (blank (city a) /\ town a = Some name)
         \/ (blank (city a) /\ blank (town a) /\ village a = Some name)
         \/ (blank (city a) /\ blank (town a) /\ blank (village a)
             /\ municipality a = Some name)
         \/ (blank (city a) /\ blank (town a) /\ blank (village a)
             /\ blank (municipality a) /\ county a = Some name)).
Proof.
  destruct address as [a|]; simpl.
  2:{ repeat split; try discriminate; tauto. }
  assert (Hnb : forall (x : option string) n, x = Some n -> n <> "" -> ~ blank x).
  { intros x n -> Hn [H | H]; [discriminate | injection H; congruence]. }
  destruct (orElse_cases (city a)
              (orElse (town a) (orElse (village a)
                 (orElse (municipality a) (orElse (county a) None)))))
    as [[B1 ->] | (n & E & Hn & ->)].
  2:{ repeat split; try congruence.
      - intros (B & _). exfalso. now apply (Hnb _ _ E Hn).
      - intros a' name [= <-] [= <-]. now left. }
  destruct (orElse_cases (town a)
              (orElse (village a) (orElse (municipality a) (orElse (county a) None))))
    as [[B2 ->] | (n & E & Hn & ->)].
  2:{ repeat split; try congruence.
      - intros (_ & B & _). exfalso. now apply (Hnb _ _ E Hn).
      - intros a' name [= <-] [= <-]. right; left. now split. }
  destruct (orElse_cases (village a)
              (orElse (municipality a) (orElse (county a) None)))
    as [[B3 ->] | (n & E & Hn & ->)].
  2:{ repeat split; try congruence.
      - intros (_ & _ & B & _). exfalso. now apply (Hnb _ _ E Hn).
      - intros a' name [= <-] [= <-]. right; right; left. now repeat split. }
  destruct (orElse_cases (municipality a) (orElse (county a) None))
    as [[B4 ->] | (n & E & Hn & ->)].
  2:{ repeat split; try congruence.
      - intros (_ & _ & _ & B & _). exfalso. now apply (Hnb _ _ E Hn).
      - intros a' name [= <-] [= <-]. right; right; right; left. now repeat split. }
  destruct (orElse_cases (county a) None) as [[B5 ->] | (n & E & Hn & ->)].
  - repeat split; try assumption; discriminate.
  - repeat split; try congruence.
    + intros (_ & _ & _ & _ & B). exfalso. now apply (Hnb _ _ E Hn).
    + intros a' name [= <-] [= <-]. right; right; right; right. now repeat split.
Qed.

Lemma extractCity_first_nonempty_witness :
  extractCity (Some (mkAddress (Some "") None (Some "Hampi") None (Some "Vijayanagara")
                               (Some "India") (Some "in")))
  = Some "Hampi"
  /\ village (mkAddress (Some "") None (Some "Hampi") None (Some "Vijayanagara")
                        (Some "India") (Some "in")) = Some "Hampi".
Proof.
  assert (H : extractCity (Some (mkAddress (Some "") None (Some "Hampi") None
                                           (Some "Vijayanagara") (Some "India")
                                           (Some "in"))) = Some "Hampi")
    by reflexivity.
  split; [exact H|].
  destruct (proj2 (proj2 (extractCity_first_nonempty
                            (Some (mkAddress (Some "") None (Some "Hampi") None
                                             (Some "Vijayanagara") (Some "India")
                                             (Some "in")))))
              _ "Hampi" eq_refl H)
    as [Hc | [[_ Ht] | [(_ & _ & Hv) | [(_ & _ & _ & Hm) | (_ & _ & _ & _ & Hco)]]]];
    try discriminate.
  exact Hv.
Defined.

Lemma some_inj {A : Type} (x y : A) : Some x = Some y -> x = y.
Proof. now intros [= ->]. Qed.

Lemma charCode_range (c : ascii) : (0 <= charCode c <= 255)%Z.
Proof.
  unfold charCode. pose proof (nat_ascii_bounded c). lia.
Qed.

Lemma cons_inj {A : Type} (x y : A) (l l' : list A) :
  x :: l = y :: l' -> x = y /\ l = l'.
Proof. intros [= -> ->]. now split. Qed.

(** The code point [countryCodeToFlag] makes of a code unit. *)
Lemma flag_code_point_inj (l l' : list Z) :
  map (fun char => (127462 + (char - charCode "A"))%Z) l
  = map (fun char => (127462 + (char - charCode "A"))%Z) l' ->
  l = l'.
Proof.
  revert l'. induction l as [|x l IH]; intros [|y l']; cbn [map]; try discriminate.
  - reflexivity.
  - intros H. apply cons_inj in H as [Hxy Hl]. f_equal; [lia | now apply IH].
Qed.

(** Every code unit of an upper-cased string gives a valid code point. *)
Lemma upperCaseUnits_in_range (c : ascii) :
  forallb (fun cp => (0 <=? cp)%Z && (cp <=? 1114111)%Z)
          (map (fun char => (127462 + (char - charCode "A"))%Z) (upperCaseUnits c))
  = true.
Proof. destruct c as [[] [] [] [] [] [] [] []]; reflexivity. Qed.

Lemma upperCaseUnits_length (c : ascii) :
  List.length (upperCaseUnits c) = 1 + (if isSharpS c then 1 else 0).
Proof. destruct c as [[] [] [] [] [] [] [] []]; reflexivity. Qed.

Lemma toUpperCaseUnits_length (s : string) :
  List.length (toUpperCaseUnits s) = String.length s + countChars isSharpS s.
Proof.
  induction s as [|c s IH]; [reflexivity|].
  cbn [toUpperCaseUnits String.length countChars].
  rewrite length_app, upperCaseUnits_length, IH. lia.
Qed.

Lemma fromCodePoint_of_upper_case (s : string) :
  fromCodePoint (map (fun char => (127462 + (char - charCode "A"))%Z)
                     (toUpperCaseUnits s))
  = Some (map (fun char => (127462 + (char - charCode "A"))%Z) (toUpperCaseUnits s)).
Proof.
  unfold fromCodePoint.
  replace (forallb _ _) with true; [reflexivity|].
  symmetry. induction s as [|c s IH]; [reflexivity|].
  cbn [toUpperCaseUnits]. rewrite map_app, forallb_app, IH.
  now rewrite upperCaseUnits_in_range.
Qed.

(** The flag of a code of two code units. *)
Lemma countryCodeToFlag_two (s : string) :
  String.length s = 2 ->
  countryCodeToFlag (Some s)
  = Some (map (fun char => (127462 + (char - charCode "A"))%Z) (toUpperCaseUnits s)).
Proof.
  intros Hlen. unfold countryCodeToFlag.
  destruct s as [|a s']; [discriminate|].
  rewrite Hlen. cbn [Nat.eqb negb]. apply fromCodePoint_of_upper_case.
Qed.

Lemma countryCodeToFlag_other_length (s : string) :
  String.length s <> 2 -> countryCodeToFlag (Some s) = None.
Proof.
  intros Hlen. unfold countryCodeToFlag.
  destruct s as [|a s']; [reflexivity|].
  replace (String.length (String a s') =? 2)%nat with false
    by (symmetry; now apply Nat.eqb_neq).
  reflexivity.
Qed.

(** X15.  [countryCodeToFlag] returns null exactly when the code is
    absent or not two code units long.  For a code of two code units
    below 256 it returns one code point for each code unit of the
    upper-cased code: two, and one more for each sharp s in the code,
    whose capital is "SS".  The [RangeError] handler is never reached. *)
Theorem countryCodeToFlag_null_iff (countryCode : option string) :
  (countryCodeToFlag countryCode = None <->
   countryCode = None \/ exists s, countryCode = Some s /\ String.length s <> 2)
  /\ (forall s flag,
         countryCode = Some s ->
         countryCodeToFlag countryCode = Some flag ->
         List.length flag = 2 + countChars isSharpS s
         /\ (allChars isAsciiLetter s = true -> List.length flag = 2)).
Proof.
  destruct countryCode as [s|].
  2:{ split; [split; [now left | reflexivity] | discriminate]. }
  destruct (Nat.eq_dec (String.length s) 2) as [Hlen | Hlen].
  - rewrite (countryCodeToFlag_two s Hlen). split.
    + split; [discriminate|].
      intros [H | (s' & [= <-] & Hs)]; [discriminate | contradiction].
    + intros s' flag [= <-] Hflag. apply some_inj in Hflag. subst flag.
      rewrite length_map, toUpperCaseUnits_length, Hlen.
      split; [reflexivity|]. intros Hletters.
      assert (Hnone : forall t, allChars isAsciiLetter t = true ->
                                countChars isSharpS t = 0).
      { induction t as [|c t IH]; [reflexivity|].
        cbn [allChars countChars]. intros H.
        apply andb_true_iff in H as [Hc Ht]. rewrite (IH Ht).
        replace (isSharpS c) with false; [reflexivity|].
        revert Hc. clear. destruct c as [[] [] [] [] [] [] [] []];
          vm_compute; congruence. }
      rewrite (Hnone s Hletters). reflexivity.
  - rewrite (countryCodeToFlag_other_length s Hlen). split.
    + split; [|reflexivity]. intros _. right. now exists s.
    + discriminate.
Qed.

Lemma letter_upper_case (c : ascii) :
  isAsciiLetter c = true ->
  upperCaseUnits c = [(65 + letterIndex c)%Z]
  /\ (0 <= letterIndex c <= 25)%Z
  /\ upperCaseUnits (toLowerChar c) = upperCaseUnits c
  /\ upperCaseUnits (capital c) = upperCaseUnits c.
Proof.
  destruct c as [[] [] [] [] [] [] [] []]; vm_compute; intros H;
    try discriminate H; repeat split; congruence.
Qed.

(** X16.  For a code of two ASCII letters, in either case, the flag is the
    pair of regional indicator symbols of the two letters, each between
    U+1F1E6 and U+1F1FF; upper-casing or lower-casing the code does not
    change the flag. *)
Theorem countryCodeToFlag_regional_indicators (a b : ascii) :
  isAsciiLetter a = true ->
  isAsciiLetter b = true ->
  countryCodeToFlag (Some (String a (String b "")))
  = Some [(127462 + letterIndex a)%Z; (127462 + letterIndex b)%Z]
  /\ (127462 <= 127462 + letterIndex a <= 127487)%Z
  /\ (127462 <= 127462 + letterIndex b <= 127487)%Z
  /\ countryCodeToFlag (Some (toLowerCase (String a (String b ""))))
     = countryCodeToFlag (Some (String a (String b "")))
  /\ countryCodeToFlag (Some (String (capital a) (String (capital b) "")))
     = countryCodeToFlag (Some (String a (String b ""))).
Proof.
  intros Ha Hb.
  destruct (letter_upper_case a Ha) as (Ua & Ra & La & Ca).
  destruct (letter_upper_case b Hb) as (Ub & Rb & Lb & Cb).
  cbn [toLowerCase].
  rewrite !countryCodeToFlag_two by reflexivity.
  cbn [toUpperCaseUnits]. rewrite La, Lb, Ca, Cb, Ua, Ub.
  change (charCode "A") with 65%Z. cbn [app map].
  repeat split; try lia.
  do 2 f_equal; [lia | f_equal; lia].
Qed.

Lemma countryCodeToFlag_regional_indicators_witness :
  countryCodeToFlag (Some "in") = Some [127470%Z; 127475%Z]
  /\ countryCodeToFlag (Some "IN") = countryCodeToFlag (Some "in").
Proof.
  destruct (countryCodeToFlag_regional_indicators "i" "n" eq_refl eq_refl)
    as (Hflag & _ & _ & _ & Hup).
  split; [exact Hflag | exact Hup].
Defined.

(** X17.  Two two-character codes get the same flag exactly when they are
    equal up to case. *)
Theorem countryCodeToFlag_same_flag_iff (s t : string) :
  String.length s = 2 ->
  String.length t = 2 ->
  (countryCodeToFlag (Some s) = countryCodeToFlag (Some t)
   <-> toUpperCaseUnits s = toUpperCaseUnits t).
Proof.
  intros Hs Ht.
  rewrite (countryCodeToFlag_two s Hs), (countryCodeToFlag_two t Ht). split.
  - intros H. apply some_inj in H. now apply flag_code_point_inj.
  - now intros ->.
Qed.

Lemma countryCodeToFlag_same_flag_iff_witness :
  countryCodeToFlag (Some "us") = countryCodeToFlag (Some "Us").
Proof.
  apply (proj2 (countryCodeToFlag_same_flag_iff "us" "Us" eq_refl eq_refl)).
  reflexivity.
Defined.

End LocationProperties.

(** A code with a sharp s: three code points, for "SSA". *)
Lemma countryCodeToFlag_null_iff_witness :
  exists flag,
    Location.countryCodeToFlag (Some sharpSCode) = Some flag /\ List.length flag = 3.
Proof.
  destruct (Location.countryCodeToFlag (Some sharpSCode)) as [flag|] eqn:E;
    [|vm_compute in E; discriminate E].
  exists flag. split; [reflexivity|].
  exact (proj1 (proj2 (countryCodeToFlag_null_iff (Some sharpSCode))
                 sharpSCode flag eq_refl E)).
Defined.

(* ================================================================== *)
(** ** The birthday countdown: properties *)

Section AgeProperties.

Import Age.

Local Open Scope Z_scope.

(** X18.  The countdown splits the time left into whole days and a
    remainder of less than a day: hours below 24, minutes and seconds
    below 60, none negative; put together again they give the time left
    to within the last, unfinished second.  Once the birthday has been
    reached every part is 0. *)
Theorem countdown_decomposes (now nextBirthday : Z) :
  let t := calculateTimeToNextBirthday now nextBirthday in
  let diffMs := Z.max 0 (nextBirthday - now) in
  (0 <= days t /\ 0 <= hours t < 24 /\ 0 <= minutes t < 60 /\ 0 <= seconds t < 60)
  /\ (days t * 86400000 + hours t * 3600000 + minutes t * 60000 + seconds t * 1000
      <= diffMs
      < days t * 86400000 + hours t * 3600000 + minutes t * 60000 + seconds t * 1000
        + 1000)
  /\ (nextBirthday <= now -> t = mkCountdown 0 0 0 0).
Proof.
  cbv zeta. unfold calculateTimeToNextBirthday.
  cbn [days hours minutes seconds].
  change (24 * 60 * 60 * 1000) with 86400000.
  change (60 * 60 * 1000) with 3600000.
  change (60 * 1000) with 60000.
  set (d := Z.max 0 (nextBirthday - now)).
  assert (Hd : 0 <= d) by (unfold d; lia).
  rewrite !Z.rem_mod_nonneg by lia.
  pose proof (Z.div_mod d 86400000 ltac:(lia)) as E1.
  pose proof (Z.mod_pos_bound d 86400000 ltac:(lia)) as B1.
  pose proof (Z.div_mod (d mod 86400000) 3600000 ltac:(lia)) as E2.
  pose proof (Z.mod_pos_bound (d mod 86400000) 3600000 ltac:(lia)) as B2.
  pose proof (Z.mod_mod_divide d 86400000 3600000 (ex_intro _ 24 eq_refl)) as F2.
  pose proof (Z.div_mod (d mod 3600000) 60000 ltac:(lia)) as E3.
  pose proof (Z.mod_pos_bound (d mod 3600000) 60000 ltac:(lia)) as B3.
  pose proof (Z.mod_mod_divide d 3600000 60000 (ex_intro _ 60 eq_refl)) as F3.
  pose proof (Z.div_mod (d mod 60000) 1000 ltac:(lia)) as E4.
  pose proof (Z.mod_pos_bound (d mod 60000) 1000 ltac:(lia)) as B4.
  split; [|split].
  - lia.
  - lia.
  - intros Hpast. replace d with 0 by (unfold d; lia). reflexivity.
Qed.

End AgeProperties.

(* ================================================================== *)
(** ** Traversal order and the extractor's exits: properties *)

Section ExtractorProperties.

Import WhatPulse.

Lemma fold_collect_acc (path pl : string) (field : NumericField)
    (pats : list string) (entries : list (string * json)) (acc : list Candidate) :
  collectCandidates (JObject entries) path pl field pats acc
  = acc ++ collectCandidates (JObject entries) path pl field pats [].
Proof. apply collectCandidates_acc. Qed.

(** X19.  Candidates come out in document order: what is collected from
    an object is what is collected from its earlier entries followed by
    what is collected from its later entries, and what a call pushes is
    appended after what the accumulator already held. *)
Theorem candidates_follow_document_order (entries1 entries2 : list (string * json))
    (path pl : string) (field : NumericField) (pats : list string)
    (acc : list Candidate) :
  collectCandidates (JObject (entries1 ++ entries2)) path pl field pats acc
  = acc
    ++ collectCandidates (JObject entries1) path pl field pats []
    ++ collectCandidates (JObject entries2) path pl field pats [].
Proof.
  rewrite (fold_collect_acc path pl field pats (entries1 ++ entries2) acc).
  f_equal. cbn [collectCandidates]. rewrite fold_left_app.
  apply (fold_collect_acc path pl field pats entries2).
Qed.

(** X20.  The extractor writes the report exactly when the raw capture
    file holds JSON other than null; when the file is missing, unreadable,
    not JSON, or the JSON value null, it exits with status 1 and leaves
    the previous report in place. *)
Theorem extractor_writes_only_from_a_capture (now : string) (rawFile : RawFile)
    (apiFile : option WhatPulseOutput) :
  (forall parsed, rawFile = RawJson parsed -> parsed <> JNull ->
                  exists data,
                    unwrapData parsed = Some data
                    /\ BuildWhatPulse.main now rawFile apiFile
                       = (Exit0 ["Wrote api/whatpulse.json"],
                          Some (buildOutput now data)))
  /\ ((forall parsed, rawFile = RawJson parsed -> parsed = JNull) ->
      exists stderr, BuildWhatPulse.main now rawFile apiFile = (Exit1 stderr, apiFile)).
Proof.
  split.
  - intros parsed -> Hnn. unfold BuildWhatPulse.main, normalize.
    destruct (unwrapData parsed) as [data|] eqn:Hdata.
    + exists data. split; reflexivity.
    + exfalso. unfold unwrapData in Hdata.
      destruct parsed; try contradiction;
        try (destruct (getProp _ "data") as [[]|]; discriminate).
  - intros Hnull. destruct rawFile as [| err | text | parsed];
      try (eexists; reflexivity).
    rewrite (Hnull parsed eq_refl). eexists. reflexivity.
Qed.

Lemma extractor_writes_only_from_a_capture_witness :
  exists stderr,
    BuildWhatPulse.main "t" (RawJson JNull) (Some (buildOutput "t0" dataA))
    = (Exit1 stderr, Some (buildOutput "t0" dataA)).
Proof.
  apply (proj2 (extractor_writes_only_from_a_capture "t" (RawJson JNull)
                  (Some (buildOutput "t0" dataA)))).
  now intros parsed [= <-].
Defined.

End ExtractorProperties.

